(** * piggy-api: the position lifecycle, its derived metrics and the
    list / delete / summary handlers, embedded from the TypeScript sources.

    Conventions of the embedding.
    - A Prisma [Decimal] column holds a decimal, an exact rational
      ([Q]).  A number of a request is a double; it is given by its
      decimal, the one that is stored when the number is written to a
      column, and [Number] gives the double back.  Where a handler
      computes a value of a position or of a transaction, the
      arithmetic is JavaScript's, IEEE 754 binary64 ([float]): a column
      is read with [Number] and the result is written with [toDecimal].
      The precision of a Decimal column is declared in the Prisma
      schema, which is not among the sources, and is not represented.
      The totals of [transaction.getSummary] are aggregates of the
      database, sums of decimals.  The sums of the portfolio summary,
      which the handler takes on numbers, are written on the decimals
      as well; they are studied only where the list that is summed is
      empty, and otherwise only the counts of the summary are used.
    - An [Int] column is a [Z]; a [Date] is a [Z] (milliseconds).
    - Identifiers (cuid strings, never interpreted by the handlers) are
      opaque numbers drawn from a counter kept in the store.
    - A table is a finite map from primary key to row.
    - A handler is a function from the store to a result and a store;
      a [throw] keeps the writes that were made before it, as the source
      wraps no handler in a database transaction. *)

From Stdlib Require Import ZArith QArith Qround Floats List String Ascii Bool Lia.
From stdpp Require Import gmap list fin_maps.
Import ListNotations.

Local Open Scope string_scope.
Local Open Scope Z_scope.

(** ** Basic types *)

Abbreviation Id := N.
Abbreviation Date := Z.

Inductive PositionStatus := OPEN | CLOSED | PARTIAL.
Inductive PositionType := LONG | SHORT.
Inductive TransactionType := BUY | SELL | DIVIDEND | SPLIT | BONUS.

#[global] Instance PositionStatus_eq_dec : EqDecision PositionStatus.
Proof. solve_decision. Defined.

Definition PositionStatus_eqb (a b : PositionStatus) : bool :=
  match a, b with
  | OPEN, OPEN | CLOSED, CLOSED | PARTIAL, PARTIAL => true
  | _, _ => false
  end.

Definition TransactionType_eqb (a b : TransactionType) : bool :=
  match a, b with
  | BUY, BUY | SELL, SELL | DIVIDEND, DIVIDEND | SPLIT, SPLIT | BONUS, BONUS => true
  | _, _ => false
  end.

(** What a handler can throw: [new Error(message)], a Prisma
    known-request error with its code, or the rejection of the input by
    the procedure's schema. *)
Inductive Error :=
| JsError (message : string)
| PrismaError (code : string)
| ValidationError.

(** ** Rows *)

Module User.
Record t := mk {
  id : Id; email : string; name : option string;
  createdAt : Date; updatedAt : Date }.
End User.

Module Exchange.
Record t := mk {
  id : Id; code : string; name : string; country : string;
  timezone : string; currency : string; isActive : bool }.
End Exchange.

Module Stock.
Record t := mk {
  id : Id; symbol : string; name : string;
  sector : option string; industry : option string;
  marketCap : option Q; exchangeId : Id; isActive : bool }.
End Stock.

Module PriceHistory.
Record t := mk {
  id : Id; stockId : Id; date : Date;
  open : Q; high : Q; low : Q; close : Q; volume : option Q }.
End PriceHistory.

Module Position.
Record t := mk {
  id : Id; userId : Id; stockId : Id;
  status : PositionStatus; positionType : PositionType;
  openDate : Date; entryPrice : Q; quantity : Z; buyFees : Q;
  totalBuyValue : Q; capitalAllocated : Q;
  closeDate : option Date; exitPrice : option Q;
  totalSellValue : option Q; sellFees : option Q;
  realizedPnL : option Q; returnPercentage : option Q;
  stopLossPrice : option Q; takeProfitPrice : option Q;
  riskAmount : option Q; riskPercentage : option Q;
  openReason : string; strategy : option string;
  setupType : option string; timeframe : option string;
  tags : list string; notes : option string;
  tradeGrade : option string; lessonsLearned : option string }.
End Position.

Module Transaction.
Record t := mk {
  id : Id; positionId : Id; type : TransactionType; date : Date;
  quantity : Z; price : Q; totalValue : Q; fees : Q;
  executionTime : option Date; brokerRef : option string;
  orderType : option string; notes : option string }.
End Transaction.

Module Watchlist.
Record t := mk {
  id : Id; userId : Id; stockId : Id;
  name : option string; notes : option string;
  targetPrice : option Q; createdAt : Date }.
End Watchlist.

(** ** The store *)

Record Db := mkDb {
  users : gmap N User.t;
  exchanges : gmap N Exchange.t;
  stocks : gmap N Stock.t;
  priceHistory : gmap N PriceHistory.t;
  positions : gmap N Position.t;
  transactions : gmap N Transaction.t;
  watchlist : gmap N Watchlist.t;
  nextId : Id }.

Definition emptyDb : Db := mkDb ∅ ∅ ∅ ∅ ∅ ∅ ∅ 0%N.

(** ** Handlers: state and exceptions *)

Inductive Result (A : Type) :=
| Ok (a : A)
| Throw (e : Error).
Arguments Ok {A} a.
Arguments Throw {A} e.

Definition Handler (A : Type) : Type := Db -> Result A * Db.

Definition ret {A} (a : A) : Handler A := fun db => (Ok a, db).
Definition throw {A} (e : Error) : Handler A := fun db => (Throw e, db).
Definition bind {A B} (m : Handler A) (k : A -> Handler B) : Handler B :=
  fun db =>
    match m db with
    | (Ok a, db') => k a db'
    | (Throw e, db') => (Throw e, db')
    end.
Definition get : Handler Db := fun db => (Ok db, db).

Notation "'let*' x ':=' m 'in' k" := (bind m (fun x => k))
  (at level 10, x name, m at level 100, k at level 200).

(** ** The persistence collaborator (Prisma client) *)

Record Table (A : Type) := mkTable {
  rd : Db -> gmap N A;
  wr : gmap N A -> Db -> Db }.
Arguments mkTable {A} _ _.
Arguments rd {A} _ _.
Arguments wr {A} _ _ _.

Definition withNextId (n : Id) (db : Db) : Db :=
  mkDb (users db) (exchanges db) (stocks db) (priceHistory db)
       (positions db) (transactions db) (watchlist db) n.

Definition userT : Table User.t :=
  mkTable users (fun m db =>
    mkDb m (exchanges db) (stocks db) (priceHistory db)
         (positions db) (transactions db) (watchlist db) (nextId db)).
Definition exchangeT : Table Exchange.t :=
  mkTable exchanges (fun m db =>
    mkDb (users db) m (stocks db) (priceHistory db)
         (positions db) (transactions db) (watchlist db) (nextId db)).
Definition stockT : Table Stock.t :=
  mkTable stocks (fun m db =>
    mkDb (users db) (exchanges db) m (priceHistory db)
         (positions db) (transactions db) (watchlist db) (nextId db)).
Definition priceHistoryT : Table PriceHistory.t :=
  mkTable priceHistory (fun m db =>
    mkDb (users db) (exchanges db) (stocks db) m
         (positions db) (transactions db) (watchlist db) (nextId db)).
Definition positionT : Table Position.t :=
  mkTable positions (fun m db =>
    mkDb (users db) (exchanges db) (stocks db) (priceHistory db)
         m (transactions db) (watchlist db) (nextId db)).
Definition transactionT : Table Transaction.t :=
  mkTable transactions (fun m db =>
    mkDb (users db) (exchanges db) (stocks db) (priceHistory db)
         (positions db) m (watchlist db) (nextId db)).
Definition watchlistT : Table Watchlist.t :=
  mkTable watchlist (fun m db =>
    mkDb (users db) (exchanges db) (stocks db) (priceHistory db)
         (positions db) (transactions db) m (nextId db)).

(** Insertion sort, used for [orderBy]; [le a b] says that [a] may come
    before [b]. *)
Fixpoint insertBy {A} (le : A -> A -> bool) (x : A) (l : list A) : list A :=
  match l with
  | [] => [x]
  | y :: l' => if le x y then x :: l else y :: insertBy le x l'
  end.

Definition sortBy {A} (le : A -> A -> bool) (l : list A) : list A :=
  fold_right (insertBy le) [] l.

Module prisma.
Section Ops.
Context {A : Type} (T : Table A).

Definition all (db : Db) : list A := (map_to_list (rd T db)).*2.

Definition findUnique (id : Id) : Handler (option A) :=
  fun db => (Ok (rd T db !! id), db).

(** [findMany({where, orderBy, skip, take})]; [take = None] when the
    call gives none. *)
Definition findMany (where_ : A -> bool) (orderBy : A -> A -> bool)
    (skip : nat) (take : option nat) : Handler (list A) :=
  fun db =>
    let sorted := sortBy orderBy (List.filter where_ (all db)) in
    let skipped := skipn skip sorted in
    (Ok (match take with Some n => firstn n skipped | None => skipped end), db).

Definition findFirst (where_ : A -> bool) (orderBy : A -> A -> bool)
    : Handler (option A) :=
  fun db => (Ok (head (sortBy orderBy (List.filter where_ (all db)))), db).

Definition count (where_ : A -> bool) : Handler nat :=
  fun db => (Ok (length (List.filter where_ (all db))), db).

(** [create]: the row receives a generated identifier. *)
Definition create (mkRow : Id -> A) : Handler A :=
  fun db =>
    let i := nextId db in
    let row := mkRow i in
    (Ok row, withNextId (N.succ i) (wr T (<[i := row]> (rd T db)) db)).

(** [update({where: {id}, data})]: P2025 when no row has the id. *)
Definition update (id : Id) (data : A -> A) : Handler A :=
  fun db =>
    match rd T db !! id with
    | None => (Throw (PrismaError "P2025"), db)
    | Some row => (Ok (data row), wr T (<[id := data row]> (rd T db)) db)
    end.

(** [delete({where: {id}})]: P2025 when no row has the id. *)
Definition delete (id : Id) : Handler A :=
  fun db =>
    match rd T db !! id with
    | None => (Throw (PrismaError "P2025"), db)
    | Some row => (Ok row, wr T (base.delete id (rd T db)) db)
    end.

Definition deleteMany (where_ : A -> bool) : Handler nat :=
  fun db =>
    (Ok (length (List.filter where_ (all db))),
     wr T (base.filter (fun kv => where_ kv.2 = false) (rd T db)) db).
End Ops.
End prisma.

(** Foreign keys checked by the store on insertion (P2003 when the
    referenced row is missing).  The handlers [include] the stock and the
    user of a position and the position of a transaction, so these
    relations are declared; the watchlist handlers fetch the stock by a
    separate query and no relation is assumed there.  The Prisma schema
    is not among the sources: its referential actions are taken not to
    block a [delete] that a handler issues after its own count of the
    dependent rows. *)
Definition hasRow {A} (m : gmap N A) (i : Id) : bool :=
  match m !! i with Some _ => true | None => false end.

Definition position_fk (p : Position.t) (db : Db) : bool :=
  hasRow (users db) (Position.userId p) && hasRow (stocks db) (Position.stockId p).

Definition transaction_fk (t : Transaction.t) (db : Db) : bool :=
  hasRow (positions db) (Transaction.positionId t).

Definition createChecked {A} (T : Table A) (fk : A -> Db -> bool)
    (mkRow : Id -> A) : Handler A :=
  fun db =>
    if fk (mkRow (nextId db)) db then prisma.create T mkRow db
    else (Throw (PrismaError "P2003"), db).

(** A procedure: the input is checked against its schema, then the
    resolver runs. *)
Definition procedure {I A} (schema : I -> bool) (resolver : I -> Handler A)
    (input : I) : Handler A :=
  if schema input then resolver input else throw ValidationError.

Definition Qpositive (q : Q) : bool := negb (Qle_bool q 0).
Definition Qnonnegative (q : Q) : bool := Qle_bool 0 q.
Definition optAll {A} (f : A -> bool) (o : option A) : bool :=
  match o with Some a => f a | None => true end.
Definition nonEmpty (s : string) : bool :=
  match s with EmptyString => false | _ => true end.

(** A column set from an optional field of [data]: [undefined] leaves
    the column as it is. *)
Definition setOpt {A} (provided : option A) (old : option A) : option A :=
  match provided with Some v => Some v | None => old end.
Definition setReq {A} (provided : option A) (old : A) : A :=
  match provided with Some v => v | None => old end.

(** ** Numbers

    [Number(d)] for a decimal [d]: the double nearest to it, ties to
    even, infinite beyond the range; the quotient of numerator by
    denominator, rounded once. *)
Definition Number (q : Q) : float :=
  match Qnum q with
  | Z0 => 0%float
  | Zpos n =>
      SF2Prim (SFdiv prec emax (S754_finite false n 0) (S754_finite false (Qden q) 0))
  | Zneg n =>
      SF2Prim (SFdiv prec emax (S754_finite true n 0) (S754_finite false (Qden q) 0))
  end.

(** The number read from an [Int] column. *)
Definition int (z : Z) : float := Number (inject_Z z).

(** The value of a finite double. *)
Definition valueOf (x : float) : option Q :=
  match Prim2SF x with
  | S754_zero _ => Some 0%Q
  | S754_finite s m e =>
      let v := match e with
               | Zneg k => Qmake (Zpos m) (2 ^ k)%positive
               | _ => inject_Z (Zpos m * 2 ^ e)
               end in
      Some (if s then Qopp v else v)
  | _ => None
  end.

Definition pow10 (n : Z) : Q :=
  match n with
  | Zneg k => Qmake 1 (10 ^ k)%positive
  | _ => inject_Z (10 ^ n)
  end.

(** The [n] with 10^(n-1) <= v < 10^n, searched upwards from [n]. *)
Fixpoint magnitude (fuel : nat) (n : Z) (v : Q) : Z :=
  match fuel with
  | O => n
  | S fuel' => if Qle_bool (pow10 n) v then magnitude fuel' (n + 1) v else n
  end.

(** A rendering of the double [x], of value [v], with [k] digits: the
    multiple of 10^(n-k) nearest to [v] among those that denote [x], if
    there is one. *)
Definition rendering (x : float) (v : Q) (n k : Z) : option Q :=
  let t := pow10 (n - k) in
  let s := Qfloor (v / t) in
  let lo := (inject_Z s * t)%Q in
  let hi := (inject_Z (s + 1) * t)%Q in
  match PrimFloat.eqb (Number lo) x, PrimFloat.eqb (Number hi) x with
  | true, true =>
      match ((v - lo) ?= (hi - v))%Q with
      | Lt => Some lo
      | Gt => Some hi
      | Eq => Some (if Z.even s then lo else hi)
      end
  | true, false => Some lo
  | false, true => Some hi
  | false, false => None
  end.

(** The rendering with the fewest digits; seventeen always denote the
    double. *)
Fixpoint shortest (fuel : nat) (x : float) (v : Q) (n k : Z) : Q :=
  match fuel with
  | O => v
  | S fuel' =>
      match rendering x v n k with
      | Some d => d
      | None => shortest fuel' x v n (k + 1)
      end
  end.

(** The decimal that is stored for a number: the digits that
    [Number.prototype.toString] gives, the fewest that denote the
    number.  A number that is not finite has no decimal. *)
Definition toDecimal (x : float) : option Q :=
  match valueOf x with
  | None => None
  | Some v =>
      match Qcompare v 0 with
      | Eq => Some 0%Q
      | Gt => Some (Qred (shortest 17 x v (magnitude 640 (-323) v) 1))
      | Lt => Some (Qred (Qopp (shortest 17 (PrimFloat.abs x) (Qopp v)
                                   (magnitude 640 (-323) (Qopp v)) 1)))
      end
  end.

Arguments Number : simpl never.
Arguments toDecimal : simpl never.

(** A number written to a Decimal column.  What the client does with a
    number that is not finite is not in the sources: the write is taken
    to fail, before anything is stored, and the statements about a
    computed column are made where the number is finite. *)
Definition decimal (x : float) : Handler Q :=
  match toDecimal x with
  | Some d => ret d
  | None => throw (PrismaError "P2020")
  end.

(** ** Inputs of the position procedures *)

Module CreatePositionInput.
(** The input as the resolver receives it, defaults applied
    ([positionType] LONG, [buyFees] 0, [tags] empty). *)
Record t := mk {
  userId : Id; stockId : Id; openDate : Date;
  entryPrice : Q; quantity : Z; positionType : PositionType;
  buyFees : Q; openReason : string;
  stopLossPrice : option Q; takeProfitPrice : option Q;
  riskAmount : option Q; riskPercentage : option Q;
  strategy : option string; setupType : option string;
  timeframe : option string; tags : list string;
  notes : option string }.
End CreatePositionInput.

Module ClosePositionInput.
Record t := mk {
  positionId : Id; closeDate : Date; exitPrice : Q; sellFees : Q;
  tradeGrade : option string; lessonsLearned : option string }.
End ClosePositionInput.

Module GetPositionsInput.
Record t := mk {
  userId : Id; status : option PositionStatus; stockId : option Id;
  limit : Z; offset : Z }.
End GetPositionsInput.

Module UpdatePositionInput.
Record t := mk {
  id : Id;
  stopLossPrice : option Q; takeProfitPrice : option Q;
  strategy : option string; setupType : option string;
  timeframe : option string; tags : option (list string);
  notes : option string }.
End UpdatePositionInput.

(** The schemas of [types/index.ts].  What a schema asks of an
    identifier, a date, an enumeration, a string without bound or a
    field with a default is kept by the type of the input record; the
    other checks are those of the definitions, in the order of the
    source. *)

(** [CreatePositionSchema]: [entryPrice] positive, [quantity] an integer
    and positive, [buyFees] nonnegative, [stopLossPrice],
    [takeProfitPrice], [riskAmount] and [riskPercentage] positive when
    given, [openReason] of length at least 1. *)
Definition CreatePositionSchema (i : CreatePositionInput.t) : bool :=
  Qpositive (CreatePositionInput.entryPrice i)
  && (0 <? CreatePositionInput.quantity i)
  && Qnonnegative (CreatePositionInput.buyFees i)
  && optAll Qpositive (CreatePositionInput.stopLossPrice i)
  && optAll Qpositive (CreatePositionInput.takeProfitPrice i)
  && optAll Qpositive (CreatePositionInput.riskAmount i)
  && optAll Qpositive (CreatePositionInput.riskPercentage i)
  && nonEmpty (CreatePositionInput.openReason i).

(** [ClosePositionSchema]: [exitPrice] positive, [sellFees]
    nonnegative. *)
Definition ClosePositionSchema (i : ClosePositionInput.t) : bool :=
  Qpositive (ClosePositionInput.exitPrice i)
  && Qnonnegative (ClosePositionInput.sellFees i).

(** [GetPositionsSchema]: [limit] an integer, positive and at most 100,
    [offset] an integer and nonnegative. *)
Definition GetPositionsSchema (i : GetPositionsInput.t) : bool :=
  (1 <=? GetPositionsInput.limit i) && (GetPositionsInput.limit i <=? 100)
  && (0 <=? GetPositionsInput.offset i).

(** The inline schema of [update]. *)
Definition UpdatePositionSchema (i : UpdatePositionInput.t) : bool :=
  optAll Qpositive (UpdatePositionInput.stopLossPrice i)
  && optAll Qpositive (UpdatePositionInput.takeProfitPrice i).

Record Page (A : Type) := mkPage {
  items : list A; total : nat; hasMore : bool }.
Arguments mkPage {A} _ _ _.
Arguments items {A} _.
Arguments total {A} _.
Arguments hasMore {A} _.

Definition N_eqb_opt (filter : option Id) (v : Id) : bool :=
  match filter with Some i => N.eqb v i | None => true end.

(** ** routers/position.ts *)

Module positionRouter.

Definition create : CreatePositionInput.t -> Handler Position.t :=
  procedure CreatePositionSchema (fun input =>
    let quantity := CreatePositionInput.quantity input in
    let entryPrice := CreatePositionInput.entryPrice input in
    let buyFees := CreatePositionInput.buyFees input in
    let totalBuyValue := (int quantity * Number entryPrice)%float in
    let capitalAllocated := (totalBuyValue + Number buyFees)%float in
    let* storedTotalBuyValue := decimal totalBuyValue in
    let* storedCapitalAllocated := decimal capitalAllocated in
    let* position :=
      createChecked positionT position_fk (fun id =>
        {| Position.id := id;
           Position.userId := CreatePositionInput.userId input;
           Position.stockId := CreatePositionInput.stockId input;
           Position.status := OPEN;
           Position.positionType := CreatePositionInput.positionType input;
           Position.openDate := CreatePositionInput.openDate input;
           Position.entryPrice := entryPrice;
           Position.quantity := quantity;
           Position.buyFees := buyFees;
           Position.totalBuyValue := storedTotalBuyValue;
           Position.capitalAllocated := storedCapitalAllocated;
           Position.closeDate := None;
           Position.exitPrice := None;
           Position.totalSellValue := None;
           Position.sellFees := None;
           Position.realizedPnL := None;
           Position.returnPercentage := None;
           Position.stopLossPrice := CreatePositionInput.stopLossPrice input;
           Position.takeProfitPrice := CreatePositionInput.takeProfitPrice input;
           Position.riskAmount := CreatePositionInput.riskAmount input;
           Position.riskPercentage := CreatePositionInput.riskPercentage input;
           Position.openReason := CreatePositionInput.openReason input;
           Position.strategy := CreatePositionInput.strategy input;
           Position.setupType := CreatePositionInput.setupType input;
           Position.timeframe := CreatePositionInput.timeframe input;
           Position.tags := CreatePositionInput.tags input;
           Position.notes := CreatePositionInput.notes input;
           Position.tradeGrade := None;
           Position.lessonsLearned := None |}) in
    let* _ :=
      createChecked transactionT transaction_fk (fun id =>
        {| Transaction.id := id;
           Transaction.positionId := Position.id position;
           Transaction.type := BUY;
           Transaction.date := CreatePositionInput.openDate input;
           Transaction.quantity := CreatePositionInput.quantity input;
           Transaction.price := CreatePositionInput.entryPrice input;
           Transaction.totalValue := storedTotalBuyValue;
           Transaction.fees := CreatePositionInput.buyFees input;
           Transaction.executionTime := None;
           Transaction.brokerRef := None;
           Transaction.orderType := None;
           Transaction.notes := None |}) in
    ret position).

(** The [data] of the update made by [close]. *)
Definition closeData (input : ClosePositionInput.t)
    (totalSellValue realizedPnL returnPercentage : Q)
    (p : Position.t) : Position.t :=
  {| Position.id := Position.id p;
     Position.userId := Position.userId p;
     Position.stockId := Position.stockId p;
     Position.status := CLOSED;
     Position.positionType := Position.positionType p;
     Position.openDate := Position.openDate p;
     Position.entryPrice := Position.entryPrice p;
     Position.quantity := Position.quantity p;
     Position.buyFees := Position.buyFees p;
     Position.totalBuyValue := Position.totalBuyValue p;
     Position.capitalAllocated := Position.capitalAllocated p;
     Position.closeDate := Some (ClosePositionInput.closeDate input);
     Position.exitPrice := Some (ClosePositionInput.exitPrice input);
     Position.totalSellValue := Some totalSellValue;
     Position.sellFees := Some (ClosePositionInput.sellFees input);
     Position.realizedPnL := Some realizedPnL;
     Position.returnPercentage := Some returnPercentage;
     Position.stopLossPrice := Position.stopLossPrice p;
     Position.takeProfitPrice := Position.takeProfitPrice p;
     Position.riskAmount := Position.riskAmount p;
     Position.riskPercentage := Position.riskPercentage p;
     Position.openReason := Position.openReason p;
     Position.strategy := Position.strategy p;
     Position.setupType := Position.setupType p;
     Position.timeframe := Position.timeframe p;
     Position.tags := Position.tags p;
     Position.notes := Position.notes p;
     Position.tradeGrade :=
       setOpt (ClosePositionInput.tradeGrade input) (Position.tradeGrade p);
     Position.lessonsLearned :=
       setOpt (ClosePositionInput.lessonsLearned input) (Position.lessonsLearned p) |}.

Definition close : ClosePositionInput.t -> Handler Position.t :=
  procedure ClosePositionSchema (fun input =>
    let positionId := ClosePositionInput.positionId input in
    let closeDate := ClosePositionInput.closeDate input in
    let exitPrice := ClosePositionInput.exitPrice input in
    let sellFees := ClosePositionInput.sellFees input in
    let* found := prisma.findUnique positionT positionId in
    match found with
    | None => throw (JsError "Position not found")
    | Some position =>
      if negb (PositionStatus_eqb (Position.status position) OPEN)
      then throw (JsError "Position is not open")
      else
        let totalSellValue :=
          (int (Position.quantity position) * Number exitPrice)%float in
        let realizedPnL :=
          (totalSellValue
           - Number (Position.totalBuyValue position)
           - Number (Position.buyFees position)
           - Number sellFees)%float in
        let returnPercentage :=
          (realizedPnL / Number (Position.capitalAllocated position) * 100)%float in
        let* storedTotalSellValue := decimal totalSellValue in
        let* storedRealizedPnL := decimal realizedPnL in
        let* storedReturnPercentage := decimal returnPercentage in
        let* updatedPosition :=
          prisma.update positionT positionId
            (closeData input storedTotalSellValue storedRealizedPnL
               storedReturnPercentage) in
        let* _ :=
          createChecked transactionT transaction_fk (fun id =>
            {| Transaction.id := id;
               Transaction.positionId := positionId;
               Transaction.type := SELL;
               Transaction.date := closeDate;
               Transaction.quantity := Position.quantity position;
               Transaction.price := exitPrice;
               Transaction.totalValue := storedTotalSellValue;
               Transaction.fees := sellFees;
               Transaction.executionTime := None;
               Transaction.brokerRef := None;
               Transaction.orderType := None;
               Transaction.notes := None |}) in
        ret updatedPosition
    end).

Definition listWhere (input : GetPositionsInput.t) (p : Position.t) : bool :=
  N.eqb (Position.userId p) (GetPositionsInput.userId input)
  && match GetPositionsInput.status input with
     | Some s => PositionStatus_eqb (Position.status p) s
     | None => true
     end
  && N_eqb_opt (GetPositionsInput.stockId input) (Position.stockId p).

Definition list : GetPositionsInput.t -> Handler (Page Position.t) :=
  procedure GetPositionsSchema (fun input =>
    let limit := GetPositionsInput.limit input in
    let offset := GetPositionsInput.offset input in
    let where_ := listWhere input in
    let* positions :=
      prisma.findMany positionT where_
        (fun a b => Position.openDate b <=? Position.openDate a)
        (Z.to_nat offset) (Some (Z.to_nat limit)) in
    let* total := prisma.count positionT where_ in
    ret (mkPage positions total (offset + limit <? Z.of_nat total))).

(** The [data] of [update]: the input without its [id]. *)
Definition updateData (input : UpdatePositionInput.t) (p : Position.t)
    : Position.t :=
  {| Position.id := Position.id p;
     Position.userId := Position.userId p;
     Position.stockId := Position.stockId p;
     Position.status := Position.status p;
     Position.positionType := Position.positionType p;
     Position.openDate := Position.openDate p;
     Position.entryPrice := Position.entryPrice p;
     Position.quantity := Position.quantity p;
     Position.buyFees := Position.buyFees p;
     Position.totalBuyValue := Position.totalBuyValue p;
     Position.capitalAllocated := Position.capitalAllocated p;
     Position.closeDate := Position.closeDate p;
     Position.exitPrice := Position.exitPrice p;
     Position.totalSellValue := Position.totalSellValue p;
     Position.sellFees := Position.sellFees p;
     Position.realizedPnL := Position.realizedPnL p;
     Position.returnPercentage := Position.returnPercentage p;
     Position.stopLossPrice :=
       setOpt (UpdatePositionInput.stopLossPrice input) (Position.stopLossPrice p);
     Position.takeProfitPrice :=
       setOpt (UpdatePositionInput.takeProfitPrice input) (Position.takeProfitPrice p);
     Position.riskAmount := Position.riskAmount p;
     Position.riskPercentage := Position.riskPercentage p;
     Position.openReason := Position.openReason p;
     Position.strategy :=
       setOpt (UpdatePositionInput.strategy input) (Position.strategy p);
     Position.setupType :=
       setOpt (UpdatePositionInput.setupType input) (Position.setupType p);
     Position.timeframe :=
       setOpt (UpdatePositionInput.timeframe input) (Position.timeframe p);
     Position.tags :=
       setReq (UpdatePositionInput.tags input) (Position.tags p);
     Position.notes :=
       setOpt (UpdatePositionInput.notes input) (Position.notes p);
     Position.tradeGrade := Position.tradeGrade p;
     Position.lessonsLearned := Position.lessonsLearned p |}.

Definition update : UpdatePositionInput.t -> Handler Position.t :=
  procedure UpdatePositionSchema (fun input =>
    let id := UpdatePositionInput.id input in
    let* position := prisma.update positionT id (updateData input) in
    ret position).

Definition delete (id : Id) : Handler bool :=
  let* transactionCount :=
    prisma.count transactionT
      (fun t => N.eqb (Transaction.positionId t) id) in
  if (0 <? transactionCount)%nat
  then throw (JsError "Cannot delete position with existing transactions")
  else
    let* _ := prisma.delete positionT id in
    ret true.

End positionRouter.

(** ** routers/transaction.ts *)

Module GetTransactionsInput.
Record t := mk {
  positionId : option Id; userId : option Id;
  type : option TransactionType;
  startDate : option Date; endDate : option Date;
  limit : Z; offset : Z }.
End GetTransactionsInput.

Module UpdateTransactionInput.
Record t := mk {
  id : Id; date : option Date;
  quantity : option Z; price : option Q; fees : option Q;
  executionTime : option Date; brokerRef : option string;
  orderType : option string; notes : option string }.
End UpdateTransactionInput.

(** [GetTransactionsSchema] of [types/index.ts]: [limit] an integer,
    positive and at most 100, [offset] an integer and nonnegative. *)
Definition GetTransactionsSchema (i : GetTransactionsInput.t) : bool :=
  (1 <=? GetTransactionsInput.limit i) && (GetTransactionsInput.limit i <=? 100)
  && (0 <=? GetTransactionsInput.offset i).

(** The inline schema of [transaction.update]. *)
Definition UpdateTransactionSchema (i : UpdateTransactionInput.t) : bool :=
  optAll (fun q => 0 <? q) (UpdateTransactionInput.quantity i)
  && optAll Qpositive (UpdateTransactionInput.price i)
  && optAll Qnonnegative (UpdateTransactionInput.fees i).

Definition isSome {A} (o : option A) : bool :=
  match o with Some _ => true | None => false end.

Module transactionRouter.

(** [where.position = { userId }]: the owning position belongs to the
    user. *)
Definition ownedBy (db : Db) (userId : Id) (t : Transaction.t) : bool :=
  match positions db !! Transaction.positionId t with
  | Some p => N.eqb (Position.userId p) userId
  | None => false
  end.

Definition listWhere (db : Db) (input : GetTransactionsInput.t)
    (t : Transaction.t) : bool :=
  N_eqb_opt (GetTransactionsInput.positionId input) (Transaction.positionId t)
  && match GetTransactionsInput.userId input with
     | Some u => ownedBy db u t
     | None => true
     end
  && match GetTransactionsInput.type input with
     | Some ty => TransactionType_eqb (Transaction.type t) ty
     | None => true
     end
  && match GetTransactionsInput.startDate input with
     | Some d => d <=? Transaction.date t
     | None => true
     end
  && match GetTransactionsInput.endDate input with
     | Some d => Transaction.date t <=? d
     | None => true
     end.

Definition list : GetTransactionsInput.t -> Handler (Page Transaction.t) :=
  procedure GetTransactionsSchema (fun input =>
    let limit := GetTransactionsInput.limit input in
    let offset := GetTransactionsInput.offset input in
    let* db := get in
    let where_ := listWhere db input in
    let* transactions :=
      prisma.findMany transactionT where_
        (fun a b => Transaction.date b <=? Transaction.date a)
        (Z.to_nat offset) (Some (Z.to_nat limit)) in
    let* total := prisma.count transactionT where_ in
    ret (mkPage transactions total (offset + limit <? Z.of_nat total))).

(** [otherUpdates]: the input without [id], [quantity] and [price]. *)
Definition otherUpdates (input : UpdateTransactionInput.t)
    (t : Transaction.t) : Transaction.t :=
  {| Transaction.id := Transaction.id t;
     Transaction.positionId := Transaction.positionId t;
     Transaction.type := Transaction.type t;
     Transaction.date := setReq (UpdateTransactionInput.date input) (Transaction.date t);
     Transaction.quantity := Transaction.quantity t;
     Transaction.price := Transaction.price t;
     Transaction.totalValue := Transaction.totalValue t;
     Transaction.fees := setReq (UpdateTransactionInput.fees input) (Transaction.fees t);
     Transaction.executionTime :=
       setOpt (UpdateTransactionInput.executionTime input) (Transaction.executionTime t);
     Transaction.brokerRef :=
       setOpt (UpdateTransactionInput.brokerRef input) (Transaction.brokerRef t);
     Transaction.orderType :=
       setOpt (UpdateTransactionInput.orderType input) (Transaction.orderType t);
     Transaction.notes :=
       setOpt (UpdateTransactionInput.notes input) (Transaction.notes t) |}.

(** [{...(quantity !== undefined && {quantity}),
      ...(price !== undefined && {price}), totalValue}] *)
Definition withTotal (quantity : option Z) (price : option Q) (totalValue : Q)
    (t : Transaction.t) : Transaction.t :=
  {| Transaction.id := Transaction.id t;
     Transaction.positionId := Transaction.positionId t;
     Transaction.type := Transaction.type t;
     Transaction.date := Transaction.date t;
     Transaction.quantity := setReq quantity (Transaction.quantity t);
     Transaction.price := setReq price (Transaction.price t);
     Transaction.totalValue := totalValue;
     Transaction.fees := Transaction.fees t;
     Transaction.executionTime := Transaction.executionTime t;
     Transaction.brokerRef := Transaction.brokerRef t;
     Transaction.orderType := Transaction.orderType t;
     Transaction.notes := Transaction.notes t |}.

Definition update : UpdateTransactionInput.t -> Handler Transaction.t :=
  procedure UpdateTransactionSchema (fun input =>
    let id := UpdateTransactionInput.id input in
    let quantity := UpdateTransactionInput.quantity input in
    let price := UpdateTransactionInput.price input in
    let* updateData :=
      if isSome quantity || isSome price then
        let* currentTransaction := prisma.findUnique transactionT id in
        match currentTransaction with
        | None => throw (JsError "Transaction not found")
        | Some currentTransaction =>
          let newQuantity := setReq quantity (Transaction.quantity currentTransaction) in
          let newPrice :=
            match price with
            | Some price => Number price
            | None => Number (Transaction.price currentTransaction)
            end in
          let totalValue := (int newQuantity * newPrice)%float in
          let* storedTotalValue := decimal totalValue in
          ret (fun t => withTotal quantity price storedTotalValue (otherUpdates input t))
        end
      else ret (otherUpdates input) in
    let* transaction := prisma.update transactionT id updateData in
    ret transaction).

End transactionRouter.

(** ** Pagination inputs with inline schemas *)

Module PageInput.
Record t := mk { limit : Z; offset : Z }.
End PageInput.

(** [z.number().int().positive().max(m)] and
    [z.number().int().nonnegative()] *)
Definition pageSchema (max : Z) (limit offset : Z) : bool :=
  (1 <=? limit) && (limit <=? max) && (0 <=? offset).

(** ** Portfolio summary *)

Record Summary := mkSummary {
  totalOpenPositions : nat;
  totalInvested : Q;
  totalValue : Q;
  totalRealizedPnL : Q;
  avgReturn : Q;
  totalClosedPositions : nat }.

(** The part of the portfolio answer that both surfaces share; the list
    of open positions (grouped by stock symbol in the procedure) does not
    enter the summary and is left out. *)
Record Portfolio := mkPortfolio {
  user : option User.t;
  summary : Summary;
  recentPositions : list Position.t }.

(** [xs.reduce((sum, p) => sum + f(p), 0)] *)
Definition sumBy {A} (f : A -> Q) (xs : list A) : Q :=
  fold_left (fun sum p => (sum + f p)%Q) xs 0%Q.

Definition orZero (o : option Q) : Q :=
  match o with Some q => q | None => 0%Q end.

Definition anyOrder {A} (a b : A) : bool := true.

(** The summary metrics, written once: the resolver of
    [user.getPortfolioSummary] and the handler of
    [GET /api/users/:id/portfolio] compute them with the same text. *)
Definition summaryMetrics (openPositions closedPositions : list Position.t)
    : Summary :=
  let totalOpenPositions := length openPositions in
  let totalInvested := sumBy Position.capitalAllocated openPositions in
  let totalValue := sumBy Position.totalBuyValue openPositions in
  let totalRealizedPnL :=
    sumBy (fun p => orZero (Position.realizedPnL p)) closedPositions in
  let avgReturn :=
    if (0 <? length closedPositions)%nat
    then (sumBy (fun p => orZero (Position.returnPercentage p)) closedPositions
          / inject_Z (Z.of_nat (length closedPositions)))%Q
    else 0%Q in
  mkSummary totalOpenPositions totalInvested totalValue totalRealizedPnL
            avgReturn (length closedPositions).

Definition byUserStatus (userId : Id) (s : PositionStatus) (p : Position.t) : bool :=
  N.eqb (Position.userId p) userId && PositionStatus_eqb (Position.status p) s.

(** ** routers/user.ts *)

Module userRouter.

Definition list (input : PageInput.t) : Handler (Page User.t) :=
  procedure (fun i => pageSchema 100 (PageInput.limit i) (PageInput.offset i))
    (fun input =>
      let limit := PageInput.limit input in
      let offset := PageInput.offset input in
      let* users :=
        prisma.findMany userT (fun _ => true)
          (fun a b => User.createdAt b <=? User.createdAt a)
          (Z.to_nat offset) (Some (Z.to_nat limit)) in
      let* total := prisma.count userT (fun _ => true) in
      ret (mkPage users total (offset + limit <? Z.of_nat total)))
    input.

Definition getPortfolioSummary (userId : Id) : Handler Portfolio :=
  let* openPositions :=
    prisma.findMany positionT (byUserStatus userId OPEN) anyOrder 0 None in
  let* closedPositions :=
    prisma.findMany positionT (byUserStatus userId CLOSED) anyOrder 0 None in
  let* user := prisma.findUnique userT userId in
  ret (mkPortfolio user (summaryMetrics openPositions closedPositions)
                   (firstn 5 openPositions)).

Definition delete (id : Id) : Handler bool :=
  let* positionCount :=
    prisma.count positionT (fun p => N.eqb (Position.userId p) id) in
  if (0 <? positionCount)%nat
  then throw (JsError "Cannot delete user with existing positions")
  else
    let* _ := prisma.delete userT id in
    ret true.

End userRouter.

(** ** routers/exchange.ts *)

Module exchangeRouter.

Definition delete (id : Id) : Handler bool :=
  let* stockCount :=
    prisma.count stockT (fun s => N.eqb (Stock.exchangeId s) id) in
  if (0 <? stockCount)%nat
  then throw (JsError "Cannot delete exchange with existing stocks")
  else
    let* _ := prisma.delete exchangeT id in
    ret true.

End exchangeRouter.

(** ** routers/stock.ts *)

(** JavaScript truthiness of an optional string: [undefined] and the
    empty string are falsy. *)
Definition truthy (o : option string) : bool :=
  match o with Some s => nonEmpty s | None => false end.

Definition toLower (c : ascii) : ascii :=
  let n := nat_of_ascii c in
  if (65 <=? n)%nat && (n <=? 90)%nat then ascii_of_nat (n + 32) else c.

Fixpoint lower (s : string) : string :=
  match s with
  | EmptyString => EmptyString
  | String c s' => String (toLower c) (lower s')
  end.

Fixpoint infix (needle hay : string) : bool :=
  String.prefix needle hay
  || match hay with
     | EmptyString => false
     | String _ hay' => infix needle hay'
     end.

(** [{ contains: search, mode: 'insensitive' }] *)
Definition containsInsensitive (search field : string) : bool :=
  infix (lower search) (lower field).

Definition optString_eqb (o : option string) (s : string) : bool :=
  match o with Some x => String.eqb x s | None => false end.

Module ListStocksInput.
Record t := mk {
  exchangeId : option Id; sector : option string;
  search : option string; isActive : option bool;
  limit : Z; offset : Z }.
End ListStocksInput.

Module stockRouter.

Definition listWhere (input : ListStocksInput.t) (s : Stock.t) : bool :=
  N_eqb_opt (ListStocksInput.exchangeId input) (Stock.exchangeId s)
  && (if truthy (ListStocksInput.sector input)
      then match ListStocksInput.sector input with
           | Some x => optString_eqb (Stock.sector s) x
           | None => true
           end
      else true)
  && match ListStocksInput.isActive input with
     | Some b => Bool.eqb (Stock.isActive s) b
     | None => true
     end
  && (if truthy (ListStocksInput.search input)
      then match ListStocksInput.search input with
           | Some x => containsInsensitive x (Stock.symbol s)
                       || containsInsensitive x (Stock.name s)
           | None => true
           end
      else true).

Definition list : ListStocksInput.t -> Handler (Page Stock.t) :=
  procedure
    (fun i => pageSchema 200 (ListStocksInput.limit i) (ListStocksInput.offset i))
    (fun input =>
      let limit := ListStocksInput.limit input in
      let offset := ListStocksInput.offset input in
      let where_ := listWhere input in
      let* stocks :=
        prisma.findMany stockT where_
          (fun a b => String.leb (Stock.symbol a) (Stock.symbol b))
          (Z.to_nat offset) (Some (Z.to_nat limit)) in
      let* total := prisma.count stockT where_ in
      ret (mkPage stocks total (offset + limit <? Z.of_nat total))).

Definition delete (id : Id) : Handler bool :=
  let* positionCount :=
    prisma.count positionT (fun p => N.eqb (Position.stockId p) id) in
  if (0 <? positionCount)%nat
  then throw (JsError "Cannot delete stock with existing positions")
  else
    let* _ :=
      prisma.deleteMany priceHistoryT
        (fun h => N.eqb (PriceHistory.stockId h) id) in
    let* _ := prisma.delete stockT id in
    ret true.

End stockRouter.

(** ** routers/watchlist.ts *)

Module ListWatchlistInput.
Record t := mk { userId : Id; limit : Z; offset : Z }.
End ListWatchlistInput.

Module Alert.
(** [{ ...item, stock, currentPrice, triggered }] *)
Record t := mk {
  item : Watchlist.t;
  stock : option Stock.t;
  currentPrice : option Q;
  triggered : bool }.
End Alert.

Record PriceAlerts := mkPriceAlerts {
  watchlistWithAlerts : list Alert.t;
  triggeredAlerts : list Alert.t }.

(** [await Promise.all(xs.map(f))] for an [f] that only reads. *)
Fixpoint mapM {A B} (f : A -> Handler B) (xs : list A) : Handler (list B) :=
  match xs with
  | [] => ret []
  | x :: xs' =>
    let* y := f x in
    let* ys := mapM f xs' in
    ret (y :: ys)
  end.

Module watchlistRouter.

Definition list : ListWatchlistInput.t -> Handler (Page Watchlist.t) :=
  procedure
    (fun i => pageSchema 100 (ListWatchlistInput.limit i) (ListWatchlistInput.offset i))
    (fun input =>
      let userId := ListWatchlistInput.userId input in
      let limit := ListWatchlistInput.limit input in
      let offset := ListWatchlistInput.offset input in
      let* watchlistItems :=
        prisma.findMany watchlistT
          (fun w => N.eqb (Watchlist.userId w) userId)
          (fun a b => Watchlist.createdAt b <=? Watchlist.createdAt a)
          (Z.to_nat offset) (Some (Z.to_nat limit)) in
      let* total :=
        prisma.count watchlistT (fun w => N.eqb (Watchlist.userId w) userId) in
      ret (mkPage watchlistItems total (offset + limit <? Z.of_nat total))).

(** [latestPrice && item.targetPrice
      ? Number(latestPrice.close) >= Number(item.targetPrice) : false];
    a Decimal object is truthy whatever its value. *)
Definition isTriggered (latestPrice : option PriceHistory.t)
    (targetPrice : option Q) : bool :=
  match latestPrice, targetPrice with
  | Some l, Some target => Qle_bool target (PriceHistory.close l)
  | _, _ => false
  end.

Definition latestPriceOf (stockId : Id) : Handler (option PriceHistory.t) :=
  prisma.findFirst priceHistoryT
    (fun h => N.eqb (PriceHistory.stockId h) stockId)
    (fun a b => PriceHistory.date b <=? PriceHistory.date a).

Definition getPriceAlerts (userId : Id) : Handler PriceAlerts :=
  let* watchlistItems :=
    prisma.findMany watchlistT
      (fun w => N.eqb (Watchlist.userId w) userId
                && isSome (Watchlist.targetPrice w))
      (fun a b => Watchlist.createdAt b <=? Watchlist.createdAt a)
      0 None in
  let* itemsWithDetails :=
    mapM (fun item =>
      let* stock := prisma.findUnique stockT (Watchlist.stockId item) in
      let* latestPrice := latestPriceOf (Watchlist.stockId item) in
      let triggered := isTriggered latestPrice (Watchlist.targetPrice item) in
      ret (Alert.mk item stock (option_map PriceHistory.close latestPrice) triggered))
      watchlistItems in
  let triggeredAlerts := List.filter Alert.triggered itemsWithDetails in
  ret (mkPriceAlerts itemsWithDetails triggeredAlerts).

End watchlistRouter.

(** ** The REST surface: middleware/validation.ts and the controllers

    [validateCuid] tests the format of an identifier; the identifiers of
    this model all pass it. *)

Record Response (A : Type) := mkResponse {
  statusCode : Z;
  success : option bool;
  data : option A;
  error : option string;
  message : option string }.
Arguments mkResponse {A} _ _ _ _ _.
Arguments statusCode {A} _.
Arguments success {A} _.
Arguments data {A} _.
Arguments error {A} _.
Arguments message {A} _.

(** [errorHandler]; [err.status] is unset on the errors thrown here and
    [err.name] of a Prisma error is its class name.  A Prisma error is
    kept by its code only: the text that the default branch sends as
    [message] for a code other than P2002 and P2025 is the client's and
    is left out. *)
Definition errorHandler {A} (err : Error) : Response A :=
  match err with
  | PrismaError "P2002" =>
      mkResponse 409 None None (Some "Conflict")
        (Some "A record with this data already exists")
  | PrismaError "P2025" =>
      mkResponse 404 None None (Some "Not Found")
        (Some "The requested record was not found")
  | PrismaError _ =>
      mkResponse 500 None None (Some "PrismaClientKnownRequestError") None
  | JsError m =>
      mkResponse 500 None None (Some "Error")
        (Some (if nonEmpty m then m else "Something went wrong"))
  | ValidationError =>
      mkResponse 400 None None (Some "Validation Error") None
  end.

(** [asyncHandler(fn)] followed by the error handler of the app. *)
Definition asyncHandler {A} (fn : Handler (Response A)) (db : Db)
    : Response A * Db :=
  match fn db with
  | (Ok r, db') => (r, db')
  | (Throw e, db') => (errorHandler e, db')
  end.

(** [handleValidationErrors] after a validation chain. *)
Definition validated {A} (valid : bool) (fn : Handler (Response A))
    : Handler (Response A) :=
  if valid then fn
  else ret (mkResponse 400 None None (Some "Validation Error") None).

Definition okJson {A} (d : A) : Response A :=
  mkResponse 200 (Some true) (Some d) None None.

Module GetUsersQuery.
Record t := mk { limit : option Z; offset : option Z }.
End GetUsersQuery.

(** [getUsersValidation] *)
Definition getUsersValidation (q : GetUsersQuery.t) : bool :=
  optAll (fun l => (1 <=? l) && (l <=? 100)) (GetUsersQuery.limit q)
  && optAll (fun o => 0 <=? o) (GetUsersQuery.offset q).

(** [Number(x) || d] on a validated integer or [undefined]. *)
Definition numberOr (x : option Z) (d : Z) : Z :=
  match x with
  | Some v => if v =? 0 then d else v
  | None => d
  end.

Module usersController.

Definition list (q : GetUsersQuery.t) : Db -> Response (Page User.t) * Db :=
  asyncHandler (validated (getUsersValidation q) (
    let limit := numberOr (GetUsersQuery.limit q) 50 in
    let offset := numberOr (GetUsersQuery.offset q) 0 in
    let* users :=
      prisma.findMany userT (fun _ => true)
        (fun a b => User.createdAt b <=? User.createdAt a)
        (Z.to_nat offset) (Some (Z.to_nat limit)) in
    let* total := prisma.count userT (fun _ => true) in
    ret (okJson (mkPage users total (offset + limit <? Z.of_nat total))))).


Definition delete (id : Id) : Db -> Response unit * Db :=
  asyncHandler (
    let* positionCount :=
      prisma.count positionT (fun p => N.eqb (Position.userId p) id) in
    if (0 <? positionCount)%nat
    then ret (mkResponse 400 (Some false) None
                (Some "Cannot delete user with existing positions") None)
    else
      let* _ := prisma.delete userT id in
      ret (mkResponse 200 (Some true) None None
             (Some "User deleted successfully"))).

End usersController.

Module exchangesController.

Definition delete (id : Id) : Db -> Response unit * Db :=
  asyncHandler (
    let* stockCount :=
      prisma.count stockT (fun s => N.eqb (Stock.exchangeId s) id) in
    if (0 <? stockCount)%nat
    then ret (mkResponse 400 (Some false) None
                (Some "Cannot delete exchange with existing stocks") None)
    else
      let* _ := prisma.delete exchangeT id in
      ret (mkResponse 200 (Some true) None None
             (Some "Exchange deleted successfully"))).

End exchangesController.


(** * The remaining procedures and handlers

    The resolvers below are named by their path in the app router of
    routers/index.ts ([position.getById], [transaction.create], ...). *)

(** ** More of the persistence collaborator *)

(** [findUnique({where: <unique fields>})]: the row that [key] selects. *)
Definition findUniqueBy {A} (T : Table A) (key : A -> bool)
    : Handler (option A) :=
  fun db => (Ok (head (List.filter key (prisma.all T db))), db).

(** [create] on a model with a unique constraint: P2002 when a stored
    row is [same] as the new one. *)
Definition createUnique {A} (T : Table A) (same : A -> A -> bool)
    (fk : A -> Db -> bool) (mkRow : Id -> A) : Handler A :=
  fun db =>
    if existsb (same (mkRow (nextId db))) (prisma.all T db)
    then (Throw (PrismaError "P2002"), db)
    else createChecked T fk mkRow db.

(** [delete({where: <unique fields>})]: P2025 when [key] selects no row. *)
Definition deleteBy {A} (T : Table A) (key : A -> bool) : Handler A :=
  fun db =>
    match head (List.filter (fun kv => key kv.2) (map_to_list (rd T db))) with
    | None => (Throw (PrismaError "P2025"), db)
    | Some (k, row) => (Ok row, wr T (base.delete k (rd T db)) db)
    end.

(** [createMany({data, skipDuplicates: true})]: one insert statement;
    a row that is [same] as a stored row or as an earlier row of the
    batch is skipped, a row whose foreign key is dangling fails the
    statement (P2003) and nothing is inserted.  The result is the number
    of rows inserted. *)
Fixpoint insertMany {A} (T : Table A) (same : A -> A -> bool)
    (rows : list (Id -> A)) (db : Db) : nat * Db :=
  match rows with
  | [] => (0%nat, db)
  | mkRow :: rows' =>
    if existsb (same (mkRow (nextId db))) (prisma.all T db)
    then insertMany T same rows' db
    else
      let '(_, db1) := prisma.create T mkRow db in
      let '(n, db2) := insertMany T same rows' db1 in
      (S n, db2)
  end.

Definition createMany {A} (T : Table A) (same : A -> A -> bool)
    (fk : A -> Db -> bool) (rows : list (Id -> A)) : Handler nat :=
  fun db =>
    if forallb (fun mkRow => fk (mkRow (nextId db)) db) rows
    then let '(n, db') := insertMany T same rows db in (Ok n, db')
    else (Throw (PrismaError "P2003"), db).

Definition noUnique {A} (a b : A) : bool := false.
Definition noFk {A} (a : A) (db : Db) : bool := true.

(** ** Inputs *)

Module CreateTransactionInput.
(** The input as the resolver receives it, [fees] defaulted to 0. *)
Record t := mk {
  positionId : Id; type : TransactionType; date : Date;
  quantity : Z; price : Q; fees : Q;
  executionTime : option Date; brokerRef : option string;
  orderType : option string; notes : option string }.
End CreateTransactionInput.

(** [CreateTransactionSchema] of [types/index.ts]: [quantity] an integer
    and positive, [price] positive, [fees] nonnegative. *)
Definition CreateTransactionSchema (i : CreateTransactionInput.t) : bool :=
  (0 <? CreateTransactionInput.quantity i)
  && Qpositive (CreateTransactionInput.price i)
  && Qnonnegative (CreateTransactionInput.fees i).

Module TransactionSummaryInput.
Record t := mk {
  userId : option Id; positionId : option Id;
  startDate : option Date; endDate : option Date }.
End TransactionSummaryInput.

Module OpenPosition.
(** An entry of [openSummary.positions]. *)
Record t := mk {
  id : Id; stock : option Stock.t; quantity : Z; entryPrice : Q;
  capitalAllocated : Q; openDate : Date }.
End OpenPosition.

Module OpenSummary.
(** [totalInvested] and [totalValue] are numbers, sums of
    [Number(...)]. *)
Record t := mk {
  totalPositions : nat; totalInvested : float; totalValue : float;
  positions : list OpenPosition.t }.
End OpenSummary.

Module TypeSummary.
(** An entry of [getSummary.byType]. *)
Record t := mk {
  type : TransactionType; count : nat; totalValue : Q; totalFees : Q }.
End TypeSummary.

Module TransactionSummary.
Record t := mk {
  totalTransactions : nat; totalVolume : Q; totalFees : Q; totalShares : Z;
  byType : list TypeSummary.t;
  recentTransactions : list Transaction.t }.
End TransactionSummary.

(** [{...input, totalValue}] written to the transactions. *)
Definition transactionOfInput (input : CreateTransactionInput.t)
    (totalValue : Q) (id : Id) : Transaction.t :=
  {| Transaction.id := id;
     Transaction.positionId := CreateTransactionInput.positionId input;
     Transaction.type := CreateTransactionInput.type input;
     Transaction.date := CreateTransactionInput.date input;
     Transaction.quantity := CreateTransactionInput.quantity input;
     Transaction.price := CreateTransactionInput.price input;
     Transaction.totalValue := totalValue;
     Transaction.fees := CreateTransactionInput.fees input;
     Transaction.executionTime := CreateTransactionInput.executionTime input;
     Transaction.brokerRef := CreateTransactionInput.brokerRef input;
     Transaction.orderType := CreateTransactionInput.orderType input;
     Transaction.notes := CreateTransactionInput.notes input |}.

Definition allTransactionTypes : list TransactionType :=
  [BUY; SELL; DIVIDEND; SPLIT; BONUS].

(** [groupBy({by: ['type'], _count, _sum: {totalValue, fees}})]: one
    group for each type that has a row. *)
Definition groupByType (rows : list Transaction.t) : list TypeSummary.t :=
  flat_map (fun ty =>
    let group := List.filter (fun t => TransactionType_eqb (Transaction.type t) ty) rows in
    match group with
    | [] => []
    | _ :: _ =>
      [TypeSummary.mk ty (length group)
         (sumBy Transaction.totalValue group) (sumBy Transaction.fees group)]
    end) allTransactionTypes.

(** Inputs and keys of the watchlist procedures *)

Module CreateWatchlistInput.
Record t := mk {
  userId : Id; stockId : Id; name : option string;
  notes : option string; targetPrice : option Q }.
End CreateWatchlistInput.

Module UpdateWatchlistInput.
Record t := mk {
  id : Id; name : option string; notes : option string;
  targetPrice : option Q }.
End UpdateWatchlistInput.

Module BulkAddInput.
Record t := mk { userId : Id; stockIds : list Id; notes : option string }.
End BulkAddInput.

Module WatchlistSummary.
Record t := mk {
  totalItems : nat; itemsWithAlerts : nat; recentItems : list Watchlist.t }.
End WatchlistSummary.

(** The compound unique key [userId_stockId] that [isWatched] and
    [removeByStock] look rows up by. *)
Definition watchKey (userId stockId : Id) (w : Watchlist.t) : bool :=
  N.eqb (Watchlist.userId w) userId && N.eqb (Watchlist.stockId w) stockId.

Definition sameWatch (a b : Watchlist.t) : bool :=
  watchKey (Watchlist.userId a) (Watchlist.stockId a) b.

(** The inline schema of [watchlist.update]. *)
Definition UpdateWatchlistSchema (i : UpdateWatchlistInput.t) : bool :=
  optAll Qpositive (UpdateWatchlistInput.targetPrice i).

(** Inputs and keys of the price history procedures *)

Module PriceHistoryInput.
Record t := mk {
  stockId : Id; date : Date;
  open : Q; high : Q; low : Q; close : Q; volume : option Q }.
End PriceHistoryInput.

Module PriceBar.
(** An element of [addBulkPriceHistory.data]. *)
Record t := mk {
  date : Date; open : Q; high : Q; low : Q; close : Q; volume : option Q }.
End PriceBar.

Module GetPriceHistoryInput.
Record t := mk {
  stockId : Id; startDate : option Date; endDate : option Date; limit : nat }.
End GetPriceHistoryInput.

(** The compound unique key [stockId_date]. *)
Definition priceKey (stockId : Id) (date : Date) (h : PriceHistory.t) : bool :=
  N.eqb (PriceHistory.stockId h) stockId && (PriceHistory.date h =? date).

Definition samePrice (a b : PriceHistory.t) : bool :=
  priceKey (PriceHistory.stockId a) (PriceHistory.date a) b.

(** A price row belongs to a stock (the source relies on the cascade of
    this relation when it deletes a stock). *)
Definition price_fk (h : PriceHistory.t) (db : Db) : bool :=
  hasRow (stocks db) (PriceHistory.stockId h).

Definition priceOfInput (input : PriceHistoryInput.t) (id : Id) : PriceHistory.t :=
  PriceHistory.mk id (PriceHistoryInput.stockId input) (PriceHistoryInput.date input)
    (PriceHistoryInput.open input) (PriceHistoryInput.high input)
    (PriceHistoryInput.low input) (PriceHistoryInput.close input)
    (PriceHistoryInput.volume input).

(** The [update] branch of the upsert. *)
Definition priceUpdateData (input : PriceHistoryInput.t) (h : PriceHistory.t)
    : PriceHistory.t :=
  PriceHistory.mk (PriceHistory.id h) (PriceHistory.stockId h) (PriceHistory.date h)
    (PriceHistoryInput.open input) (PriceHistoryInput.high input)
    (PriceHistoryInput.low input) (PriceHistoryInput.close input)
    (setOpt (PriceHistoryInput.volume input) (PriceHistory.volume h)).

(** The inline schema of [addBulkPriceHistory]. *)
Definition PriceBarSchema (b : PriceBar.t) : bool :=
  Qpositive (PriceBar.open b) && Qpositive (PriceBar.high b)
  && Qpositive (PriceBar.low b) && Qpositive (PriceBar.close b)
  && optAll Qnonnegative (PriceBar.volume b).

(** Inputs and results of the exchange and stock lookups *)

(** [String.prototype.toUpperCase] on the letters a to z. *)
Definition toUpper (c : ascii) : ascii :=
  let n := nat_of_ascii c in
  if (97 <=? n)%nat && (n <=? 122)%nat then ascii_of_nat (n - 32) else c.

Fixpoint upper (s : string) : string :=
  match s with
  | EmptyString => EmptyString
  | String c s' => String (toUpper c) (upper s')
  end.

Module StockCount.
(** A stock included with [_count: { positions }]. *)
Record t := mk { stock : Stock.t; positions : nat }.
End StockCount.

Module TopStock.
Record t := mk { id : Id; symbol : string; name : string; positionCount : nat }.
End TopStock.

Module ExchangeStats.
Record t := mk {
  totalStocks : nat; activeStocks : nat; totalPositions : nat;
  sectors : list string; topStocks : list TopStock.t }.
End ExchangeStats.

Module ExchangeWithStats.
(** [{ exchange, stats }]; [stocks] is [exchange.stocks] as the resolver
    leaves it: [Array.prototype.sort] orders the included array in
    place, after the other statistics were computed from it. *)
Record t := mk {
  exchange : Exchange.t; stocks : list StockCount.t; stats : ExchangeStats.t }.
End ExchangeWithStats.

(** [[...new Set(xs)]]: the first occurrence of each element, in order. *)
Fixpoint distinct (seen : list string) (xs : list string) : list string :=
  match xs with
  | [] => []
  | x :: xs' =>
    if existsb (String.eqb x) seen then distinct seen xs'
    else x :: distinct (x :: seen) xs'
  end.

(** [xs.map(s => s.sector).filter(Boolean)]: null and the empty string
    are dropped. *)
Fixpoint truthySectors (xs : list StockCount.t) : list string :=
  match xs with
  | [] => []
  | x :: xs' =>
    match Stock.sector (StockCount.stock x) with
    | Some s => if nonEmpty s then s :: truthySectors xs' else truthySectors xs'
    | None => truthySectors xs'
    end
  end.

Module StockWithExchange.
(** A stock included with [exchange: true]. *)
Record t := mk { stock : Stock.t; exchange : option Exchange.t }.
End StockWithExchange.

(** Inputs of the REST users handlers *)

Module CreateUserBody.
Record t := mk { email : string; name : option string }.
End CreateUserBody.

Module UpdateUserBody.
Record t := mk { email : option string; name : option string }.
End UpdateUserBody.

Module UserWithCount.
(** A user included with [_count: { positions }]. *)
Record t := mk { user : User.t; positions : nat }.
End UserWithCount.

Definition withPositionCount (db : Db) (u : User.t) : UserWithCount.t :=
  UserWithCount.mk u
    (length (List.filter (fun p => N.eqb (Position.userId p) (User.id u))
               (prisma.all positionT db))).

Definition sameEmail (a b : User.t) : bool :=
  String.eqb (User.email a) (User.email b).

(** [update] on a model with a unique constraint: P2025 when no row has
    the id, P2002 when another stored row is [same] as the updated
    one. *)
Definition updateUnique {A} (T : Table A) (same : A -> A -> bool)
    (id : Id) (data : A -> A) : Handler A :=
  fun db =>
    match rd T db !! id with
    | None => (Throw (PrismaError "P2025"), db)
    | Some row =>
      if existsb (same (data row))
                 (map_to_list (base.delete id (rd T db))).*2
      then (Throw (PrismaError "P2002"), db)
      else (Ok (data row), wr T (<[id := data row]> (rd T db)) db)
    end.


Module appRouter.

(** *** position *)
Module position.

Definition getById (id : Id) : Handler Position.t :=
  let* position := prisma.findUnique positionT id in
  match position with
  | None => throw (JsError "Position not found")
  | Some position => ret position
  end.

Definition openSummary (userId : Id) : Handler OpenSummary.t :=
  let* positions :=
    prisma.findMany positionT (byUserStatus userId OPEN) anyOrder 0 None in
  let* db := get in
  ret (OpenSummary.mk
         (length positions)
         (fold_left (fun sum p => (sum + Number (Position.capitalAllocated p))%float)
                    positions 0%float)
         (fold_left (fun sum p => (sum + Number (Position.totalBuyValue p))%float)
                    positions 0%float)
         (map (fun p =>
                 OpenPosition.mk (Position.id p)
                   (stocks db !! Position.stockId p)
                   (Position.quantity p) (Position.entryPrice p)
                   (Position.capitalAllocated p) (Position.openDate p))
              positions)).

End position.

(** *** transaction *)
Module transaction.

Definition create : CreateTransactionInput.t -> Handler Transaction.t :=
  procedure CreateTransactionSchema (fun input =>
    let quantity := CreateTransactionInput.quantity input in
    let price := CreateTransactionInput.price input in
    let totalValue := (int quantity * Number price)%float in
    let* storedTotalValue := decimal totalValue in
    let* transaction :=
      createChecked transactionT transaction_fk
        (transactionOfInput input storedTotalValue) in
    ret transaction).

Definition getById (id : Id) : Handler Transaction.t :=
  let* transaction := prisma.findUnique transactionT id in
  match transaction with
  | None => throw (JsError "Transaction not found")
  | Some transaction => ret transaction
  end.

Definition getByPosition (positionId : Id) : Handler (list Transaction.t) :=
  prisma.findMany transactionT
    (fun t => N.eqb (Transaction.positionId t) positionId)
    (fun a b => Transaction.date a <=? Transaction.date b)
    0 None.

Definition summaryWhere (db : Db) (input : TransactionSummaryInput.t)
    (t : Transaction.t) : bool :=
  N_eqb_opt (TransactionSummaryInput.positionId input) (Transaction.positionId t)
  && match TransactionSummaryInput.userId input with
     | Some u => transactionRouter.ownedBy db u t
     | None => true
     end
  && match TransactionSummaryInput.startDate input with
     | Some d => d <=? Transaction.date t
     | None => true
     end
  && match TransactionSummaryInput.endDate input with
     | Some d => Transaction.date t <=? d
     | None => true
     end.

Definition getSummary (input : TransactionSummaryInput.t)
    : Handler TransactionSummary.t :=
  let* db := get in
  let where_ := summaryWhere db input in
  let* matching := prisma.findMany transactionT where_ anyOrder 0 None in
  let transactionCounts := groupByType matching in
  let* recentTransactions :=
    prisma.findMany transactionT where_
      (fun a b => Transaction.date b <=? Transaction.date a) 0 (Some 10%nat) in
  ret (TransactionSummary.mk
         (length matching)
         (sumBy Transaction.totalValue matching)
         (sumBy Transaction.fees matching)
         (fold_left (fun sum t => sum + Transaction.quantity t) matching 0)
         transactionCounts
         recentTransactions).

Definition delete (id : Id) : Handler bool :=
  let* _ := prisma.delete transactionT id in
  ret true.

Definition createBulk (transactions : list CreateTransactionInput.t)
    : Handler nat :=
  procedure (forallb CreateTransactionSchema) (fun transactions =>
    let transactionsWithTotalValue :=
      map (fun t =>
             (t, (int (CreateTransactionInput.quantity t)
                  * Number (CreateTransactionInput.price t))%float))
          transactions in
    let* data :=
      mapM (fun row =>
              let* storedTotalValue := decimal (snd row) in
              ret (transactionOfInput (fst row) storedTotalValue))
           transactionsWithTotalValue in
    let* created := createMany transactionT noUnique transaction_fk data in
    ret created) transactions.

End transaction.

(** *** watchlist *)
Module watchlist.

Section WatchlistWrites.
(** [add] is written for any schema, [CreateWatchlistSchema] of
    [types/index.ts] being the one of the source; [now] is the time the
    store gives to [createdAt]. *)
Variable CreateWatchlistSchema : CreateWatchlistInput.t -> bool.
Variable now : Date.

Definition add : CreateWatchlistInput.t -> Handler Watchlist.t :=
  procedure CreateWatchlistSchema (fun input =>
    let* watchlistItem :=
      createUnique watchlistT sameWatch noFk (fun id =>
        Watchlist.mk id
          (CreateWatchlistInput.userId input) (CreateWatchlistInput.stockId input)
          (CreateWatchlistInput.name input) (CreateWatchlistInput.notes input)
          (CreateWatchlistInput.targetPrice input) now) in
    ret watchlistItem).

Definition bulkAdd (input : BulkAddInput.t) : Handler nat :=
  let userId := BulkAddInput.userId input in
  let stockIds := BulkAddInput.stockIds input in
  let notes := BulkAddInput.notes input in
  let data :=
    map (fun stockId id => Watchlist.mk id userId stockId None notes None now)
        stockIds in
  let* result := createMany watchlistT sameWatch noFk data in
  ret result.

End WatchlistWrites.

Definition updateData (input : UpdateWatchlistInput.t)
    (w : Watchlist.t) : Watchlist.t :=
  Watchlist.mk (Watchlist.id w) (Watchlist.userId w) (Watchlist.stockId w)
    (setOpt (UpdateWatchlistInput.name input) (Watchlist.name w))
    (setOpt (UpdateWatchlistInput.notes input) (Watchlist.notes w))
    (setOpt (UpdateWatchlistInput.targetPrice input) (Watchlist.targetPrice w))
    (Watchlist.createdAt w).

Definition update : UpdateWatchlistInput.t -> Handler Watchlist.t :=
  procedure UpdateWatchlistSchema (fun input =>
    let* watchlistItem :=
      prisma.update watchlistT (UpdateWatchlistInput.id input)
        (updateData input) in
    ret watchlistItem).

Definition remove (id : Id) : Handler bool :=
  let* _ := prisma.delete watchlistT id in
  ret true.

Definition removeByStock (userId stockId : Id) : Handler bool :=
  let* _ := deleteBy watchlistT (watchKey userId stockId) in
  ret true.

Definition isWatched (userId stockId : Id)
    : Handler (bool * option Watchlist.t) :=
  let* watchlistItem := findUniqueBy watchlistT (watchKey userId stockId) in
  ret (isSome watchlistItem, watchlistItem).

Definition getSummary (userId : Id) : Handler WatchlistSummary.t :=
  let* totalItems :=
    prisma.count watchlistT (fun w => N.eqb (Watchlist.userId w) userId) in
  let* itemsWithAlerts :=
    prisma.count watchlistT
      (fun w => N.eqb (Watchlist.userId w) userId
                && isSome (Watchlist.targetPrice w)) in
  let* recentItems :=
    prisma.findMany watchlistT (fun w => N.eqb (Watchlist.userId w) userId)
      (fun a b => Watchlist.createdAt b <=? Watchlist.createdAt a)
      0 (Some 5%nat) in
  ret (WatchlistSummary.mk totalItems itemsWithAlerts recentItems).

End watchlist.

(** *** stock *)
Module stock.

Section PriceHistoryWrites.
(** [addPriceHistory] and [getPriceHistory] are written for any schema,
    [PriceHistorySchema] and [GetPriceHistorySchema] of [types/index.ts]
    being those of the source. *)
Variable PriceHistorySchema : PriceHistoryInput.t -> bool.
Variable GetPriceHistorySchema : GetPriceHistoryInput.t -> bool.

(** [priceHistory.upsert({where: {stockId_date}, update, create})] *)
Definition addPriceHistory : PriceHistoryInput.t -> Handler PriceHistory.t :=
  procedure PriceHistorySchema (fun input =>
    let* existing :=
      findUniqueBy priceHistoryT
        (priceKey (PriceHistoryInput.stockId input) (PriceHistoryInput.date input)) in
    match existing with
    | Some row =>
        prisma.update priceHistoryT (PriceHistory.id row) (priceUpdateData input)
    | None => createChecked priceHistoryT price_fk (priceOfInput input)
    end).

Definition getPriceHistory
    : GetPriceHistoryInput.t -> Handler (list PriceHistory.t) :=
  procedure GetPriceHistorySchema (fun input =>
    prisma.findMany priceHistoryT
      (fun h =>
         N.eqb (PriceHistory.stockId h) (GetPriceHistoryInput.stockId input)
         && match GetPriceHistoryInput.startDate input with
            | Some d => d <=? PriceHistory.date h
            | None => true
            end
         && match GetPriceHistoryInput.endDate input with
            | Some d => PriceHistory.date h <=? d
            | None => true
            end)
      (fun a b => PriceHistory.date b <=? PriceHistory.date a)
      0 (Some (GetPriceHistoryInput.limit input))).

End PriceHistoryWrites.

Definition addBulkPriceHistory (stockId : Id) (data : list PriceBar.t)
    : Handler nat :=
  procedure (forallb PriceBarSchema) (fun data =>
    let priceHistoryData :=
      map (fun item id =>
             PriceHistory.mk id stockId (PriceBar.date item) (PriceBar.open item)
               (PriceBar.high item) (PriceBar.low item) (PriceBar.close item)
               (PriceBar.volume item)) data in
    let* result := createMany priceHistoryT samePrice price_fk priceHistoryData in
    ret result) data.

Definition getLatestPrice (stockId : Id) : Handler (option PriceHistory.t) :=
  prisma.findFirst priceHistoryT
    (fun h => N.eqb (PriceHistory.stockId h) stockId)
    (fun a b => PriceHistory.date b <=? PriceHistory.date a).

Definition getBySymbol (symbol : string) (exchangeCode : option string)
    : Handler StockWithExchange.t :=
  let* db := get in
  let* stock :=
    prisma.findFirst stockT
      (fun s =>
         String.eqb (Stock.symbol s) (upper symbol)
         && (if truthy exchangeCode
             then match exchangeCode, exchanges db !! Stock.exchangeId s with
                  | Some code, Some e => String.eqb (Exchange.code e) code
                  | _, _ => false
                  end
             else true))
      anyOrder in
  match stock with
  | None => throw (JsError "Stock not found")
  | Some stock =>
      ret (StockWithExchange.mk stock (exchanges db !! Stock.exchangeId stock))
  end.

End stock.

(** *** exchange *)
Module exchange.

Definition getByCode (code : string) : Handler Exchange.t :=
  let* exchange :=
    findUniqueBy exchangeT (fun e => String.eqb (Exchange.code e) (upper code)) in
  match exchange with
  | None => throw (JsError "Exchange not found")
  | Some exchange => ret exchange
  end.

Definition getStats (id : Id) : Handler ExchangeWithStats.t :=
  let* exchange := prisma.findUnique exchangeT id in
  let* db := get in
  match exchange with
  | None => throw (JsError "Exchange not found")
  | Some exchange =>
    let stocks :=
      map (fun s =>
             StockCount.mk s
               (length (List.filter (fun p => N.eqb (Position.stockId p) (Stock.id s))
                          (prisma.all positionT db))))
          (List.filter (fun s => N.eqb (Stock.exchangeId s) id)
             (prisma.all stockT db)) in
    let totalStocks := length stocks in
    let activeStocks :=
      length (List.filter (fun s => Stock.isActive (StockCount.stock s)) stocks) in
    let totalPositions :=
      fold_left (fun sum stock => (sum + StockCount.positions stock)%nat) stocks 0%nat in
    let sectors := distinct [] (truthySectors stocks) in
    let sorted :=
      sortBy (fun a b => (StockCount.positions b <=? StockCount.positions a)%nat)
             stocks in
    let topStocks :=
      map (fun s =>
             TopStock.mk (Stock.id (StockCount.stock s))
               (Stock.symbol (StockCount.stock s)) (Stock.name (StockCount.stock s))
               (StockCount.positions s))
          (firstn 10 sorted) in
    ret (ExchangeWithStats.mk exchange sorted
           (ExchangeStats.mk totalStocks activeStocks totalPositions sectors topStocks))
  end.

End exchange.

End appRouter.

(** ** controllers/users.ts and controllers/exchanges.ts, the remaining
    handlers *)

Module controllers.

Module users.
Section Validation.
(** [isEmail] and [trim] of express-validator are parameters; a
    sanitizer replaces the field of the request body.  [now] is the time
    the store gives to [createdAt] and [updatedAt]. *)
Variable isEmail : string -> bool.
Variable trim : string -> string.
Variable now : Date.

(** [createUserValidation] *)
Definition createUserValidation (body : CreateUserBody.t) : bool :=
  isEmail (CreateUserBody.email body)
  && optAll (fun n => (1 <=? String.length (trim n))%nat) (CreateUserBody.name body).

(** [updateUserValidation] *)
Definition updateUserValidation (body : UpdateUserBody.t) : bool :=
  optAll isEmail (UpdateUserBody.email body)
  && optAll (fun n => (1 <=? String.length (trim n))%nat) (UpdateUserBody.name body).

Definition create (body : CreateUserBody.t) : Db -> Response User.t * Db :=
  asyncHandler (validated (createUserValidation body) (
    let email := CreateUserBody.email body in
    let name := option_map trim (CreateUserBody.name body) in
    let* user :=
      createUnique userT sameEmail noFk (fun id => User.mk id email name now now) in
    ret (mkResponse 201 (Some true) (Some user) None None))).

Definition getById (id : Id) : Db -> Response UserWithCount.t * Db :=
  asyncHandler (
    let* user := prisma.findUnique userT id in
    let* db := get in
    match user with
    | None => ret (mkResponse 404 (Some false) None (Some "User not found") None)
    | Some user => ret (okJson (withPositionCount db user))
    end).

Definition getByEmail (email : string) : Db -> Response UserWithCount.t * Db :=
  asyncHandler (
    let* user := findUniqueBy userT (fun u => String.eqb (User.email u) email) in
    let* db := get in
    match user with
    | None => ret (mkResponse 404 (Some false) None (Some "User not found") None)
    | Some user => ret (okJson (withPositionCount db user))
    end).

(** [if (email) updateData.email = email;
     if (name !== undefined) updateData.name = name] *)
Definition updateData (body : UpdateUserBody.t) (u : User.t) : User.t :=
  User.mk (User.id u)
    (match UpdateUserBody.email body with
     | Some e => if nonEmpty e then e else User.email u
     | None => User.email u
     end)
    (setOpt (option_map trim (UpdateUserBody.name body)) (User.name u))
    (User.createdAt u) now.

Definition update (id : Id) (body : UpdateUserBody.t) : Db -> Response User.t * Db :=
  asyncHandler (validated (updateUserValidation body) (
    let* user := updateUnique userT sameEmail id (updateData body) in
    ret (okJson user))).

End Validation.
End users.

Module exchanges.

Definition getByCode (code : string) : Db -> Response Exchange.t * Db :=
  asyncHandler (
    let* exchange :=
      findUniqueBy exchangeT (fun e => String.eqb (Exchange.code e) (upper code)) in
    match exchange with
    | None => ret (mkResponse 404 (Some false) None (Some "Exchange not found") None)
    | Some exchange => ret (okJson exchange)
    end).

End exchanges.

End controllers.
(** * Vocabulary of the properties *)

(** Well-formed stores: primary keys are the rows' identifiers, every key
    was drawn from the counter, and the position of a transaction
    exists. *)
Record wf (db : Db) : Prop := mkWf {
  wf_positions :
    map_Forall (fun i p => Position.id p = i /\ (i < nextId db)%N) (positions db);
  wf_transactions :
    map_Forall (fun i t => Transaction.id t = i /\ (i < nextId db)%N
                           /\ is_Some (positions db !! Transaction.positionId t))
               (transactions db) }.

(** A store used to run the handlers on concrete inputs: one user, one
    exchange with one stock, one open position of 10 shares bought at 100
    with fees of 5, and its BUY transaction. *)
Module Example.
Definition alice : User.t := User.mk 1 "alice@example.com" None 0 0.
Definition nyse : Exchange.t :=
  Exchange.mk 3 "NYSE" "New York" "US" "America/New_York" "USD" true.
Definition acme : Stock.t :=
  Stock.mk 2 "ACME" "Acme Corp" (Some "Tech") None None 3 true.
Definition pos : Position.t :=
  {| Position.id := 10; Position.userId := 1; Position.stockId := 2;
     Position.status := OPEN; Position.positionType := LONG;
     Position.openDate := 1000; Position.entryPrice := 100;
     Position.quantity := 10; Position.buyFees := 5;
     Position.totalBuyValue := 1000; Position.capitalAllocated := 1005;
     Position.closeDate := None; Position.exitPrice := None;
     Position.totalSellValue := None; Position.sellFees := None;
     Position.realizedPnL := None; Position.returnPercentage := None;
     Position.stopLossPrice := None; Position.takeProfitPrice := None;
     Position.riskAmount := None; Position.riskPercentage := None;
     Position.openReason := "breakout"; Position.strategy := None;
     Position.setupType := None; Position.timeframe := None;
     Position.tags := []; Position.notes := None;
     Position.tradeGrade := None; Position.lessonsLearned := None |}.
Definition buy : Transaction.t :=
  {| Transaction.id := 11; Transaction.positionId := 10;
     Transaction.type := BUY; Transaction.date := 1000;
     Transaction.quantity := 10; Transaction.price := 100;
     Transaction.totalValue := 1000; Transaction.fees := 5;
     Transaction.executionTime := None; Transaction.brokerRef := None;
     Transaction.orderType := None; Transaction.notes := None |}.
(** the store before the position is opened *)
Definition db0 : Db :=
  mkDb {[1%N := alice]} {[3%N := nyse]} {[2%N := acme]} ∅ ∅ ∅ ∅ 10.
(** the store with the open position *)
Definition db1 : Db :=
  mkDb {[1%N := alice]} {[3%N := nyse]} {[2%N := acme]} ∅
       {[10%N := pos]} {[11%N := buy]} ∅ 12.
Definition createInput : CreatePositionInput.t :=
  CreatePositionInput.mk 1 2 1000 100 10 LONG 5 "breakout"
    None None None None None None None [] None.
Definition closeInput : ClosePositionInput.t :=
  ClosePositionInput.mk 10 2000 120 3 None None.
(** [createInput] with a stop loss of -5 *)
Definition negativeStopLossInput : CreatePositionInput.t :=
  CreatePositionInput.mk 1 2 1000 100 10 LONG 5 "breakout"
    (Some (-5)%Q) None None None None None None [] None.
(** an update of the BUY transaction that provides a quantity and every
    other field but the price *)
Definition updateInput : UpdateTransactionInput.t :=
  UpdateTransactionInput.mk 11 (Some 1500) (Some 20) None (Some 7%Q)
    (Some 1501) (Some "REF-1") (Some "LIMIT") (Some "resized").
(** an update that provides a broker reference and notes only *)
Definition notesInput : UpdateTransactionInput.t :=
  UpdateTransactionInput.mk 11 None None None None
    None (Some "REF-2") None (Some "checked").
End Example.

(** The SELL transaction written by a close of [p], [totalSellValue]
    being the decimal stored for the total. *)
Definition sellTransaction (id : Id) (p : Position.t)
    (input : ClosePositionInput.t) (totalSellValue : Q) : Transaction.t :=
  {| Transaction.id := id;
     Transaction.positionId := ClosePositionInput.positionId input;
     Transaction.type := SELL;
     Transaction.date := ClosePositionInput.closeDate input;
     Transaction.quantity := Position.quantity p;
     Transaction.price := ClosePositionInput.exitPrice input;
     Transaction.totalValue := totalSellValue;
     Transaction.fees := ClosePositionInput.sellFees input;
     Transaction.executionTime := None;
     Transaction.brokerRef := None;
     Transaction.orderType := None;
     Transaction.notes := None |}.

(** the store after the example position has been closed *)
Definition closedDb : Db :=
  snd (positionRouter.close Example.closeInput Example.db1).

(** The position row and the BUY transaction written by [create],
    [totalBuyValue] and [capitalAllocated] being the decimals stored for
    the two numbers. *)
Definition openedPosition (id : Id) (input : CreatePositionInput.t)
    (totalBuyValue capitalAllocated : Q) : Position.t :=
  {| Position.id := id;
     Position.userId := CreatePositionInput.userId input;
     Position.stockId := CreatePositionInput.stockId input;
     Position.status := OPEN;
     Position.positionType := CreatePositionInput.positionType input;
     Position.openDate := CreatePositionInput.openDate input;
     Position.entryPrice := CreatePositionInput.entryPrice input;
     Position.quantity := CreatePositionInput.quantity input;
     Position.buyFees := CreatePositionInput.buyFees input;
     Position.totalBuyValue := totalBuyValue;
     Position.capitalAllocated := capitalAllocated;
     Position.closeDate := None;
     Position.exitPrice := None;
     Position.totalSellValue := None;
     Position.sellFees := None;
     Position.realizedPnL := None;
     Position.returnPercentage := None;
     Position.stopLossPrice := CreatePositionInput.stopLossPrice input;
     Position.takeProfitPrice := CreatePositionInput.takeProfitPrice input;
     Position.riskAmount := CreatePositionInput.riskAmount input;
     Position.riskPercentage := CreatePositionInput.riskPercentage input;
     Position.openReason := CreatePositionInput.openReason input;
     Position.strategy := CreatePositionInput.strategy input;
     Position.setupType := CreatePositionInput.setupType input;
     Position.timeframe := CreatePositionInput.timeframe input;
     Position.tags := CreatePositionInput.tags input;
     Position.notes := CreatePositionInput.notes input;
     Position.tradeGrade := None;
     Position.lessonsLearned := None |}.

Definition buyTransaction (id positionId : Id) (input : CreatePositionInput.t)
    (totalBuyValue : Q) : Transaction.t :=
  {| Transaction.id := id;
     Transaction.positionId := positionId;
     Transaction.type := BUY;
     Transaction.date := CreatePositionInput.openDate input;
     Transaction.quantity := CreatePositionInput.quantity input;
     Transaction.price := CreatePositionInput.entryPrice input;
     Transaction.totalValue := totalBuyValue;
     Transaction.fees := CreatePositionInput.buyFees input;
     Transaction.executionTime := None;
     Transaction.brokerRef := None;
     Transaction.orderType := None;
     Transaction.notes := None |}.

(** The operations of the position router, as a caller can issue them. *)
Inductive PositionOp :=
| OpCreate (input : CreatePositionInput.t)
| OpClose (input : ClosePositionInput.t)
| OpUpdate (input : UpdatePositionInput.t)
| OpDelete (id : Id).

(** The store after an operation, whether it returned or threw. *)
Definition perform (op : PositionOp) (db : Db) : Db :=
  match op with
  | OpCreate input => snd (positionRouter.create input db)
  | OpClose input => snd (positionRouter.close input db)
  | OpUpdate input => snd (positionRouter.update input db)
  | OpDelete id => snd (positionRouter.delete id db)
  end.

Definition run (ops : list PositionOp) (db : Db) : Db :=
  fold_left (fun db op => perform op db) ops db.

Definition statusOf (db : Db) (id : Id) : option PositionStatus :=
  Position.status <$> positions db !! id.

(** The number of steps of a run at which position [id] goes from OPEN
    to CLOSED. *)
Fixpoint closings (id : Id) (ops : list PositionOp) (db : Db) : nat :=
  match ops with
  | [] => 0
  | op :: ops' =>
    let db' := perform op db in
    ((if decide (statusOf db id = Some OPEN /\ statusOf db' id = Some CLOSED)
      then 1 else 0) + closings id ops' db')%nat
  end.

Definition hasTransaction (db : Db) (id : Id) : Prop :=
  exists k t, transactions db !! k = Some t /\ Transaction.positionId t = id.

(** What one operation can do to the store. *)
Inductive effect (db : Db) : Db -> Prop :=
| eff_none : effect db db
| eff_create (p : Position.t) (t : Transaction.t) :
    Position.id p = nextId db -> Position.status p = OPEN ->
    Transaction.id t = N.succ (nextId db) ->
    Transaction.positionId t = nextId db ->
    effect db
      (mkDb (users db) (exchanges db) (stocks db) (priceHistory db)
            (<[nextId db := p]> (positions db))
            (<[N.succ (nextId db) := t]> (transactions db))
            (watchlist db) (N.succ (N.succ (nextId db))))
| eff_close (i : Id) (p p' : Position.t) (t : Transaction.t) :
    positions db !! i = Some p -> Position.status p = OPEN ->
    Position.id p' = Position.id p -> Position.status p' = CLOSED ->
    Transaction.id t = nextId db -> Transaction.positionId t = i ->
    effect db
      (mkDb (users db) (exchanges db) (stocks db) (priceHistory db)
            (<[i := p']> (positions db))
            (<[nextId db := t]> (transactions db))
            (watchlist db) (N.succ (nextId db)))
| eff_update (i : Id) (p p' : Position.t) :
    positions db !! i = Some p ->
    Position.id p' = Position.id p -> Position.status p' = Position.status p ->
    effect db
      (mkDb (users db) (exchanges db) (stocks db) (priceHistory db)
            (<[i := p']> (positions db)) (transactions db)
            (watchlist db) (nextId db))
| eff_delete (i : Id) :
    (forall k t, transactions db !! k = Some t -> Transaction.positionId t <> i) ->
    effect db
      (mkDb (users db) (exchanges db) (stocks db) (priceHistory db)
            (base.delete i (positions db)) (transactions db)
            (watchlist db) (nextId db)).

(** [id] has been issued and its position is not OPEN. *)
Definition settled (db : Db) (id : Id) : Prop :=
  (id < nextId db)%N /\ statusOf db id <> Some OPEN.

(** [id] has been issued and its position is gone. *)
Definition gone (db : Db) (id : Id) : Prop :=
  (id < nextId db)%N /\ positions db !! id = None.

(** Table [T] holds a row whose foreign key [fk] is [id]: the entity
    [id] owns a dependent row. *)
Definition owns {A} (T : Table A) (fk : A -> Id) (db : Db) (id : Id) : Prop :=
  exists k x, rd T db !! k = Some x /\ fk x = id.

(** [l] is the most recent price row of stock [s]: a row of the stock
    such that no row of the stock has a later date. *)
Definition mostRecent (db : Db) (s : Id) (l : PriceHistory.t) : Prop :=
  (exists k, priceHistory db !! k = Some l)
  /\ PriceHistory.stockId l = s
  /\ forall k' l', priceHistory db !! k' = Some l' ->
                   PriceHistory.stockId l' = s ->
                   PriceHistory.date l' <= PriceHistory.date l.

(** The unique constraint of PriceHistory on (stockId, date): two rows
    with the same stock and date are one row. *)
Definition priceHistoryUnique (db : Db) : Prop :=
  map_Forall (fun k1 l1 =>
    map_Forall (fun k2 l2 =>
      PriceHistory.stockId l1 = PriceHistory.stockId l2 ->
      PriceHistory.date l1 = PriceHistory.date l2 -> k1 = k2)
      (priceHistory db))
    (priceHistory db).

(** What [getPriceAlerts] attaches to a watchlist row. *)
Definition alertOf (db : Db) (item : Watchlist.t) : Alert.t :=
  let latestPrice := fst (watchlistRouter.latestPriceOf (Watchlist.stockId item) db) in
  match latestPrice with
  | Ok latestPrice =>
      Alert.mk item (stocks db !! Watchlist.stockId item)
        (option_map PriceHistory.close latestPrice)
        (watchlistRouter.isTriggered latestPrice (Watchlist.targetPrice item))
  | Throw _ => Alert.mk item None None false
  end.

(** A store with a watchlist: alice watches ACME with a target of 110 and
    a second stock without target; ACME closed at 105 and then at 120. *)
Definition alertsDb : Db :=
  mkDb {[1%N := Example.alice]} {[3%N := Example.nyse]}
       {[2%N := Example.acme;
         4%N := Stock.mk 4 "BOLT" "Bolt Inc" None None None 3 true]}
       {[30%N := PriceHistory.mk 30 2 1 100 106 99 105 None;
         31%N := PriceHistory.mk 31 2 2 106 121 105 120 None]}
       ∅ ∅
       {[20%N := Watchlist.mk 20 1 2 None None (Some 110%Q) 5;
         21%N := Watchlist.mk 21 1 4 None None None 6]}
       40.

(** A filter of a list query holds of a row when it is not provided or
    the row satisfies it. *)
Definition filterHolds {A} (provided : option A) (P : A -> Prop) : Prop :=
  match provided with Some x => P x | None => True end.

#[global] Instance filterHolds_dec {A} (provided : option A) (P : A -> Prop)
  `{forall x, Decision (P x)} : Decision (filterHolds provided P).
Proof. destruct provided; cbn; apply _. Defined.

(** The rows that a list query asks for, one predicate per list. *)
Definition positionMatches (input : GetPositionsInput.t) (p : Position.t) : Prop :=
  Position.userId p = GetPositionsInput.userId input
  /\ filterHolds (GetPositionsInput.status input) (fun s => Position.status p = s)
  /\ filterHolds (GetPositionsInput.stockId input) (fun i => Position.stockId p = i).

Definition transactionMatches (db : Db) (input : GetTransactionsInput.t)
    (t : Transaction.t) : Prop :=
  filterHolds (GetTransactionsInput.positionId input)
    (fun i => Transaction.positionId t = i)
  /\ filterHolds (GetTransactionsInput.userId input)
       (fun u => Position.userId <$> positions db !! Transaction.positionId t = Some u)
  /\ filterHolds (GetTransactionsInput.type input) (fun ty => Transaction.type t = ty)
  /\ filterHolds (GetTransactionsInput.startDate input) (fun d => d <= Transaction.date t)
  /\ filterHolds (GetTransactionsInput.endDate input) (fun d => Transaction.date t <= d).

Definition watchlistMatches (input : ListWatchlistInput.t) (w : Watchlist.t) : Prop :=
  Watchlist.userId w = ListWatchlistInput.userId input.

(** [search] occurs in [field], letter case ignored. *)
Definition occursIn (search field : string) : Prop :=
  exists pre suf : string, lower field = (pre ++ lower search ++ suf)%string.

(** The stock filters as the specification words them: every provided
    filter holds. *)
Definition stockMatchesProvided (input : ListStocksInput.t) (s : Stock.t) : Prop :=
  filterHolds (ListStocksInput.exchangeId input) (fun e => Stock.exchangeId s = e)
  /\ filterHolds (ListStocksInput.sector input) (fun x => Stock.sector s = Some x)
  /\ filterHolds (ListStocksInput.isActive input) (fun b => Stock.isActive s = b)
  /\ filterHolds (ListStocksInput.search input)
       (fun x => containsInsensitive x (Stock.symbol s) = true
                 \/ containsInsensitive x (Stock.name s) = true).

(** The stock filters as the resolver applies them: a sector given as the
    empty string is skipped. *)
Definition stockMatches (input : ListStocksInput.t) (s : Stock.t) : Prop :=
  filterHolds (ListStocksInput.exchangeId input) (fun e => Stock.exchangeId s = e)
  /\ filterHolds (ListStocksInput.sector input)
       (fun x => x <> "" -> Stock.sector s = Some x)
  /\ filterHolds (ListStocksInput.isActive input) (fun b => Stock.isActive s = b)
  /\ filterHolds (ListStocksInput.search input)
       (fun x => containsInsensitive x (Stock.symbol s) = true
                 \/ containsInsensitive x (Stock.name s) = true).

#[global] Instance TransactionType_eq_dec : EqDecision TransactionType.
Proof. solve_decision. Defined.

#[global] Instance positionMatches_dec input p : Decision (positionMatches input p).
Proof. unfold positionMatches. apply _. Defined.

#[global] Instance transactionMatches_dec db input t :
  Decision (transactionMatches db input t).
Proof. unfold transactionMatches. apply _. Defined.

#[global] Instance watchlistMatches_dec input w : Decision (watchlistMatches input w).
Proof. unfold watchlistMatches. apply _. Defined.

#[global] Instance stockMatchesProvided_dec input s :
  Decision (stockMatchesProvided input s).
Proof. unfold stockMatchesProvided. apply _. Defined.

#[global] Instance stockMatches_dec input s : Decision (stockMatches input s).
Proof. unfold stockMatches. apply _. Defined.

(** What every list operation promises about its page, for limit [L] and
    offset [O] and the rows [matching] the query. *)
Definition pageContract {A} (page : Page A) (L O : Z) (matching : list A) : Prop :=
  (hasMore page = true <-> O + L < Z.of_nat (total page))
  /\ Z.of_nat (length (items page)) <= L
  /\ total page = length matching.

(** A stock query whose sector is the empty string. *)
Definition emptySectorQuery : ListStocksInput.t :=
  ListStocksInput.mk None (Some "") None None 50 0.

(** * Vocabulary of the further properties *)

(** The number that [transactionRouter.update] computes for the total
    of [t]: the provided or stored quantity times the provided or stored
    price. *)
Definition newTotalValue (input : UpdateTransactionInput.t) (t : Transaction.t)
    : float :=
  (int (setReq (UpdateTransactionInput.quantity input) (Transaction.quantity t))
   * Number (setReq (UpdateTransactionInput.price input) (Transaction.price t)))%float.

(** The row that [transactionRouter.update] writes in place of [t],
    [totalValue] being the decimal stored for the new total when there
    is one. *)
Definition updatedTransaction (input : UpdateTransactionInput.t)
    (t : Transaction.t) (totalValue : Q) : Transaction.t :=
  let quantity := UpdateTransactionInput.quantity input in
  let price := UpdateTransactionInput.price input in
  if isSome quantity || isSome price
  then transactionRouter.withTotal quantity price totalValue
         (transactionRouter.otherUpdates input t)
  else transactionRouter.otherUpdates input t.

(** The rows that [createBulk] hands to [createMany]: each input with
    the decimal of its total. *)
Definition bulkData (rows : list (CreateTransactionInput.t * Q))
    : list (Id -> Transaction.t) :=
  map (fun row => transactionOfInput (fst row) (snd row)) rows.

Definition bulkTotalled (row : CreateTransactionInput.t * Q) : Prop :=
  toDecimal (int (CreateTransactionInput.quantity (fst row))
             * Number (CreateTransactionInput.price (fst row))) = Some (snd row).

(** The procedures of the position and transaction routers that write,
    as a caller can issue them. *)
Inductive ApiOp :=
| OnPosition (op : PositionOp)
| TxCreate (input : CreateTransactionInput.t)
| TxUpdate (input : UpdateTransactionInput.t)
| TxDelete (id : Id)
| TxCreateBulk (inputs : list CreateTransactionInput.t).

Definition apiStep (op : ApiOp) (db : Db) : Db :=
  match op with
  | OnPosition op => perform op db
  | TxCreate input => snd (appRouter.transaction.create input db)
  | TxUpdate input => snd (transactionRouter.update input db)
  | TxDelete id => snd (appRouter.transaction.delete id db)
  | TxCreateBulk inputs => snd (appRouter.transaction.createBulk inputs db)
  end.

Definition apiRun (ops : list ApiOp) (db : Db) : Db :=
  fold_left (fun db op => apiStep op db) ops db.

Definition withTables (db : Db) (ps : gmap N Position.t)
    (ts : gmap N Transaction.t) (n : Id) : Db :=
  mkDb (users db) (exchanges db) (stocks db) (priceHistory db) ps ts
       (watchlist db) n.

(** What the writing procedures can do to the store, row by row. *)
Inductive apiEffect (db : Db) : Db -> Prop :=
| ae_none : apiEffect db db
| ae_create (input : CreatePositionInput.t) (tbv cap : Q) :
    CreatePositionSchema input = true ->
    toDecimal (int (CreatePositionInput.quantity input)
               * Number (CreatePositionInput.entryPrice input)) = Some tbv ->
    toDecimal (int (CreatePositionInput.quantity input)
               * Number (CreatePositionInput.entryPrice input)
               + Number (CreatePositionInput.buyFees input)) = Some cap ->
    apiEffect db
      (withTables db
         (<[nextId db := openedPosition (nextId db) input tbv cap]> (positions db))
         (<[N.succ (nextId db) :=
              buyTransaction (N.succ (nextId db)) (nextId db) input tbv]>
            (transactions db))
         (N.succ (N.succ (nextId db))))
| ae_close (input : ClosePositionInput.t) (p : Position.t) (tsv pnl rp : Q) :
    positions db !! ClosePositionInput.positionId input = Some p ->
    Position.status p = OPEN ->
    toDecimal (int (Position.quantity p)
               * Number (ClosePositionInput.exitPrice input)) = Some tsv ->
    toDecimal (int (Position.quantity p)
               * Number (ClosePositionInput.exitPrice input)
               - Number (Position.totalBuyValue p)
               - Number (Position.buyFees p)
               - Number (ClosePositionInput.sellFees input)) = Some pnl ->
    toDecimal ((int (Position.quantity p)
                * Number (ClosePositionInput.exitPrice input)
                - Number (Position.totalBuyValue p)
                - Number (Position.buyFees p)
                - Number (ClosePositionInput.sellFees input))
               / Number (Position.capitalAllocated p) * 100) = Some rp ->
    apiEffect db
      (withTables db
         (<[ClosePositionInput.positionId input :=
              positionRouter.closeData input tsv pnl rp p]>
            (positions db))
         (<[nextId db := sellTransaction (nextId db) p input tsv]>
            (transactions db))
         (N.succ (nextId db)))
| ae_update (input : UpdatePositionInput.t) (p : Position.t) :
    positions db !! UpdatePositionInput.id input = Some p ->
    apiEffect db
      (withTables db
         (<[UpdatePositionInput.id input := positionRouter.updateData input p]>
            (positions db))
         (transactions db) (nextId db))
| ae_delete (i : Id) :
    (forall k t, transactions db !! k = Some t -> Transaction.positionId t <> i) ->
    apiEffect db
      (withTables db (base.delete i (positions db)) (transactions db) (nextId db))
| ae_tx_insert (input : CreateTransactionInput.t) (tv : Q) :
    is_Some (positions db !! CreateTransactionInput.positionId input) ->
    toDecimal (int (CreateTransactionInput.quantity input)
               * Number (CreateTransactionInput.price input)) = Some tv ->
    apiEffect db
      (withTables db (positions db)
         (<[nextId db := transactionOfInput input tv (nextId db)]> (transactions db))
         (N.succ (nextId db)))
| ae_tx_update (input : UpdateTransactionInput.t) (t : Transaction.t) (tv : Q) :
    transactions db !! UpdateTransactionInput.id input = Some t ->
    (isSome (UpdateTransactionInput.quantity input)
     || isSome (UpdateTransactionInput.price input) = true ->
     toDecimal (newTotalValue input t) = Some tv) ->
    apiEffect db
      (withTables db (positions db)
         (<[UpdateTransactionInput.id input := updatedTransaction input t tv]>
            (transactions db))
         (nextId db))
| ae_tx_delete (i : Id) :
    apiEffect db
      (withTables db (positions db) (base.delete i (transactions db)) (nextId db))
| ae_trans (db1 db2 : Db) :
    apiEffect db db1 -> apiEffect db1 db2 -> apiEffect db db2.

(** The stored derived values of a position are the decimals of the
    numbers that its formulas give in the arithmetic of JavaScript, and
    the exit fields are set exactly on a CLOSED position. *)
Definition coherent (p : Position.t) : Prop :=
  Some (Position.totalBuyValue p)
  = toDecimal (int (Position.quantity p) * Number (Position.entryPrice p))
  /\ Some (Position.capitalAllocated p)
     = toDecimal (int (Position.quantity p) * Number (Position.entryPrice p)
                  + Number (Position.buyFees p))
  /\ match Position.status p with
     | OPEN =>
         Position.closeDate p = None /\ Position.exitPrice p = None
         /\ Position.totalSellValue p = None /\ Position.sellFees p = None
         /\ Position.realizedPnL p = None /\ Position.returnPercentage p = None
     | CLOSED =>
         exists closeDate e s,
           Position.closeDate p = Some closeDate
           /\ Position.exitPrice p = Some e /\ Position.sellFees p = Some s
           /\ is_Some (Position.totalSellValue p)
           /\ Position.totalSellValue p
              = toDecimal (int (Position.quantity p) * Number e)
           /\ is_Some (Position.realizedPnL p)
           /\ Position.realizedPnL p
              = toDecimal (int (Position.quantity p) * Number e
                           - Number (Position.totalBuyValue p)
                           - Number (Position.buyFees p) - Number s)
           /\ is_Some (Position.returnPercentage p)
           /\ Position.returnPercentage p
              = toDecimal ((int (Position.quantity p) * Number e
                            - Number (Position.totalBuyValue p)
                            - Number (Position.buyFees p) - Number s)
                           / Number (Position.capitalAllocated p) * 100)
     | PARTIAL => True
     end.

(** The stored total of a transaction is the decimal of its quantity
    times its price, the product of JavaScript numbers. *)
Definition totalled (t : Transaction.t) : Prop :=
  Some (Transaction.totalValue t)
  = toDecimal (int (Transaction.quantity t) * Number (Transaction.price t)).

(** A run used to exercise the writing procedures on the example store:
    a manual dividend, an edit of the BUY transaction, a close, a bulk
    import and a refused delete. *)
Definition exampleRun : list ApiOp :=
  [TxCreate (CreateTransactionInput.mk 10 DIVIDEND 1500 10 2 0 None None None None);
   TxUpdate (UpdateTransactionInput.mk 11 None (Some 12) None None None None None None);
   OnPosition (OpClose Example.closeInput);
   TxCreateBulk
     [CreateTransactionInput.mk 10 BONUS 1600 1 1 0 None None None None;
      CreateTransactionInput.mk 10 SPLIT 1700 2 1 0 None None None None];
   OnPosition (OpDelete 10);
   TxDelete 11].

(** [l] is ordered by [le]: every element may come before all the later
    ones. *)
Fixpoint sortedBy {A} (le : A -> A -> bool) (l : list A) : Prop :=
  match l with
  | [] => True
  | x :: l' => Forall (fun y => le x y = true) l' /\ sortedBy le l'
  end.

(** The rows of one transaction type. *)
Definition typeGroup (rows : list Transaction.t) (ty : TransactionType)
    : list Transaction.t :=
  List.filter (fun t => TransactionType_eqb (Transaction.type t) ty) rows.


(** User [u] watches stock [s]. *)
Definition watched (db : Db) (u s : Id) : Prop :=
  exists k w, watchlist db !! k = Some w
              /\ Watchlist.userId w = u /\ Watchlist.stockId w = s.

(** The watchlist is well formed: rows are stored under their own ids,
    the ids were issued by the counter, and no two rows have the same
    (userId, stockId). *)
Record watchlistOk (db : Db) : Prop := mkWatchlistOk {
  watch_keys :
    map_Forall (fun k w => Watchlist.id w = k /\ (k < nextId db)%N) (watchlist db);
  watch_unique :
    map_Forall (fun k1 w1 =>
      map_Forall (fun k2 w2 =>
        Watchlist.userId w1 = Watchlist.userId w2 ->
        Watchlist.stockId w1 = Watchlist.stockId w2 -> k1 = k2)
        (watchlist db))
      (watchlist db) }.

(** The writing procedures of the watchlist router. *)
Inductive WatchOp :=
| WAdd (input : CreateWatchlistInput.t)
| WBulkAdd (input : BulkAddInput.t)
| WUpdate (input : UpdateWatchlistInput.t)
| WRemove (id : Id)
| WRemoveByStock (userId stockId : Id).

Definition watchStep (schema : CreateWatchlistInput.t -> bool) (now : Date)
    (op : WatchOp) (db : Db) : Db :=
  match op with
  | WAdd input => snd (appRouter.watchlist.add schema now input db)
  | WBulkAdd input => snd (appRouter.watchlist.bulkAdd now input db)
  | WUpdate input => snd (appRouter.watchlist.update input db)
  | WRemove id => snd (appRouter.watchlist.remove id db)
  | WRemoveByStock u s => snd (appRouter.watchlist.removeByStock u s db)
  end.

Definition watchRun (schema : CreateWatchlistInput.t -> bool) (now : Date)
    (ops : list WatchOp) (db : Db) : Db :=
  fold_left (fun db op => watchStep schema now op db) ops db.

Definition withWatchlist (db : Db) (ws : gmap N Watchlist.t) (n : Id) : Db :=
  mkDb (users db) (exchanges db) (stocks db) (priceHistory db)
       (positions db) (transactions db) ws n.

(** What a watchlist write can do to the store. *)
Inductive watchEffect (db : Db) : Db -> Prop :=
| we_none : watchEffect db db
| we_insert (w : Watchlist.t) :
    Watchlist.id w = nextId db ->
    ~ watched db (Watchlist.userId w) (Watchlist.stockId w) ->
    watchEffect db
      (withWatchlist db (<[nextId db := w]> (watchlist db)) (N.succ (nextId db)))
| we_replace (k : Id) (w w' : Watchlist.t) :
    watchlist db !! k = Some w ->
    Watchlist.id w' = Watchlist.id w ->
    Watchlist.userId w' = Watchlist.userId w ->
    Watchlist.stockId w' = Watchlist.stockId w ->
    watchEffect db (withWatchlist db (<[k := w']> (watchlist db)) (nextId db))
| we_delete (k : Id) :
    watchEffect db (withWatchlist db (base.delete k (watchlist db)) (nextId db))
| we_trans (db1 db2 : Db) :
    watchEffect db db1 -> watchEffect db1 db2 -> watchEffect db db2.

(** A schema that accepts every watchlist input, for running the
    procedures on examples. *)
Definition anyWatchlistInput (i : CreateWatchlistInput.t) : bool := true.

Definition exampleWatchRun : list WatchOp :=
  [WAdd (CreateWatchlistInput.mk 1 2 None None (Some 99%Q));
   WBulkAdd (BulkAddInput.mk 1 [2%N; 4%N; 7%N; 7%N] None);
   WUpdate (UpdateWatchlistInput.mk 21 None None (Some 50%Q));
   WRemoveByStock 1 2;
   WAdd (CreateWatchlistInput.mk 1 2 None None None)].

(** The price history is well formed: rows are stored under their own
    ids, the ids were issued by the counter, and (stockId, date) is
    unique. *)
Record priceOk (db : Db) : Prop := mkPriceOk {
  price_keys :
    map_Forall (fun k h => PriceHistory.id h = k /\ (k < nextId db)%N)
               (priceHistory db);
  price_unique : priceHistoryUnique db }.

(** Stock [s] has a price row dated [d]. *)
Definition priced (db : Db) (s : Id) (d : Date) : Prop :=
  exists k h, priceHistory db !! k = Some h
              /\ PriceHistory.stockId h = s /\ PriceHistory.date h = d.

Definition withPrices (db : Db) (hs : gmap N PriceHistory.t) (n : Id) : Db :=
  mkDb (users db) (exchanges db) (stocks db) hs
       (positions db) (transactions db) (watchlist db) n.

(** A schema that accepts every price input, for running the procedures
    on examples. *)
Definition anyPriceInput (i : PriceHistoryInput.t) : bool := true.

(** The row that [addBulkPriceHistory] builds from a bar. *)
Definition priceOfBar (stockId : Id) (item : PriceBar.t) (id : Id)
    : PriceHistory.t :=
  PriceHistory.mk id stockId (PriceBar.date item) (PriceBar.open item)
    (PriceBar.high item) (PriceBar.low item) (PriceBar.close item)
    (PriceBar.volume item).

(** ** Exchanges *)

(** The order of [getStats]: most positions first. *)
Definition byPositionsDesc (a b : StockCount.t) : bool :=
  (StockCount.positions b <=? StockCount.positions a)%nat.

Definition topStockOf (s : StockCount.t) : TopStock.t :=
  TopStock.mk (Stock.id (StockCount.stock s)) (Stock.symbol (StockCount.stock s))
    (Stock.name (StockCount.stock s)) (StockCount.positions s).

(** The number of stored positions on a stock. *)
Definition positionsOn (db : Db) (stockId : Id) : nat :=
  length (List.filter (fun p => N.eqb (Position.stockId p) stockId)
            (prisma.all positionT db)).

(** The strings on which the model of [toUpperCase] is the function of
    the language. *)
Definition asciiOnly (s : string) : Prop :=
  Forall (fun c => (nat_of_ascii c < 128)%nat) (list_ascii_of_string s).

(** Stock [s] is what [getBySymbol] asks for: its symbol is the
    upper-case form of [symbol], and its exchange has the code
    [exchangeCode] when one is given that is not empty. *)
Definition symbolMatches (db : Db) (symbol : string)
    (exchangeCode : option string) (s : Stock.t) : Prop :=
  Stock.symbol s = upper symbol
  /\ forall c, exchangeCode = Some c -> c <> "" ->
       exists e, exchanges db !! Stock.exchangeId s = Some e
                 /\ Exchange.code e = c.

(** ** Users over REST *)

(** The users are well formed: rows are stored under their own ids, the
    ids were issued by the counter, and no two users have the same
    email. *)
Record usersOk (db : Db) : Prop := mkUsersOk {
  user_keys :
    map_Forall (fun k u => User.id u = k /\ (k < nextId db)%N) (users db);
  user_unique :
    map_Forall (fun k1 u1 =>
      map_Forall (fun k2 u2 => User.email u1 = User.email u2 -> k1 = k2)
        (users db))
      (users db) }.

(** Some user has the email. *)
Definition registered (db : Db) (email : string) : Prop :=
  exists k u, users db !! k = Some u /\ User.email u = email.

(** Some user other than [id] has the email. *)
Definition takenByOther (db : Db) (id : Id) (email : string) : Prop :=
  exists k u, k <> id /\ users db !! k = Some u /\ User.email u = email.

Definition withUsers (db : Db) (us : gmap N User.t) (n : Id) : Db :=
  mkDb us (exchanges db) (stocks db) (priceHistory db)
       (positions db) (transactions db) (watchlist db) n.

(** The writing handlers of the users controller. *)
Inductive UserOp :=
| UCreate (body : CreateUserBody.t)
| UUpdate (id : Id) (body : UpdateUserBody.t)
| UDelete (id : Id).

Definition userStep (isEmail : string -> bool) (trim : string -> string)
    (now : Date) (op : UserOp) (db : Db) : Db :=
  match op with
  | UCreate body => snd (controllers.users.create isEmail trim now body db)
  | UUpdate id body => snd (controllers.users.update isEmail trim now id body db)
  | UDelete id => snd (usersController.delete id db)
  end.

Definition userRun (isEmail : string -> bool) (trim : string -> string)
    (now : Date) (ops : list UserOp) (db : Db) : Db :=
  fold_left (fun db op => userStep isEmail trim now op db) ops db.

(** A validator and a sanitizer for running the handlers on examples:
    an email contains an at sign, and the names of the examples have no
    surrounding blanks. *)
Definition hasAt (s : string) : bool := infix "@" s.
Definition noTrim (s : string) : string := s.

Definition exampleUserRun : list UserOp :=
  [UCreate (CreateUserBody.mk "bob@example.com" (Some "Bob"));
   UCreate (CreateUserBody.mk "alice@example.com" None);
   UUpdate 12 (UpdateUserBody.mk (Some "alice@example.com") None);
   UUpdate 12 (UpdateUserBody.mk (Some "robert@example.com") None);
   UDelete 1;
   UDelete 12;
   UCreate (CreateUserBody.mk "bob@example.com" None)].
(** * Properties *)

(** ** The empty store and the example stores are well formed *)

Lemma wf_emptyDb : wf emptyDb.
Proof. split; intros k x Hk; cbn in Hk; by rewrite lookup_empty in Hk. Qed.

Lemma wf_db0 : wf Example.db0.
Proof. split; refine (bool_decide_unpack _ _); vm_compute; exact I. Defined.

Lemma wf_db1 : wf Example.db1.
Proof. split; refine (bool_decide_unpack _ _); vm_compute; exact I. Defined.

(** ** Schema checks *)

Lemma Qpositive_true (q : Q) : (0 < q)%Q -> Qpositive q = true.
Proof.
  intros H. unfold Qpositive. destruct (Qle_bool q 0) eqn:E; [|reflexivity].
  apply Qle_bool_iff in E. exfalso. apply (Qlt_not_le _ _ H E).
Qed.

Lemma Qnonnegative_true (q : Q) : (0 <= q)%Q -> Qnonnegative q = true.
Proof. intros H. unfold Qnonnegative. by apply Qle_bool_iff. Qed.

Lemma ClosePositionSchema_ok (input : ClosePositionInput.t) :
  (0 < ClosePositionInput.exitPrice input)%Q ->
  (0 <= ClosePositionInput.sellFees input)%Q ->
  ClosePositionSchema input = true.
Proof.
  intros He Hs. unfold ClosePositionSchema.
  by rewrite Qpositive_true, Qnonnegative_true.
Qed.

(** ** Numbers *)

Lemma valueOf_finite (x : float) : is_finite x = true -> is_Some (valueOf x).
Proof.
  unfold is_finite, valueOf, Prim2SF.
  destruct (is_nan x); [done|].
  destruct (is_infinity x); [done|]. intros _.
  destruct (is_zero x); [eauto|].
  destruct (Z.frexp x) as [r e]. destruct (shr_fexp _ _ _ _ _) as [m e'].
  destruct (shr_m m); eauto.
Qed.

(** A finite number has a decimal. *)
Lemma toDecimal_finite (x : float) : is_finite x = true -> is_Some (toDecimal x).
Proof.
  intros [v Hv]%valueOf_finite. unfold toDecimal. rewrite Hv.
  destruct (v ?= 0)%Q; eauto.
Qed.

(** ** positionRouter.close *)

Lemma close_open_eq (db : Db) (input : ClosePositionInput.t) (p : Position.t) :
  ClosePositionSchema input = true ->
  positions db !! ClosePositionInput.positionId input = Some p ->
  Position.status p = OPEN ->
  let e := ClosePositionInput.exitPrice input in
  let s := ClosePositionInput.sellFees input in
  let totalSellValue := (int (Position.quantity p) * Number e)%float in
  let realizedPnL :=
    (totalSellValue - Number (Position.totalBuyValue p)
     - Number (Position.buyFees p) - Number s)%float in
  let returnPercentage :=
    (realizedPnL / Number (Position.capitalAllocated p) * 100)%float in
  positionRouter.close input db =
    match toDecimal totalSellValue, toDecimal realizedPnL,
          toDecimal returnPercentage with
    | Some tsv, Some pnl, Some rp =>
        let p' := positionRouter.closeData input tsv pnl rp p in
        (Ok p',
         mkDb (users db) (exchanges db) (stocks db) (priceHistory db)
              (<[ClosePositionInput.positionId input := p']> (positions db))
              (<[nextId db := sellTransaction (nextId db) p input tsv]>
                 (transactions db))
              (watchlist db) (N.succ (nextId db)))
    | _, _, _ => (Throw (PrismaError "P2020"), db)
    end.
Proof.
  intros Hs Hl Ho. cbv zeta.
  unfold positionRouter.close, procedure. rewrite Hs.
  unfold bind at 1, prisma.findUnique. cbn [rd positionT]. rewrite Hl, Ho.
  cbn [PositionStatus_eqb negb].
  unfold bind at 1, decimal at 1.
  destruct (toDecimal (int (Position.quantity p) * _)) as [tsv|]; [|reflexivity].
  cbn [ret]. unfold bind at 1, decimal at 1.
  destruct (toDecimal (_ - _)) as [pnl|]; [|reflexivity].
  cbn [ret]. unfold bind at 1, decimal at 1.
  destruct (toDecimal (_ * 100)) as [rp|]; [|reflexivity].
  cbn [ret]. unfold bind, prisma.update. cbn [rd positionT]. rewrite Hl.
  unfold createChecked, transaction_fk, hasRow. cbn.
  rewrite lookup_insert_eq. reflexivity.
Qed.

Lemma close_missing_eq (db : Db) (input : ClosePositionInput.t) :
  ClosePositionSchema input = true ->
  positions db !! ClosePositionInput.positionId input = None ->
  positionRouter.close input db = (Throw (JsError "Position not found"), db).
Proof.
  intros Hs Hl. unfold positionRouter.close, procedure. rewrite Hs.
  unfold bind, prisma.findUnique. cbn [rd positionT]. by rewrite Hl.
Qed.

Lemma close_not_open_eq (db : Db) (input : ClosePositionInput.t) (p : Position.t) :
  ClosePositionSchema input = true ->
  positions db !! ClosePositionInput.positionId input = Some p ->
  Position.status p <> OPEN ->
  positionRouter.close input db = (Throw (JsError "Position is not open"), db).
Proof.
  intros Hs Hl Hst. unfold positionRouter.close, procedure. rewrite Hs.
  unfold bind, prisma.findUnique. cbn [rd positionT]. rewrite Hl.
  destruct (Position.status p); [congruence | reflexivity | reflexivity].
Qed.

Lemma close_invalid_eq (db : Db) (input : ClosePositionInput.t) :
  ClosePositionSchema input = false ->
  positionRouter.close input db = (Throw ValidationError, db).
Proof.
  intros Hs. unfold positionRouter.close, procedure. by rewrite Hs.
Qed.

(** A close that throws leaves the store as it is. *)
Lemma close_throw_keeps (db db' : Db) (input : ClosePositionInput.t) (err : Error) :
  positionRouter.close input db = (Throw err, db') -> db' = db.
Proof.
  intros Hrun. destruct (ClosePositionSchema input) eqn:Hschema.
  - destruct (positions db !! ClosePositionInput.positionId input) as [p|] eqn:Hl.
    + destruct (decide (Position.status p = OPEN)) as [Ho|Hn].
      * rewrite (close_open_eq db input p Hschema Hl Ho) in Hrun.
        repeat match type of Hrun with
               | context [toDecimal ?x] => destruct (toDecimal x)
               end; congruence.
      * rewrite (close_not_open_eq db input p Hschema Hl Hn) in Hrun. congruence.
    + rewrite (close_missing_eq db input Hschema Hl) in Hrun. congruence.
  - rewrite (close_invalid_eq db input Hschema) in Hrun. congruence.
Qed.

Lemma fresh_transaction (db : Db) : wf db -> transactions db !! nextId db = None.
Proof.
  intros [_ Ht]. destruct (transactions db !! nextId db) as [t|] eqn:E; [|done].
  apply Ht in E as (_ & Hlt & _). lia.
Qed.

Lemma fresh_position (db : Db) : wf db -> positions db !! nextId db = None.
Proof.
  intros [Hp _]. destruct (positions db !! nextId db) as [t|] eqn:E; [|done].
  apply Hp in E as (_ & Hlt). lia.
Qed.

(** C1. Closing an OPEN position [p] with exit price [e > 0] and sell
    fees [s >= 0] computes, in the arithmetic of JavaScript numbers,
    totalSellValue = p.quantity * e,
    realizedPnL = totalSellValue - p.totalBuyValue - p.buyFees - s and
    returnPercentage = realizedPnL / p.capitalAllocated * 100.  Where
    these three numbers are finite the close succeeds: the stored
    position holds their decimals and has status CLOSED, and one new
    SELL transaction is added whose date is closeDate, quantity
    p.quantity, price e, totalValue the decimal of totalSellValue and
    fees s.  For quantity 10, entry price 100, buy fees 5, exit price
    120 and sell fees 3 the numbers are 1200, 192 and 192/1005*100,
    stored as 1200, 192 and 19.1044776119403. *)
Theorem close_computes_metrics
    (db : Db) (input : ClosePositionInput.t) (p : Position.t) :
  let e := ClosePositionInput.exitPrice input in
  let s := ClosePositionInput.sellFees input in
  let positionId := ClosePositionInput.positionId input in
  let totalSellValue := (int (Position.quantity p) * Number e)%float in
  let realizedPnL :=
    (totalSellValue - Number (Position.totalBuyValue p)
     - Number (Position.buyFees p) - Number s)%float in
  let returnPercentage :=
    (realizedPnL / Number (Position.capitalAllocated p) * 100)%float in
  wf db ->
  (0 < e)%Q -> (0 <= s)%Q ->
  positions db !! positionId = Some p ->
  Position.status p = OPEN ->
  is_finite totalSellValue = true ->
  is_finite realizedPnL = true ->
  is_finite returnPercentage = true ->
  (exists (p' : Position.t) (sell : Transaction.t) (db' : Db),
      positionRouter.close input db = (Ok p', db')
      /\ positions db' = <[positionId := p']> (positions db)
      /\ is_Some (Position.totalSellValue p')
      /\ Position.totalSellValue p' = toDecimal totalSellValue
      /\ is_Some (Position.realizedPnL p')
      /\ Position.realizedPnL p' = toDecimal realizedPnL
      /\ is_Some (Position.returnPercentage p')
      /\ Position.returnPercentage p' = toDecimal returnPercentage
      /\ Position.status p' = CLOSED
      /\ transactions db !! Transaction.id sell = None
      /\ transactions db' = <[Transaction.id sell := sell]> (transactions db)
      /\ Transaction.positionId sell = positionId
      /\ Transaction.type sell = SELL
      /\ Transaction.date sell = ClosePositionInput.closeDate input
      /\ Transaction.quantity sell = Position.quantity p
      /\ Transaction.price sell = e
      /\ Some (Transaction.totalValue sell) = toDecimal totalSellValue
      /\ Transaction.fees sell = s)
  /\ (Position.quantity p = 10 ->
      Position.entryPrice p = 100%Q ->
      Position.buyFees p = 5%Q ->
      Position.totalBuyValue p = 1000%Q ->
      Position.capitalAllocated p = 1005%Q ->
      e = 120%Q -> s = 3%Q ->
      totalSellValue = 1200%float
      /\ realizedPnL = 192%float
      /\ returnPercentage = (192 / 1005 * 100)%float
      /\ toDecimal totalSellValue = Some 1200%Q
      /\ toDecimal realizedPnL = Some 192%Q
      /\ toDecimal returnPercentage = Some 19.1044776119403%Q).
Proof.
  intros e s positionId totalSellValue realizedPnL returnPercentage
         Hwf He Hs Hl Ho Ht Hr Hp.
  split.
  - pose proof (close_open_eq db input p (ClosePositionSchema_ok input He Hs) Hl Ho)
      as Hrun. cbv zeta in Hrun.
    fold e s totalSellValue realizedPnL returnPercentage in Hrun.
    destruct (toDecimal_finite _ Ht) as [tsv Htsv].
    destruct (toDecimal_finite _ Hr) as [pnl Hpnl].
    destruct (toDecimal_finite _ Hp) as [rp Hrp].
    rewrite Htsv, Hpnl, Hrp in Hrun |- *.
    exists (positionRouter.closeData input tsv pnl rp p),
           (sellTransaction (nextId db) p input tsv).
    eexists. split; [exact Hrun|].
    cbn. repeat split; eauto using fresh_transaction.
  - intros Hq _ Hb Htb Hc He' Hs'.
    subst totalSellValue realizedPnL returnPercentage.
    rewrite Hq, Hb, Htb, Hc, He', Hs'. vm_compute. repeat split.
Qed.

Lemma close_computes_metrics_witness :
  exists (p' : Position.t) (db' : Db),
    positionRouter.close Example.closeInput Example.db1 = (Ok p', db')
    /\ Position.totalSellValue p' = Some 1200%Q
    /\ Position.realizedPnL p' = Some 192%Q
    /\ Position.returnPercentage p' = Some 19.1044776119403%Q
    /\ Position.status p' = CLOSED.
Proof.
  destruct (close_computes_metrics Example.db1 Example.closeInput Example.pos)
    as [(p' & sell & db' & Hrun & _ & _ & Hv & _ & Hr & _ & Hp & Hst & _) Hex].
  - exact wf_db1.
  - reflexivity.
  - discriminate.
  - reflexivity.
  - reflexivity.
  - reflexivity.
  - reflexivity.
  - reflexivity.
  - exists p', db'. split; [exact Hrun|]. rewrite Hv, Hr, Hp.
    split; [vm_compute; reflexivity|].
    split; [vm_compute; reflexivity|].
    split; [vm_compute; reflexivity|]. exact Hst.
Defined.

(** C3. A close whose positionId matches no position throws
    'Position not found'; a close of a position whose status is not OPEN
    throws 'Position is not open'; whenever a close throws, the store is
    the one it started from: no position is changed and no transaction is
    added. *)
Theorem close_failures_leave_store
    (db : Db) (input : ClosePositionInput.t) :
  (0 < ClosePositionInput.exitPrice input)%Q ->
  (0 <= ClosePositionInput.sellFees input)%Q ->
  (positions db !! ClosePositionInput.positionId input = None ->
   positionRouter.close input db = (Throw (JsError "Position not found"), db))
  /\ (forall p : Position.t,
        positions db !! ClosePositionInput.positionId input = Some p ->
        Position.status p <> OPEN ->
        positionRouter.close input db = (Throw (JsError "Position is not open"), db))
  /\ (forall (err : Error) (db' : Db),
        positionRouter.close input db = (Throw err, db') -> db' = db).
Proof.
  intros He Hs. pose proof (ClosePositionSchema_ok input He Hs) as Hschema.
  split; [|split].
  - by apply close_missing_eq.
  - intros p. by apply close_not_open_eq.
  - intros err db' Hrun. by eapply close_throw_keeps.
Qed.

Lemma close_failures_leave_store_witness :
  positionRouter.close (ClosePositionInput.mk 99 2000 120 3 None None) Example.db1
    = (Throw (JsError "Position not found"), Example.db1)
  /\ positionRouter.close Example.closeInput closedDb
    = (Throw (JsError "Position is not open"), closedDb).
Proof.
  split.
  - apply (close_failures_leave_store Example.db1
             (ClosePositionInput.mk 99 2000 120 3 None None)).
    + reflexivity.
    + discriminate.
    + reflexivity.
  - destruct (close_failures_leave_store closedDb Example.closeInput)
      as (_ & Hclosed & _).
    + reflexivity.
    + discriminate.
    + eapply Hclosed.
      * vm_compute. reflexivity.
      * discriminate.
Defined.

(** ** positionRouter.update *)

Lemma update_found_eq (db : Db) (input : UpdatePositionInput.t) (p : Position.t) :
  UpdatePositionSchema input = true ->
  positions db !! UpdatePositionInput.id input = Some p ->
  positionRouter.update input db =
    (Ok (positionRouter.updateData input p),
     mkDb (users db) (exchanges db) (stocks db) (priceHistory db)
          (<[UpdatePositionInput.id input := positionRouter.updateData input p]>
             (positions db))
          (transactions db) (watchlist db) (nextId db)).
Proof.
  intros Hs Hl. unfold positionRouter.update, procedure. rewrite Hs.
  unfold bind, prisma.update. cbn [rd positionT]. by rewrite Hl.
Qed.

Lemma update_missing_eq (db : Db) (input : UpdatePositionInput.t) :
  positions db !! UpdatePositionInput.id input = None ->
  exists err, positionRouter.update input db = (Throw err, db).
Proof.
  intros Hl. unfold positionRouter.update, procedure.
  destruct (UpdatePositionSchema input); [|by eexists].
  unfold bind, prisma.update. cbn [rd positionT]. rewrite Hl. by eexists.
Qed.



(** ** Rows of a table *)

Lemma List_filter_Permutation {A} (f : A -> bool) (l l' : list A) :
  Permutation l l' -> Permutation (List.filter f l) (List.filter f l').
Proof.
  induction 1; cbn.
  - constructor.
  - destruct (f x); [by constructor | done].
  - destruct (f x), (f y); try done; by constructor.
  - by etrans.
Qed.

Lemma values_insert {A} (m : gmap N A) (k : N) (x : A) :
  m !! k = None ->
  Permutation ((map_to_list (<[k := x]> m)).*2) (x :: (map_to_list m).*2).
Proof.
  intros Hk. rewrite (map_to_list_insert m k x Hk). reflexivity.
Qed.

Lemma List_filter_nil {A} (f : A -> bool) (l : list A) :
  (forall x, x ∈ l -> f x = false) -> List.filter f l = [].
Proof.
  induction l as [|a l IH]; intros H; cbn; [done|].
  rewrite (H a) by constructor. apply IH. intros x Hx. apply H. by constructor.
Qed.

Lemma elem_of_values {A} (m : gmap N A) (x : A) :
  x ∈ (map_to_list m).*2 <-> exists k, m !! k = Some x.
Proof.
  rewrite list_elem_of_fmap. split.
  - intros [[k y] [-> Hin]]. exists k. by apply elem_of_map_to_list.
  - intros [k Hk]. exists (k, x). split; [done|]. by apply elem_of_map_to_list.
Qed.

(** ** positionRouter.create *)

Lemma create_eq (db : Db) (input : CreatePositionInput.t) :
  CreatePositionSchema input = true ->
  is_Some (users db !! CreatePositionInput.userId input) ->
  is_Some (stocks db !! CreatePositionInput.stockId input) ->
  let i := nextId db in
  let totalBuyValue :=
    (int (CreatePositionInput.quantity input)
     * Number (CreatePositionInput.entryPrice input))%float in
  let capitalAllocated :=
    (totalBuyValue + Number (CreatePositionInput.buyFees input))%float in
  positionRouter.create input db =
    match toDecimal totalBuyValue, toDecimal capitalAllocated with
    | Some tbv, Some cap =>
        (Ok (openedPosition i input tbv cap),
         mkDb (users db) (exchanges db) (stocks db) (priceHistory db)
              (<[i := openedPosition i input tbv cap]> (positions db))
              (<[N.succ i := buyTransaction (N.succ i) i input tbv]>
                 (transactions db))
              (watchlist db) (N.succ (N.succ i)))
    | _, _ => (Throw (PrismaError "P2020"), db)
    end.
Proof.
  intros Hs [u Hu] [s Hst]. cbv zeta.
  unfold positionRouter.create, procedure. rewrite Hs.
  unfold bind at 1, decimal at 1.
  destruct (toDecimal (int _ * _)) as [tbv|]; [|reflexivity].
  cbn [ret]. unfold bind at 1, decimal at 1.
  destruct (toDecimal (_ + _)) as [cap|]; [|reflexivity].
  cbn [ret].
  unfold bind, createChecked at 1, position_fk, hasRow. cbn.
  rewrite Hu, Hst. cbn.
  unfold createChecked, transaction_fk, hasRow. cbn.
  rewrite lookup_insert_eq. reflexivity.
Qed.

Lemma create_rejected_eq (db : Db) (input : CreatePositionInput.t) :
  CreatePositionSchema input = true ->
  users db !! CreatePositionInput.userId input = None
  \/ stocks db !! CreatePositionInput.stockId input = None ->
  exists err, positionRouter.create input db = (Throw err, db).
Proof.
  intros Hs H. unfold positionRouter.create, procedure. rewrite Hs.
  unfold bind at 1, decimal at 1.
  destruct (toDecimal (int _ * _)) as [tbv|]; [|by eexists].
  cbn [ret]. unfold bind at 1, decimal at 1.
  destruct (toDecimal (_ + _)) as [cap|]; [|by eexists].
  cbn [ret].
  unfold bind, createChecked at 1, position_fk, hasRow. cbn.
  destruct H as [-> | ->]; [by eexists|].
  destruct (users db !! CreatePositionInput.userId input); by eexists.
Qed.

Lemma create_invalid_eq (db : Db) (input : CreatePositionInput.t) :
  CreatePositionSchema input = false ->
  positionRouter.create input db = (Throw ValidationError, db).
Proof.
  intros Hs. unfold positionRouter.create, procedure. by rewrite Hs.
Qed.

(** C2 as stated fails: an input with entryPrice > 0, integer
    quantity > 0, buyFees >= 0 and an openReason that is not empty,
    naming an existing user and stock, is rejected by the schema when its
    stopLossPrice is -5, and nothing is stored. *)
Lemma create_rejects_negative_stop_loss :
  (0 < CreatePositionInput.entryPrice Example.negativeStopLossInput)%Q
  /\ 0 < CreatePositionInput.quantity Example.negativeStopLossInput
  /\ (0 <= CreatePositionInput.buyFees Example.negativeStopLossInput)%Q
  /\ CreatePositionInput.openReason Example.negativeStopLossInput <> ""
  /\ is_Some (users Example.db0
              !! CreatePositionInput.userId Example.negativeStopLossInput)
  /\ is_Some (stocks Example.db0
              !! CreatePositionInput.stockId Example.negativeStopLossInput)
  /\ CreatePositionInput.stopLossPrice Example.negativeStopLossInput
     = Some (-5)%Q
  /\ positionRouter.create Example.negativeStopLossInput Example.db0
     = (Throw ValidationError, Example.db0).
Proof.
  split; [reflexivity|]. split; [reflexivity|]. split; [discriminate|].
  split; [discriminate|]. split; [by eexists|]. split; [by eexists|].
  split; reflexivity.
Qed.

(** C2, amended.  For a creation input that [CreatePositionSchema]
    accepts (entryPrice > 0, integer quantity > 0, buyFees >= 0,
    stopLossPrice, takeProfitPrice, riskAmount and riskPercentage
    positive when given, openReason not empty), naming an existing user
    and stock, [create] computes, in the arithmetic of JavaScript
    numbers, totalBuyValue = quantity * entryPrice and
    capitalAllocated = totalBuyValue + buyFees.  Where these two numbers
    are finite it stores a new position that holds their decimals and
    has status OPEN, and a new BUY transaction with date openDate, the
    input's quantity, price entryPrice, totalValue the decimal of
    totalBuyValue and fees buyFees; that transaction is the only
    transaction of the position. *)
Theorem create_opens_position_with_buy (db : Db) (input : CreatePositionInput.t) :
  let quantity := CreatePositionInput.quantity input in
  let entryPrice := CreatePositionInput.entryPrice input in
  let buyFees := CreatePositionInput.buyFees input in
  let totalBuyValue := (int quantity * Number entryPrice)%float in
  let capitalAllocated := (totalBuyValue + Number buyFees)%float in
  wf db ->
  CreatePositionSchema input = true ->
  is_Some (users db !! CreatePositionInput.userId input) ->
  is_Some (stocks db !! CreatePositionInput.stockId input) ->
  is_finite totalBuyValue = true ->
  is_finite capitalAllocated = true ->
  exists (p : Position.t) (buy : Transaction.t) (db' : Db),
    positionRouter.create input db = (Ok p, db')
    /\ positions db !! Position.id p = None
    /\ positions db' = <[Position.id p := p]> (positions db)
    /\ Some (Position.totalBuyValue p) = toDecimal totalBuyValue
    /\ Some (Position.capitalAllocated p) = toDecimal capitalAllocated
    /\ Position.status p = OPEN
    /\ Position.quantity p = quantity
    /\ Position.entryPrice p = entryPrice
    /\ Position.buyFees p = buyFees
    /\ transactions db !! Transaction.id buy = None
    /\ transactions db' = <[Transaction.id buy := buy]> (transactions db)
    /\ List.filter (fun t => N.eqb (Transaction.positionId t) (Position.id p))
                   (prisma.all transactionT db') = [buy]
    /\ Transaction.type buy = BUY
    /\ Transaction.date buy = CreatePositionInput.openDate input
    /\ Transaction.quantity buy = quantity
    /\ Transaction.price buy = entryPrice
    /\ Some (Transaction.totalValue buy) = toDecimal totalBuyValue
    /\ Transaction.fees buy = buyFees.
Proof.
  intros quantity entryPrice buyFees totalBuyValue capitalAllocated
         Hwf Hschema Hu Hs Ht Hc.
  pose proof (create_eq db input Hschema Hu Hs) as Hrun. cbv zeta in Hrun.
  fold quantity entryPrice buyFees totalBuyValue capitalAllocated in Hrun.
  destruct (toDecimal_finite _ Ht) as [tbv Htbv].
  destruct (toDecimal_finite _ Hc) as [cap Hcap].
  rewrite Htbv, Hcap in Hrun |- *.
  exists (openedPosition (nextId db) input tbv cap),
         (buyTransaction (N.succ (nextId db)) (nextId db) input tbv).
  eexists. split; [exact Hrun|].
  assert (Hfresh : transactions db !! N.succ (nextId db) = None).
  { destruct Hwf as [_ Htx].
    destruct (transactions db !! N.succ (nextId db)) as [t|] eqn:E; [|done].
    apply Htx in E as (_ & Hlt & _). lia. }
  cbn. repeat split; auto using fresh_position.
  unfold prisma.all. cbn [rd transactionT transactions].
  apply Permutation_singleton_r.
  rewrite (List_filter_Permutation _ _ _ (values_insert _ _ _ Hfresh)).
  cbn. rewrite N.eqb_refl. constructor.
  rewrite List_filter_nil; [done|].
  intros t [k Hk]%elem_of_values. apply N.eqb_neq. intros Heq.
  destruct Hwf as [Hp Htx]. apply Htx in Hk as (_ & _ & [p Hp']).
  rewrite Heq in Hp'. apply Hp in Hp' as (_ & Hlt). lia.
Qed.

Lemma create_opens_position_with_buy_witness :
  exists (p : Position.t) (db' : Db),
    positionRouter.create Example.createInput Example.db0 = (Ok p, db')
    /\ Position.totalBuyValue p = 1000%Q
    /\ Position.capitalAllocated p = 1005%Q
    /\ Position.status p = OPEN
    /\ prisma.all transactionT db' = [Example.buy].
Proof.
  destruct (create_opens_position_with_buy Example.db0 Example.createInput)
    as (p & buy & db' & Hrun & _).
  - exact wf_db0.
  - reflexivity.
  - eexists. reflexivity.
  - eexists. reflexivity.
  - reflexivity.
  - reflexivity.
  - exists p, db'. split; [exact Hrun|].
    vm_compute in Hrun. injection Hrun as <- <-. vm_compute. repeat split.
Defined.


(** ** The position operations as a transition system *)

Lemma perform_effect (op : PositionOp) (db : Db) : effect db (perform op db).
Proof.
  destruct op as [input|input|input|id]; cbn [perform].
  - destruct (CreatePositionSchema input) eqn:Hs.
    + destruct (users db !! CreatePositionInput.userId input) as [u|] eqn:Hu.
      * destruct (stocks db !! CreatePositionInput.stockId input) as [s|] eqn:Hst.
        -- rewrite create_eq by eauto.
           destruct (toDecimal _) as [tbv|]; [|constructor].
           destruct (toDecimal _) as [cap|]; [|constructor].
           cbn [snd]. by apply eff_create.
        -- destruct (create_rejected_eq db input Hs) as [err ->]; [auto|].
           constructor.
      * destruct (create_rejected_eq db input Hs) as [err ->]; [auto|].
        constructor.
    + rewrite (create_invalid_eq db input Hs). constructor.
  - destruct (ClosePositionSchema input) eqn:Hs.
    + destruct (positions db !! ClosePositionInput.positionId input) as [p|] eqn:Hl.
      * destruct (decide (Position.status p = OPEN)) as [Ho|Hn].
        -- rewrite (close_open_eq db input p Hs Hl Ho).
           destruct (toDecimal _) as [tsv|]; [|constructor].
           destruct (toDecimal _) as [pnl|]; [|constructor].
           destruct (toDecimal _) as [rp|]; [|constructor].
           cbn [snd]. by eapply eff_close.
        -- rewrite (close_not_open_eq db input p Hs Hl Hn). constructor.
      * rewrite (close_missing_eq db input Hs Hl). constructor.
    + rewrite (close_invalid_eq db input Hs). constructor.
  - destruct (UpdatePositionSchema input) eqn:Hs.
    + destruct (positions db !! UpdatePositionInput.id input) as [p|] eqn:Hl.
      * rewrite (update_found_eq db input p Hs Hl). cbn [snd].
        by eapply eff_update.
      * destruct (update_missing_eq db input Hl) as [err ->]. constructor.
    + unfold positionRouter.update, procedure. rewrite Hs. constructor.
  - unfold positionRouter.delete, bind, prisma.count.
    destruct (0 <? length _)%nat eqn:Hc; [constructor|].
    unfold prisma.delete. cbn [rd positionT].
    destruct (positions db !! id) as [p|] eqn:Hl; [|constructor].
    cbn. apply eff_delete. intros k t Hk Heq.
    apply Nat.ltb_ge in Hc. 
    assert (Hin : t ∈ List.filter (fun t => N.eqb (Transaction.positionId t) id)
                       (prisma.all transactionT db)).
    { apply list_elem_of_In, filter_In. split.
      - apply list_elem_of_In, elem_of_values. eauto.
      - by apply N.eqb_eq. }
    destruct (List.filter _ _); [by apply elem_of_nil in Hin | cbn in Hc; lia].
Qed.

Lemma effect_wf (db db' : Db) : effect db db' -> wf db -> wf db'.
Proof.
  intros He [Hp Ht]. destruct He; [by split | ..]; split; cbn.
  - (* create, positions *)
    apply map_Forall_insert_2; [split; [done | lia]|].
    intros k q Hk. apply Hp in Hk as [? ?]. split; [done | lia].
  - apply map_Forall_insert_2.
    + split; [done|]. split; [lia|]. rewrite H2, lookup_insert_eq. by eexists.
    + intros k q Hk. apply Ht in Hk as (? & ? & [r Hr]). split; [done|].
      split; [lia|]. rewrite lookup_insert. case_decide; by eexists.
  - (* close *)
    apply map_Forall_insert_2.
    + apply Hp in H as [? ?]. split; [congruence | lia].
    + intros k q Hk. apply Hp in Hk as [? ?]. split; [done | lia].
  - apply map_Forall_insert_2.
    + split; [done|]. split; [lia|]. rewrite H4, lookup_insert_eq. by eexists.
    + intros k q Hk. apply Ht in Hk as (? & ? & [r Hr]). split; [done|].
      split; [lia|]. rewrite lookup_insert. case_decide; by eexists.
  - (* update *)
    apply map_Forall_insert_2.
    + apply Hp in H as [? ?]. split; [congruence | lia].
    + done.
  - intros k q Hk. apply Ht in Hk as (? & ? & [r Hr]). split; [done|].
    split; [lia|]. rewrite lookup_insert. case_decide; by eexists.
  - (* delete *)
    intros k q Hk. apply lookup_delete_Some in Hk as [_ Hk]. by apply Hp in Hk.
  - intros k q Hk. pose proof (H k q Hk) as Hne.
    apply Ht in Hk as (? & ? & [r Hr]). split; [done|]. split; [done|].
    rewrite lookup_delete_ne by done. by eexists.
Qed.

Lemma effect_settled (db db' : Db) (id : Id) :
  effect db db' -> settled db id -> settled db' id.
Proof.
  unfold settled, statusOf. intros He [Hlt Hst].
  destruct He; cbn; [done | ..].
  - split; [lia|]. rewrite lookup_insert_ne by lia. done.
  - split; [lia|]. rewrite lookup_insert. case_decide; [|done].
    cbn. congruence.
  - split; [done|]. rewrite lookup_insert. case_decide; [|done].
    subst. rewrite H in Hst. cbn in *. congruence.
  - split; [done|]. rewrite lookup_delete. case_decide; done.
Qed.

Lemma closings_settled (id : Id) (ops : list PositionOp) (db : Db) :
  settled db id -> closings id ops db = 0%nat.
Proof.
  revert db. induction ops as [|op ops IH]; intros db Hs; [done|].
  cbn [closings]. rewrite IH by eauto using effect_settled, perform_effect.
  destruct Hs as [_ Hs]. case_decide as Hd; [|done]. by destruct Hd.
Qed.

Lemma closings_le_1 (id : Id) (ops : list PositionOp) (db : Db) :
  wf db -> (closings id ops db <= 1)%nat.
Proof.
  revert db. induction ops as [|op ops IH]; intros db Hwf; [cbn; lia|].
  cbn [closings]. pose proof (perform_effect op db) as He.
  pose proof (effect_wf _ _ He Hwf) as Hwf'.
  case_decide as Hd.
  - rewrite closings_settled; [lia|].
    destruct Hd as [_ Hc]. split; [|congruence].
    unfold statusOf in Hc.
    destruct (positions (perform op db) !! id) as [p|] eqn:Hl; [|done].
    destruct Hwf' as [Hp _]. by apply Hp in Hl as [_ ?].
  - specialize (IH _ Hwf'). lia.
Qed.

Lemma effect_closed (db db' : Db) (id : Id) :
  effect db db' -> wf db -> statusOf db id = Some CLOSED ->
  (statusOf db' id = Some CLOSED \/ (statusOf db' id = None /\ ~ hasTransaction db id))
  /\ (hasTransaction db id -> hasTransaction db' id).
Proof.
  unfold statusOf, hasTransaction. intros He Hwf Hst.
  assert (Hlt : (id < nextId db)%N).
  { destruct (positions db !! id) as [p|] eqn:Hl; [|done].
    destruct Hwf as [Hp _]. by apply Hp in Hl as [_ ?]. }
  destruct He; cbn.
  - auto.
  - rewrite lookup_insert_ne by lia. split; [auto|].
    intros (k & q & Hk & Hq). exists k, q. split; [|done].
    rewrite lookup_insert_ne; [done|]. destruct Hwf as [_ Ht].
    apply Ht in Hk as (_ & ? & _). lia.
  - split.
    + rewrite lookup_insert. case_decide; [|auto]. cbn. left. congruence.
    + intros (k & q & Hk & Hq). exists k, q. split; [|done].
      rewrite lookup_insert_ne; [done|]. destruct Hwf as [_ Ht].
      apply Ht in Hk as (_ & ? & _). lia.
  - split; [|done]. rewrite lookup_insert. case_decide; [|auto].
    subst. rewrite H in Hst. cbn in *. left. congruence.
  - split; [|done]. rewrite lookup_delete. case_decide; [|auto].
    subst. right. split; [done|]. intros (k & q & Hk & Hq). by eapply H.
Qed.

Lemma effect_gone (db db' : Db) (id : Id) :
  effect db db' -> gone db id -> gone db' id.
Proof.
  unfold gone. intros He [Hlt Hl]. destruct He; cbn; [done | ..].
  - split; [lia|]. by rewrite lookup_insert_ne by lia.
  - split; [lia|]. rewrite lookup_insert_ne; [done|]. congruence.
  - split; [done|]. rewrite lookup_insert_ne; [done|]. congruence.
  - split; [done|]. rewrite lookup_delete. by case_decide.
Qed.

Lemma run_wf (ops : list PositionOp) (db : Db) : wf db -> wf (run ops db).
Proof.
  revert db. induction ops as [|op ops IH]; intros db Hwf; [done|].
  cbn. apply IH. eauto using effect_wf, perform_effect.
Qed.

Lemma run_gone (id : Id) (ops : list PositionOp) (db : Db) :
  gone db id -> gone (run ops db) id.
Proof.
  revert db. induction ops as [|op ops IH]; intros db Hg; [done|].
  cbn. apply IH. eauto using effect_gone, perform_effect.
Qed.

Lemma run_closed (id : Id) (ops : list PositionOp) (db : Db) :
  wf db -> statusOf db id = Some CLOSED ->
  (statusOf (run ops db) id = Some CLOSED \/ statusOf (run ops db) id = None)
  /\ (hasTransaction db id -> statusOf (run ops db) id = Some CLOSED).
Proof.
  revert db. induction ops as [|op ops IH]; intros db Hwf Hst; [by auto|].
  cbn [run fold_left]. fold (run ops (perform op db)).
  pose proof (perform_effect op db) as He.
  pose proof (effect_wf _ _ He Hwf) as Hwf'.
  destruct (effect_closed _ _ id He Hwf Hst) as [[Hc | [Hn Hno]] Hkeep].
  - destruct (IH _ Hwf' Hc) as [H1 H2]. split; [done|]. auto.
  - assert (Hg : gone (perform op db) id).
    { split.
      - unfold statusOf in Hst.
        destruct (positions db !! id) as [p|] eqn:Hl; [|done].
        destruct Hwf as [Hp _]. apply Hp in Hl as [_ ?].
        destruct He; cbn; lia.
      - unfold statusOf in Hn. by destruct (positions (perform op db) !! id). }
    apply (run_gone id ops) in Hg as [_ Hg]. split; [|done].
    right. unfold statusOf. by rewrite Hg.
Qed.

Lemma close_settled_throws (db : Db) (input : ClosePositionInput.t) :
  statusOf db (ClosePositionInput.positionId input) <> Some OPEN ->
  exists err, positionRouter.close input db = (Throw err, db).
Proof.
  unfold statusOf. intros Hst.
  destruct (ClosePositionSchema input) eqn:Hs.
  - destruct (positions db !! ClosePositionInput.positionId input) as [p|] eqn:Hl.
    + eexists. apply (close_not_open_eq db input p Hs Hl). cbn in Hst. congruence.
    + eexists. by apply close_missing_eq.
  - eexists. by apply close_invalid_eq.
Qed.

(** C4. Along every sequence of create, close, update and delete
    operations on a well-formed store, a position goes from OPEN to
    CLOSED at most once.  Once a position is CLOSED, after any further
    operations it is still CLOSED or it has been deleted; it is still
    CLOSED if it owns a transaction; and every close of it throws and
    leaves the store as it is. *)
Theorem closed_is_terminal (db : Db) (id : Id) (ops : list PositionOp) :
  wf db ->
  (closings id ops db <= 1)%nat
  /\ (statusOf db id = Some CLOSED ->
      let db' := run ops db in
      (statusOf db' id = Some CLOSED \/ statusOf db' id = None)
      /\ (hasTransaction db id -> statusOf db' id = Some CLOSED)
      /\ forall input : ClosePositionInput.t,
           ClosePositionInput.positionId input = id ->
           exists err, positionRouter.close input db' = (Throw err, db')).
Proof.
  intros Hwf. split; [by apply closings_le_1|].
  intros Hst db'. destruct (run_closed id ops db Hwf Hst) as [Hc Hkeep].
  split; [done|]. split; [done|].
  intros input <-. apply close_settled_throws.
  fold db' in Hc. destruct Hc as [-> | ->]; discriminate.
Qed.

Lemma closed_is_terminal_witness :
  (closings 10
     [OpClose Example.closeInput; OpClose Example.closeInput; OpDelete 10]
     Example.db1 <= 1)%nat
  /\ statusOf
       (run [OpUpdate (UpdatePositionInput.mk 10 None None None None None None
                         (Some "late note"));
             OpDelete 10; OpClose Example.closeInput;
             OpCreate Example.createInput] closedDb) 10 = Some CLOSED.
Proof.
  split.
  - apply (closed_is_terminal Example.db1 10
             [OpClose Example.closeInput; OpClose Example.closeInput; OpDelete 10]).
    exact wf_db1.
  - apply (closed_is_terminal closedDb 10).
    + split; refine (bool_decide_unpack _ _); vm_compute; exact I.
    + reflexivity.
    + exists 11%N, Example.buy. split; reflexivity.
Defined.

(** ** Deletes guarded by a count of dependent rows *)

Lemma count_owns {A} (T : Table A) (fk : A -> Id) (db : Db) (id : Id) :
  (0 <? length (List.filter (fun x => N.eqb (fk x) id) (prisma.all T db)))%nat = true
  <-> owns T fk db id.
Proof.
  rewrite Nat.ltb_lt. unfold owns, prisma.all. split.
  - intros Hlen.
    destruct (List.filter _ _) as [|x l] eqn:E; [cbn in Hlen; lia|].
    assert (Hin : In x (List.filter (fun x => N.eqb (fk x) id)
                          (map_to_list (rd T db)).*2)).
    { rewrite E. by left. }
    apply filter_In in Hin as [Hin Hfk].
    apply list_elem_of_In, elem_of_values in Hin as [k Hk].
    exists k, x. split; [done|]. by apply N.eqb_eq.
  - intros (k & x & Hk & Hfk).
    assert (Hin : In x (List.filter (fun x => N.eqb (fk x) id)
                          (map_to_list (rd T db)).*2)).
    { apply filter_In. split.
      - apply list_elem_of_In, elem_of_values. eauto.
      - by apply N.eqb_eq. }
    destruct (List.filter _ _); [done | cbn; lia].
Qed.

Lemma count_not_owns {A} (T : Table A) (fk : A -> Id) (db : Db) (id : Id) :
  ~ owns T fk db id ->
  (0 <? length (List.filter (fun x => N.eqb (fk x) id) (prisma.all T db)))%nat = false.
Proof.
  intros Hno. destruct (0 <? _)%nat eqn:E; [|done].
  by apply count_owns in E.
Qed.

(** C6. A delete of a position that owns a transaction, of an exchange
    that owns a stock, of a stock that owns a position or of a user that
    owns a position is refused ('Cannot delete ... with existing ...',
    status 400 on the REST surface) and the store is unchanged: the
    entity remains.  A delete of an existing entity that owns no such row
    succeeds and removes the entity from its table. *)
Theorem delete_refused_iff_dependents (db : Db) (id : Id) :
  (* positions *)
  (owns transactionT Transaction.positionId db id ->
   positionRouter.delete id db
   = (Throw (JsError "Cannot delete position with existing transactions"), db))
  /\ (~ owns transactionT Transaction.positionId db id ->
      is_Some (positions db !! id) ->
      exists db', positionRouter.delete id db = (Ok true, db')
                  /\ positions db' = base.delete id (positions db)
                  /\ positions db' !! id = None)
  (* exchanges *)
  /\ (owns stockT Stock.exchangeId db id ->
      exchangeRouter.delete id db
      = (Throw (JsError "Cannot delete exchange with existing stocks"), db)
      /\ exists r, exchangesController.delete id db = (r, db)
                   /\ statusCode r = 400 /\ success r = Some false
                   /\ error r = Some "Cannot delete exchange with existing stocks")
  /\ (~ owns stockT Stock.exchangeId db id ->
      is_Some (exchanges db !! id) ->
      (exists db', exchangeRouter.delete id db = (Ok true, db')
                   /\ exchanges db' = base.delete id (exchanges db)
                   /\ exchanges db' !! id = None)
      /\ exists r db', exchangesController.delete id db = (r, db')
                       /\ statusCode r = 200 /\ success r = Some true
                       /\ exchanges db' = base.delete id (exchanges db)
                       /\ exchanges db' !! id = None)
  (* stocks *)
  /\ (owns positionT Position.stockId db id ->
      stockRouter.delete id db
      = (Throw (JsError "Cannot delete stock with existing positions"), db))
  /\ (~ owns positionT Position.stockId db id ->
      is_Some (stocks db !! id) ->
      exists db', stockRouter.delete id db = (Ok true, db')
                  /\ stocks db' = base.delete id (stocks db)
                  /\ stocks db' !! id = None)
  (* users *)
  /\ (owns positionT Position.userId db id ->
      userRouter.delete id db
      = (Throw (JsError "Cannot delete user with existing positions"), db)
      /\ exists r, usersController.delete id db = (r, db)
                   /\ statusCode r = 400 /\ success r = Some false
                   /\ error r = Some "Cannot delete user with existing positions")
  /\ (~ owns positionT Position.userId db id ->
      is_Some (users db !! id) ->
      (exists db', userRouter.delete id db = (Ok true, db')
                   /\ users db' = base.delete id (users db)
                   /\ users db' !! id = None)
      /\ exists r db', usersController.delete id db = (r, db')
                       /\ statusCode r = 200 /\ success r = Some true
                       /\ users db' = base.delete id (users db)
                       /\ users db' !! id = None).
Proof.
  repeat match goal with |- _ /\ _ => split end.
  - intros Ho%count_owns.
    unfold positionRouter.delete, bind, prisma.count. by rewrite Ho.
  - intros Hn%count_not_owns [p Hp].
    unfold positionRouter.delete, bind, prisma.count, prisma.delete.
    rewrite Hn. cbn [rd positionT]. rewrite Hp. eexists. split; [reflexivity|].
    cbn. split; [done | apply lookup_delete_eq].
  - intros Ho%count_owns. split.
    + unfold exchangeRouter.delete, bind, prisma.count. by rewrite Ho.
    + unfold exchangesController.delete, asyncHandler, bind, prisma.count.
      rewrite Ho. eexists. split; [reflexivity|]. by cbn.
  - intros Hn%count_not_owns [p Hp]. split.
    + unfold exchangeRouter.delete, bind, prisma.count, prisma.delete.
      rewrite Hn. cbn [rd exchangeT]. rewrite Hp. eexists. split; [reflexivity|].
      cbn. split; [done | apply lookup_delete_eq].
    + unfold exchangesController.delete, asyncHandler, bind, prisma.count,
        prisma.delete.
      rewrite Hn. cbn [rd exchangeT]. rewrite Hp. do 2 eexists.
      split; [reflexivity|]. cbn. repeat split. apply lookup_delete_eq.
  - intros Ho%count_owns.
    unfold stockRouter.delete, bind, prisma.count. by rewrite Ho.
  - intros Hn%count_not_owns [p Hp].
    unfold stockRouter.delete, bind, prisma.count, prisma.deleteMany, prisma.delete.
    rewrite Hn. cbn [rd wr stockT priceHistoryT stocks]. rewrite Hp.
    eexists. split; [reflexivity|].
    cbn. split; [done | apply lookup_delete_eq].
  - intros Ho%count_owns. split.
    + unfold userRouter.delete, bind, prisma.count. by rewrite Ho.
    + unfold usersController.delete, asyncHandler, bind, prisma.count.
      rewrite Ho. eexists. split; [reflexivity|]. by cbn.
  - intros Hn%count_not_owns [p Hp]. split.
    + unfold userRouter.delete, bind, prisma.count, prisma.delete.
      rewrite Hn. cbn [rd userT]. rewrite Hp. eexists. split; [reflexivity|].
      cbn. split; [done | apply lookup_delete_eq].
    + unfold usersController.delete, asyncHandler, bind, prisma.count,
        prisma.delete.
      rewrite Hn. cbn [rd userT]. rewrite Hp. do 2 eexists.
      split; [reflexivity|]. cbn. repeat split. apply lookup_delete_eq.
Qed.

Lemma delete_refused_iff_dependents_witness :
  positionRouter.delete 10 Example.db1
  = (Throw (JsError "Cannot delete position with existing transactions"), Example.db1)
  /\ exists db', userRouter.delete 1 Example.db0 = (Ok true, db')
                 /\ users db' !! 1%N = None.
Proof.
  split.
  - apply (delete_refused_iff_dependents Example.db1 10).
    exists 11%N, Example.buy. split; reflexivity.
  - destruct (delete_refused_iff_dependents Example.db0 1)
      as (_ & _ & _ & _ & _ & _ & _ & Huser).
    destruct Huser as [(db' & Hrun & _ & Hgone) _].
    + intros (k & x & Hk & _). cbn in Hk. by rewrite lookup_empty in Hk.
    + eexists. reflexivity.
    + by exists db'.
Defined.

Example closings_counts_the_close :
  closings 10
    [OpClose Example.closeInput; OpClose Example.closeInput; OpDelete 10]
    Example.db1 = 1%nat.
Proof. vm_compute. reflexivity. Qed.

(** ** orderBy *)

Lemma insertBy_Permutation {A} (le : A -> A -> bool) (x : A) (l : list A) :
  Permutation (insertBy le x l) (x :: l).
Proof.
  induction l as [|y l IH]; cbn; [done|].
  destruct (le x y); [done|]. rewrite IH. constructor.
Qed.

Lemma sortBy_Permutation {A} (le : A -> A -> bool) (l : list A) :
  Permutation (sortBy le l) l.
Proof.
  induction l as [|x l IH]; cbn; [done|].
  rewrite insertBy_Permutation. by constructor.
Qed.

Lemma sortBy_length {A} (le : A -> A -> bool) (l : list A) :
  length (sortBy le l) = length l.
Proof. apply Permutation_length, sortBy_Permutation. Qed.

Lemma head_insertBy {A} (le : A -> A -> bool) (x : A) (l : list A) :
  head (insertBy le x l)
  = Some (match head l with
          | None => x
          | Some y => if le x y then x else y
          end).
Proof. destruct l as [|y l]; cbn; [done|]. by destruct (le x y). Qed.

Section HeadOfSorted.
Context {A : Type} (le : A -> A -> bool).
Hypothesis le_total : forall a b, le a b = false -> le b a = true.
Hypothesis le_trans : forall a b c, le a b = true -> le b c = true -> le a c = true.

Lemma le_refl a : le a a = true.
Proof.
  destruct (le a a) eqn:E; [done|]. pose proof (le_total a a E). congruence.
Qed.

Lemma head_sortBy_first (l : list A) :
  match head (sortBy le l) with
  | None => l = []
  | Some m => In m l /\ forall y, In y l -> le m y = true
  end.
Proof.
  induction l as [|x l IH]; [done|].
  cbn [sortBy fold_right]. fold (sortBy le l). rewrite head_insertBy.
  destruct (head (sortBy le l)) as [y|].
  - destruct IH as [Hin Hmin]. destruct (le x y) eqn:E.
    + split; [by left|]. intros z [<- | Hz]; [apply le_refl|].
      eapply le_trans; [exact E | by apply Hmin].
    + split; [by right|]. intros z [<- | Hz]; [by apply le_total | by apply Hmin].
  - subst l. split; [by left|]. intros z [<- | []]. apply le_refl.
Qed.
End HeadOfSorted.

(** ** watchlistRouter.getPriceAlerts *)

Lemma mapM_reads {A B} (f : A -> Handler B) (g : A -> B) (db : Db) (xs : list A) :
  (forall x, f x db = (Ok (g x), db)) ->
  mapM f xs db = (Ok (map g xs), db).
Proof.
  intros Hf. induction xs as [|x xs IH]; [done|].
  cbn [mapM]. unfold bind. rewrite Hf. unfold bind in IH. by rewrite IH.
Qed.

(** The rows that [getPriceAlerts] selects. *)
Lemma getPriceAlerts_eq (db : Db) (userId : Id) :
  let selected :=
    sortBy (fun a b => Watchlist.createdAt b <=? Watchlist.createdAt a)
      (List.filter (fun w => N.eqb (Watchlist.userId w) userId
                             && isSome (Watchlist.targetPrice w))
                   (prisma.all watchlistT db)) in
  watchlistRouter.getPriceAlerts userId db
  = (Ok (mkPriceAlerts (map (alertOf db) selected)
           (List.filter Alert.triggered (map (alertOf db) selected))), db).
Proof.
  cbv zeta. unfold watchlistRouter.getPriceAlerts, bind at 1.
  unfold prisma.findMany at 1. cbn [skipn].
  unfold bind at 1. erewrite mapM_reads; [reflexivity|].
  intros x. reflexivity.
Qed.

Lemma latestPriceOf_mostRecent (db : Db) (s : Id) :
  match fst (watchlistRouter.latestPriceOf s db) with
  | Ok (Some l) => mostRecent db s l
  | Ok None => forall k l, priceHistory db !! k = Some l -> PriceHistory.stockId l <> s
  | Throw _ => False
  end.
Proof.
  unfold watchlistRouter.latestPriceOf, prisma.findFirst. cbn [fst].
  set (le := fun a b : PriceHistory.t => PriceHistory.date b <=? PriceHistory.date a).
  set (rows := List.filter _ _).
  pose proof (head_sortBy_first le) as Hhead.
  specialize (Hhead ltac:(intros a b; unfold le; lia)
                    ltac:(intros a b c; unfold le; lia) rows).
  destruct (head (sortBy le rows)) as [l|].
  - destruct Hhead as [Hin Hmax]. subst rows.
    apply filter_In in Hin as [Hin Hs].
    apply list_elem_of_In, elem_of_values in Hin. apply N.eqb_eq in Hs.
    split; [done|]. split; [done|].
    intros k' l' Hk' Hs'. apply Z.leb_le. apply (Hmax l').
    apply filter_In. split.
    + apply list_elem_of_In, elem_of_values. eauto.
    + by apply N.eqb_eq.
  - intros k l Hk Hs.
    assert (Hin : In l rows).
    { apply filter_In. split.
      - apply list_elem_of_In, elem_of_values. eauto.
      - by apply N.eqb_eq. }
    rewrite Hhead in Hin. destruct Hin.
Qed.

Lemma mostRecent_unique (db : Db) (s : Id) (l1 l2 : PriceHistory.t) :
  priceHistoryUnique db -> mostRecent db s l1 -> mostRecent db s l2 -> l1 = l2.
Proof.
  intros Hu ([k1 Hk1] & Hs1 & Hmax1) ([k2 Hk2] & Hs2 & Hmax2).
  assert (Hk : k1 = k2).
  { apply (Hu k1 l1 Hk1 k2 l2 Hk2); [congruence|].
    pose proof (Hmax1 _ _ Hk2 Hs2). pose proof (Hmax2 _ _ Hk1 Hs1). lia. }
  subst k2. congruence.
Qed.



(** ** transactionRouter.update *)

Lemma tx_update_recompute_eq (db : Db) (input : UpdateTransactionInput.t)
    (t : Transaction.t) :
  let id := UpdateTransactionInput.id input in
  let quantity := UpdateTransactionInput.quantity input in
  let price := UpdateTransactionInput.price input in
  let newQuantity :=
    match quantity with Some q => q | None => Transaction.quantity t end in
  let newPrice :=
    match price with Some p => p | None => Transaction.price t end in
  UpdateTransactionSchema input = true ->
  isSome quantity || isSome price = true ->
  transactions db !! id = Some t ->
  transactionRouter.update input db =
    match toDecimal (int newQuantity * Number newPrice) with
    | Some tv =>
        let t' := transactionRouter.withTotal quantity price tv
                    (transactionRouter.otherUpdates input t) in
        (Ok t',
         mkDb (users db) (exchanges db) (stocks db) (priceHistory db)
              (positions db) (<[id := t']> (transactions db))
              (watchlist db) (nextId db))
    | None => (Throw (PrismaError "P2020"), db)
    end.
Proof.
  intros id quantity price newQuantity newPrice Hs Hb Hl.
  unfold transactionRouter.update, procedure. rewrite Hs.
  fold id quantity price. unfold bind at 1. rewrite Hb.
  unfold bind at 1, prisma.findUnique. cbn [rd transactionT]. rewrite Hl.
  unfold bind at 1, decimal.
  replace (match price with
           | Some price0 => Number price0
           | None => Number (Transaction.price t)
           end) with (Number newPrice) by (subst newPrice; by destruct price).
  replace (setReq quantity (Transaction.quantity t)) with newQuantity
    by (subst newQuantity; by destruct quantity).
  destruct (toDecimal _) as [tv|]; [|reflexivity].
  cbn [ret]. unfold bind, prisma.update. cbn [rd transactionT]. rewrite Hl.
  reflexivity.
Qed.

Lemma tx_update_missing_eq (db : Db) (input : UpdateTransactionInput.t) :
  UpdateTransactionSchema input = true ->
  isSome (UpdateTransactionInput.quantity input)
  || isSome (UpdateTransactionInput.price input) = true ->
  transactions db !! UpdateTransactionInput.id input = None ->
  transactionRouter.update input db
  = (Throw (JsError "Transaction not found"), db).
Proof.
  intros Hs Hb Hl. unfold transactionRouter.update, procedure. rewrite Hs.
  unfold bind at 1. rewrite Hb.
  unfold bind, prisma.findUnique. cbn [rd transactionT]. by rewrite Hl.
Qed.

Lemma tx_update_plain_eq (db : Db) (input : UpdateTransactionInput.t) :
  UpdateTransactionSchema input = true ->
  UpdateTransactionInput.quantity input = None ->
  UpdateTransactionInput.price input = None ->
  transactionRouter.update input db =
    match transactions db !! UpdateTransactionInput.id input with
    | Some t =>
        let t' := transactionRouter.otherUpdates input t in
        (Ok t',
         mkDb (users db) (exchanges db) (stocks db) (priceHistory db)
              (positions db)
              (<[UpdateTransactionInput.id input := t']> (transactions db))
              (watchlist db) (nextId db))
    | None => (Throw (PrismaError "P2025"), db)
    end.
Proof.
  intros Hs Hq Hp. unfold transactionRouter.update, procedure. rewrite Hs.
  rewrite Hq, Hp. cbn [isSome orb].
  unfold bind, ret, prisma.update. cbn [rd transactionT].
  by destruct (transactions db !! UpdateTransactionInput.id input).
Qed.

(** C8. A transaction update that provides quantity or price computes
    totalValue = (provided or existing quantity) * (provided or existing
    price), a product of JavaScript numbers, and throws 'Transaction not
    found' when no transaction has the id.  Where the product is finite
    its decimal is stored, together with the provided quantity and
    price.  An update that provides neither leaves totalValue, quantity
    and price as they are.  In both cases each of date, fees,
    executionTime, brokerRef, orderType and notes is the provided value
    if there is one and the stored value otherwise, and id, positionId
    and type are kept. *)
Theorem update_recomputes_totalValue (db : Db) (input : UpdateTransactionInput.t) :
  let id := UpdateTransactionInput.id input in
  let quantity := UpdateTransactionInput.quantity input in
  let price := UpdateTransactionInput.price input in
  let merged (t t' : Transaction.t) : Prop :=
    Transaction.date t'
    = match UpdateTransactionInput.date input with
      | Some d => d
      | None => Transaction.date t
      end
    /\ Transaction.fees t'
       = match UpdateTransactionInput.fees input with
         | Some f => f
         | None => Transaction.fees t
         end
    /\ Transaction.executionTime t'
       = match UpdateTransactionInput.executionTime input with
         | Some x => Some x
         | None => Transaction.executionTime t
         end
    /\ Transaction.brokerRef t'
       = match UpdateTransactionInput.brokerRef input with
         | Some r => Some r
         | None => Transaction.brokerRef t
         end
    /\ Transaction.orderType t'
       = match UpdateTransactionInput.orderType input with
         | Some o => Some o
         | None => Transaction.orderType t
         end
    /\ Transaction.notes t'
       = match UpdateTransactionInput.notes input with
         | Some n => Some n
         | None => Transaction.notes t
         end
    /\ Transaction.id t' = Transaction.id t
    /\ Transaction.positionId t' = Transaction.positionId t
    /\ Transaction.type t' = Transaction.type t in
  UpdateTransactionSchema input = true ->
  (quantity <> None \/ price <> None ->
     (transactions db !! id = None ->
      transactionRouter.update input db
      = (Throw (JsError "Transaction not found"), db))
     /\ (forall t, transactions db !! id = Some t ->
         let newQuantity :=
           match quantity with Some q => q | None => Transaction.quantity t end in
         let newPrice :=
           match price with Some p => p | None => Transaction.price t end in
         let totalValue := (int newQuantity * Number newPrice)%float in
         is_finite totalValue = true ->
         exists t' db',
           transactionRouter.update input db = (Ok t', db')
           /\ transactions db' = <[id := t']> (transactions db)
           /\ Some (Transaction.totalValue t') = toDecimal totalValue
           /\ Transaction.quantity t' = newQuantity
           /\ Transaction.price t' = newPrice
           /\ merged t t'))
  /\ (quantity = None -> price = None ->
      forall t, transactions db !! id = Some t ->
      exists t' db',
        transactionRouter.update input db = (Ok t', db')
        /\ transactions db' = <[id := t']> (transactions db)
        /\ Transaction.totalValue t' = Transaction.totalValue t
        /\ Transaction.quantity t' = Transaction.quantity t
        /\ Transaction.price t' = Transaction.price t
        /\ merged t t').
Proof.
  intros id quantity price merged Hs. split.
  - intros Hprov.
    assert (Hb : isSome quantity || isSome price = true).
    { destruct quantity, price; cbn; try done. by destruct Hprov. }
    split.
    + intros Hl. by apply tx_update_missing_eq.
    + intros t Hl newQuantity newPrice totalValue Hfin.
      pose proof (tx_update_recompute_eq db input t Hs Hb Hl) as Hrun.
      cbv zeta in Hrun. fold id quantity price newQuantity newPrice in Hrun.
      fold totalValue in Hrun.
      destruct (toDecimal_finite _ Hfin) as [tv Htv]. rewrite Htv in Hrun |- *.
      do 2 eexists. split; [exact Hrun|]. subst merged newQuantity newPrice.
      cbn. fold quantity price.
      destruct (UpdateTransactionInput.date input),
               (UpdateTransactionInput.fees input),
               (UpdateTransactionInput.executionTime input),
               (UpdateTransactionInput.brokerRef input),
               (UpdateTransactionInput.orderType input),
               (UpdateTransactionInput.notes input), quantity, price;
        cbn; repeat split.
  - intros Hq Hp t Hl.
    pose proof (tx_update_plain_eq db input Hs Hq Hp) as Hrun.
    fold id in Hrun. rewrite Hl in Hrun.
    do 2 eexists. split; [exact Hrun|]. subst merged.
    cbn.
    destruct (UpdateTransactionInput.date input),
             (UpdateTransactionInput.fees input),
             (UpdateTransactionInput.executionTime input),
             (UpdateTransactionInput.brokerRef input),
             (UpdateTransactionInput.orderType input),
             (UpdateTransactionInput.notes input);
      cbn; repeat split.
Qed.

Lemma update_recomputes_totalValue_witness :
  (exists db',
     transactionRouter.update Example.updateInput Example.db1
     = (Ok {| Transaction.id := 11; Transaction.positionId := 10;
              Transaction.type := BUY; Transaction.date := 1500;
              Transaction.quantity := 20; Transaction.price := 100;
              Transaction.totalValue := 2000; Transaction.fees := 7;
              Transaction.executionTime := Some 1501;
              Transaction.brokerRef := Some "REF-1";
              Transaction.orderType := Some "LIMIT";
              Transaction.notes := Some "resized" |}, db'))
  /\ (exists db',
        transactionRouter.update Example.notesInput Example.db1
        = (Ok {| Transaction.id := 11; Transaction.positionId := 10;
                 Transaction.type := BUY; Transaction.date := 1000;
                 Transaction.quantity := 10; Transaction.price := 100;
                 Transaction.totalValue := 1000; Transaction.fees := 5;
                 Transaction.executionTime := None;
                 Transaction.brokerRef := Some "REF-2";
                 Transaction.orderType := None;
                 Transaction.notes := Some "checked" |}, db')).
Proof.
  destruct (update_recomputes_totalValue Example.db1 Example.updateInput eq_refl)
    as [Hre _].
  destruct (update_recomputes_totalValue Example.db1 Example.notesInput eq_refl)
    as [_ Hplain].
  split.
  - destruct Hre as [_ Hfound]; [by left|].
    destruct (Hfound Example.buy eq_refl eq_refl) as (t' & db' & Hrun & _).
    exists db'. rewrite Hrun. vm_compute in Hrun. by injection Hrun as <- _.
  - destruct (Hplain eq_refl eq_refl Example.buy eq_refl)
      as (t' & db' & Hrun & _).
    exists db'. rewrite Hrun. vm_compute in Hrun. by injection Hrun as <- _.
Defined.

(** ** Portfolio summary *)




(** ** Substring search *)

Lemma append_cons (c : ascii) (s t : string) :
  (String c s ++ t)%string = String c (s ++ t)%string.
Proof. reflexivity. Qed.

Lemma append_nil (t : string) : (EmptyString ++ t)%string = t.
Proof. reflexivity. Qed.

Lemma prefix_app (needle hay : string) :
  String.prefix needle hay = true <-> exists suf, hay = (needle ++ suf)%string.
Proof.
  revert hay. induction needle as [|c needle IH]; intros hay.
  - destruct hay; cbn; (split; [intros _; by eexists | done]).
  - destruct hay as [|d hay]; cbn; [split; [done | by intros [suf ?]]|].
    destruct (Ascii.ascii_dec c d) as [->|Hne].
    + rewrite IH. split; intros [suf Hs]; exists suf;
        rewrite append_cons in *; congruence.
    + split; [done|]. intros [suf Hs]. rewrite append_cons in Hs. congruence.
Qed.

Lemma infix_app (needle hay : string) :
  infix needle hay = true
  <-> exists pre suf, hay = (pre ++ needle ++ suf)%string.
Proof.
  induction hay as [|d hay IH]; cbn [infix]; rewrite orb_true_iff, prefix_app.
  - split.
    + intros [[suf Hs] | ?]; [|done]. by exists EmptyString, suf.
    + intros (pre & suf & Hs). left.
      destruct pre; [by exists suf | by rewrite append_cons in Hs].
  - rewrite IH. split.
    + intros [[suf Hs] | (pre & suf & Hs)].
      * by exists EmptyString, suf.
      * exists (String d pre), suf. by rewrite append_cons, Hs.
    + intros (pre & suf & Hs). destruct pre as [|c pre].
      * left. by exists suf.
      * right. exists pre, suf. rewrite append_cons in Hs. congruence.
Qed.

Lemma containsInsensitive_occursIn (search field : string) :
  containsInsensitive search field = true <-> occursIn search field.
Proof. apply infix_app. Qed.

(** ** List operations *)

Lemma List_filter_decide {A} (f : A -> bool) (P : A -> Prop)
    `{forall x, Decision (P x)} (l : list A) :
  (forall x, f x = true <-> P x) -> List.filter f l = filter P l.
Proof.
  intros Hf. induction l as [|x l IH]; [done|].
  rewrite filter_cons. cbn [List.filter]. rewrite IH.
  destruct (f x) eqn:E; case_decide as HP; try done.
  - by apply Hf in E.
  - apply Hf in HP. congruence.
Qed.

Lemma N_eqb_opt_holds (provided : option Id) (v : Id) :
  N_eqb_opt provided v = true <-> filterHolds provided (fun i => v = i).
Proof. destruct provided; cbn; [apply N.eqb_eq | done]. Qed.

Lemma PositionStatus_eqb_eq (a b : PositionStatus) :
  PositionStatus_eqb a b = true <-> a = b.
Proof. by destruct a, b. Qed.

Lemma TransactionType_eqb_eq (a b : TransactionType) :
  TransactionType_eqb a b = true <-> a = b.
Proof. by destruct a, b. Qed.

Lemma paged {A} (T : Table A) (where_ : A -> bool) (le : A -> A -> bool)
    (P : A -> Prop) `{forall x, Decision (P x)} (limit offset : Z) (db : Db) :
  (forall x, where_ x = true <-> P x) ->
  1 <= limit ->
  let matching := List.filter where_ (prisma.all T db) in
  pageContract
    (mkPage (firstn (Z.to_nat limit) (skipn (Z.to_nat offset) (sortBy le matching)))
            (length matching)
            (offset + limit <? Z.of_nat (length matching)))
    limit offset (filter P (prisma.all T db)).
Proof.
  intros HP Hl matching. unfold pageContract. cbn [hasMore items total].
  split; [apply Z.ltb_lt|]. split.
  - pose proof (firstn_le_length (Z.to_nat limit)
                  (skipn (Z.to_nat offset) (sortBy le matching))). lia.
  - unfold matching. by rewrite (List_filter_decide where_ P).
Qed.

Lemma pageSchema_ok (max limit offset : Z) :
  pageSchema max limit offset = true -> 1 <= limit /\ limit <= max /\ 0 <= offset.
Proof. unfold pageSchema. lia. Qed.

Lemma positionWhere_matches (input : GetPositionsInput.t) (p : Position.t) :
  positionRouter.listWhere input p = true <-> positionMatches input p.
Proof.
  unfold positionRouter.listWhere, positionMatches.
  rewrite !andb_true_iff, N.eqb_eq, N_eqb_opt_holds.
  destruct (GetPositionsInput.status input); cbn;
    rewrite ?PositionStatus_eqb_eq; tauto.
Qed.

Lemma transactionWhere_matches (db : Db) (input : GetTransactionsInput.t)
    (t : Transaction.t) :
  transactionRouter.listWhere db input t = true <-> transactionMatches db input t.
Proof.
  unfold transactionRouter.listWhere, transactionMatches, transactionRouter.ownedBy.
  rewrite !andb_true_iff, N_eqb_opt_holds.
  assert (Hu : match GetTransactionsInput.userId input with
               | Some u => match positions db !! Transaction.positionId t with
                           | Some p => N.eqb (Position.userId p) u
                           | None => false
                           end
               | None => true
               end = true
               <-> filterHolds (GetTransactionsInput.userId input)
                     (fun u => Position.userId <$> positions db !! Transaction.positionId t
                               = Some u)).
  { destruct (GetTransactionsInput.userId input) as [u|]; cbn; [|done].
    destruct (positions db !! Transaction.positionId t) as [p|]; cbn; [|done].
    rewrite N.eqb_eq. split; congruence. }
  rewrite Hu.
  destruct (GetTransactionsInput.type input),
           (GetTransactionsInput.startDate input),
           (GetTransactionsInput.endDate input); cbn;
    rewrite ?TransactionType_eqb_eq, ?Z.leb_le; tauto.
Qed.

Lemma optString_eqb_eq (o : option string) (s : string) :
  optString_eqb o s = true <-> o = Some s.
Proof.
  destruct o as [x|]; cbn; [|done]. rewrite String.eqb_eq. split; congruence.
Qed.

Lemma containsInsensitive_empty (field : string) :
  containsInsensitive "" field = true.
Proof. unfold containsInsensitive. cbn. by destruct (lower field). Qed.

Lemma stockWhere_matches (input : ListStocksInput.t) (s : Stock.t) :
  stockRouter.listWhere input s = true <-> stockMatches input s.
Proof.
  unfold stockRouter.listWhere, stockMatches.
  rewrite !andb_true_iff, N_eqb_opt_holds.
  assert (Hsec : (if truthy (ListStocksInput.sector input)
                  then match ListStocksInput.sector input with
                       | Some x => optString_eqb (Stock.sector s) x
                       | None => true
                       end
                  else true) = true
                 <-> filterHolds (ListStocksInput.sector input)
                       (fun x => x <> "" -> Stock.sector s = Some x)).
  { destruct (ListStocksInput.sector input) as [[|c x]|]; cbn; [done | | done].
    rewrite optString_eqb_eq. split; [done|]. intros Hx. by apply Hx. }
  assert (Hsearch : (if truthy (ListStocksInput.search input)
                     then match ListStocksInput.search input with
                          | Some x => containsInsensitive x (Stock.symbol s)
                                      || containsInsensitive x (Stock.name s)
                          | None => true
                          end
                     else true) = true
                    <-> filterHolds (ListStocksInput.search input)
                          (fun x => containsInsensitive x (Stock.symbol s) = true
                                    \/ containsInsensitive x (Stock.name s) = true)).
  { destruct (ListStocksInput.search input) as [[|c x]|]; cbn [truthy nonEmpty filterHolds].
    - split; [|done]. intros _. left. apply containsInsensitive_empty.
    - apply orb_true_iff.
    - done. }
  rewrite Hsec, Hsearch.
  destruct (ListStocksInput.isActive input) as [b|]; cbn; [|tauto].
  destruct (Stock.isActive s), b; cbn; intuition congruence.
Qed.

Lemma watchlistWhere_matches (input : ListWatchlistInput.t) (w : Watchlist.t) :
  N.eqb (Watchlist.userId w) (ListWatchlistInput.userId input) = true
  <-> watchlistMatches input w.
Proof. apply N.eqb_eq. Qed.

Lemma numberOr_limit (q : GetUsersQuery.t) :
  getUsersValidation q = true ->
  numberOr (GetUsersQuery.limit q) 50 = default 50 (GetUsersQuery.limit q)
  /\ numberOr (GetUsersQuery.offset q) 0 = default 0 (GetUsersQuery.offset q)
  /\ 1 <= default 50 (GetUsersQuery.limit q).
Proof.
  unfold getUsersValidation, numberOr.
  destruct (GetUsersQuery.limit q) as [l|], (GetUsersQuery.offset q) as [o|]; cbn;
    intros Hv; repeat split; try lia;
    try (destruct (Z.eqb_spec l 0); lia);
    try (destruct (Z.eqb_spec o 0); lia).
Qed.

(** C9 as stated fails for the stock list: with one stock of sector
    "Tech" in the store and a query whose sector is the empty string, no
    row matches the provided sector, yet the returned total is 1. *)
Lemma stock_list_total_ignores_empty_sector :
  exists page : Page Stock.t,
    stockRouter.list emptySectorQuery Example.db1 = (Ok page, Example.db1)
    /\ total page = 1%nat
    /\ length (filter (stockMatchesProvided emptySectorQuery)
                      (prisma.all stockT Example.db1)) = 0%nat.
Proof.
  eexists. split; [|split].
  - vm_compute. reflexivity.
  - reflexivity.
  - vm_compute. reflexivity.
Qed.

(** C9, amended.  For the list operations of positions, transactions,
    users (procedure and REST handler), stocks and watchlist, with limit
    [L] and offset [O] accepted by the schema: hasMore holds exactly when
    O + L < total, at most L items are returned, and total is the number
    of rows that satisfy every provided filter, where the stock list
    skips a sector given as the empty string. *)
Theorem list_pagination_contract (db : Db) :
  (forall input : GetPositionsInput.t,
     GetPositionsSchema input = true ->
     exists page,
       positionRouter.list input db = (Ok page, db)
       /\ pageContract page (GetPositionsInput.limit input)
            (GetPositionsInput.offset input)
            (filter (positionMatches input) (prisma.all positionT db)))
  /\ (forall input : GetTransactionsInput.t,
        GetTransactionsSchema input = true ->
        exists page,
          transactionRouter.list input db = (Ok page, db)
          /\ pageContract page (GetTransactionsInput.limit input)
               (GetTransactionsInput.offset input)
               (filter (transactionMatches db input) (prisma.all transactionT db)))
  /\ (forall input : PageInput.t,
        pageSchema 100 (PageInput.limit input) (PageInput.offset input) = true ->
        exists page,
          userRouter.list input db = (Ok page, db)
          /\ pageContract page (PageInput.limit input) (PageInput.offset input)
               (prisma.all userT db))
  /\ (forall q : GetUsersQuery.t,
        getUsersValidation q = true ->
        exists resp page,
          usersController.list q db = (resp, db)
          /\ statusCode resp = 200 /\ data resp = Some page
          /\ pageContract page (default 50 (GetUsersQuery.limit q))
               (default 0 (GetUsersQuery.offset q))
               (prisma.all userT db))
  /\ (forall input : ListStocksInput.t,
        pageSchema 200 (ListStocksInput.limit input) (ListStocksInput.offset input)
        = true ->
        exists page,
          stockRouter.list input db = (Ok page, db)
          /\ pageContract page (ListStocksInput.limit input)
               (ListStocksInput.offset input)
               (filter (stockMatches input) (prisma.all stockT db)))
  /\ (forall input : ListWatchlistInput.t,
        pageSchema 100 (ListWatchlistInput.limit input)
          (ListWatchlistInput.offset input) = true ->
        exists page,
          watchlistRouter.list input db = (Ok page, db)
          /\ pageContract page (ListWatchlistInput.limit input)
               (ListWatchlistInput.offset input)
               (filter (watchlistMatches input) (prisma.all watchlistT db))).
Proof.
  repeat match goal with |- _ /\ _ => split end.
  - intros input Hs. eexists. split.
    + unfold positionRouter.list, procedure. rewrite Hs. reflexivity.
    + apply paged; [apply positionWhere_matches|].
      unfold GetPositionsSchema in Hs. lia.
  - intros input Hs. eexists. split.
    + unfold transactionRouter.list, procedure. rewrite Hs. reflexivity.
    + apply paged; [apply transactionWhere_matches|].
      unfold GetTransactionsSchema in Hs. lia.
  - intros input Hs. eexists. split.
    + unfold userRouter.list, procedure. rewrite Hs. reflexivity.
    + apply pageSchema_ok in Hs as (Hl & _ & _).
      pose proof (paged userT (fun _ => true)
                    (fun a b => User.createdAt b <=? User.createdAt a)
                    (fun _ => True) (PageInput.limit input) (PageInput.offset input)
                    db ltac:(done) Hl) as Hp.
      cbv zeta in Hp.
      replace (filter (fun _ => True) (prisma.all userT db))
        with (prisma.all userT db) in Hp; [exact Hp|].
      generalize (prisma.all userT db). intros l.
      induction l as [|x l IH]; [done|]. rewrite filter_cons_True by done. by f_equal.
  - intros q Hs. destruct (numberOr_limit q Hs) as (Hl & Ho & Hpos).
    do 2 eexists. split; [|split; [|split]].
    + unfold usersController.list, asyncHandler, validated. rewrite Hs.
      rewrite Hl, Ho. reflexivity.
    + reflexivity.
    + reflexivity.
    + pose proof (paged userT (fun _ => true)
                    (fun a b => User.createdAt b <=? User.createdAt a)
                    (fun _ => True) (default 50 (GetUsersQuery.limit q))
                    (default 0 (GetUsersQuery.offset q))
                    db ltac:(done) Hpos) as Hp.
      cbv zeta in Hp.
      replace (filter (fun _ => True) (prisma.all userT db))
        with (prisma.all userT db) in Hp; [exact Hp|].
      generalize (prisma.all userT db). intros l.
      induction l as [|x l IH]; [done|]. rewrite filter_cons_True by done. by f_equal.
  - intros input Hs. eexists. split.
    + unfold stockRouter.list, procedure. rewrite Hs. reflexivity.
    + apply paged; [apply stockWhere_matches|].
      by apply pageSchema_ok in Hs as (Hl & _ & _).
  - intros input Hs. eexists. split.
    + unfold watchlistRouter.list, procedure. rewrite Hs. reflexivity.
    + apply paged; [apply watchlistWhere_matches|].
      by apply pageSchema_ok in Hs as (Hl & _ & _).
Qed.

Lemma list_pagination_contract_witness :
  exists page : Page Stock.t,
    stockRouter.list emptySectorQuery Example.db1 = (Ok page, Example.db1)
    /\ pageContract page 50 0
         (filter (stockMatches emptySectorQuery) (prisma.all stockT Example.db1))
    /\ hasMore page = false
    /\ map Stock.symbol (items page) = ["ACME"].
Proof.
  destruct (list_pagination_contract Example.db1) as (_ & _ & _ & _ & Hstock & _).
  destruct (Hstock emptySectorQuery) as (page & Hrun & Hc).
  - reflexivity.
  - exists page. split; [exact Hrun|]. split; [exact Hc|].
    vm_compute in Hrun. injection Hrun as <-. split; reflexivity.
Defined.
(** * Further properties *)

(** ** What the writing procedures do to the store *)

Lemma existsb_noUnique {A} (x : A) (l : list A) : existsb (noUnique x) l = false.
Proof. induction l; cbn; auto. Qed.

Lemma insertMany_effect (rows : list (CreateTransactionInput.t * Q)) (db : Db) :
  Forall (fun row =>
            is_Some (positions db !! CreateTransactionInput.positionId (fst row)))
         rows ->
  Forall bulkTotalled rows ->
  apiEffect db (snd (insertMany transactionT noUnique (bulkData rows) db)).
Proof.
  revert db. induction rows as [|[i tv] rows IH]; intros db Hfk Htv; [constructor|].
  cbn [bulkData map insertMany fst snd]. rewrite existsb_noUnique.
  cbn [prisma.create].
  inversion Hfk as [|? ? Hi Hrest]; subst.
  inversion Htv as [|? ? Hv Hvrest]; subst.
  eapply ae_trans; [apply (ae_tx_insert db i tv Hi Hv)|].
  specialize (IH (withTables db (positions db)
                    (<[nextId db := transactionOfInput i tv (nextId db)]>
                       (transactions db))
                    (N.succ (nextId db))) Hrest Hvrest).
  unfold withTables, bulkData in *. cbn in *.
  destruct (insertMany _ _ _ _) as [n db2]. cbn in *. exact IH.
Qed.

(** The conversion of the totals of a batch either gives the decimal of
    each total or throws; it does not touch the store. *)
Lemma bulk_decimals (inputs : list CreateTransactionInput.t) (db : Db) :
  let m :=
    mapM (fun row : CreateTransactionInput.t * float =>
            let* storedTotalValue := decimal (snd row) in
            ret (transactionOfInput (fst row) storedTotalValue))
         (map (fun t =>
                 (t, (int (CreateTransactionInput.quantity t)
                      * Number (CreateTransactionInput.price t))%float))
              inputs) in
  (exists rows, map fst rows = inputs /\ Forall bulkTotalled rows
                /\ m db = (Ok (bulkData rows), db))
  \/ (exists err, m db = (Throw err, db)).
Proof.
  cbv zeta.
  set (f := fun row : CreateTransactionInput.t * float => bind _ _).
  set (g := fun t : CreateTransactionInput.t => (t, _)).
  induction inputs as [|i inputs IH].
  { left. exists []. by repeat split. }
  assert (Hf : f (g i) db
               = match toDecimal (int (CreateTransactionInput.quantity i)
                                  * Number (CreateTransactionInput.price i)) with
                 | Some tv => (Ok (transactionOfInput i tv), db)
                 | None => (Throw (PrismaError "P2020"), db)
                 end).
  { subst f g. cbn [fst snd]. unfold bind, decimal. destruct (toDecimal _); reflexivity. }
  cbn [map mapM]. unfold bind. rewrite Hf.
  destruct (toDecimal _) as [tv|] eqn:Htv; [|right; eexists; reflexivity].
  destruct IH as [(rows & Hrows & Hall & ->) | [err ->]];
    [|right; eexists; reflexivity].
  left. exists ((i, tv) :: rows). split; [by cbn; rewrite Hrows|].
  split; [by constructor|]. reflexivity.
Qed.

Lemma tx_create_eq (db : Db) (input : CreateTransactionInput.t) :
  CreateTransactionSchema input = true ->
  is_Some (positions db !! CreateTransactionInput.positionId input) ->
  appRouter.transaction.create input db
  = match toDecimal (int (CreateTransactionInput.quantity input)
                     * Number (CreateTransactionInput.price input)) with
    | Some tv =>
        (Ok (transactionOfInput input tv (nextId db)),
         withTables db (positions db)
           (<[nextId db := transactionOfInput input tv (nextId db)]>
              (transactions db))
           (N.succ (nextId db)))
    | None => (Throw (PrismaError "P2020"), db)
    end.
Proof.
  intros Hs [p Hp]. unfold appRouter.transaction.create, procedure. rewrite Hs.
  unfold bind at 1, decimal. destruct (toDecimal _) as [tv|]; [|reflexivity].
  cbn [ret]. unfold bind, createChecked, transaction_fk, hasRow. cbn. by rewrite Hp.
Qed.

Lemma tx_create_dangling_eq (db : Db) (input : CreateTransactionInput.t) :
  CreateTransactionSchema input = true ->
  positions db !! CreateTransactionInput.positionId input = None ->
  exists err, appRouter.transaction.create input db = (Throw err, db).
Proof.
  intros Hs Hp. unfold appRouter.transaction.create, procedure. rewrite Hs.
  unfold bind at 1, decimal. destruct (toDecimal _) as [tv|]; [|by eexists].
  cbn [ret]. unfold bind, createChecked, transaction_fk, hasRow. cbn. rewrite Hp.
  by eexists.
Qed.

Lemma apiStep_effect (op : ApiOp) (db : Db) : apiEffect db (apiStep op db).
Proof.
  destruct op as [[input|input|input|id]|input|input|id|inputs]; cbn [apiStep perform].
  - destruct (CreatePositionSchema input) eqn:Hs.
    + destruct (users db !! CreatePositionInput.userId input) as [u|] eqn:Hu.
      * destruct (stocks db !! CreatePositionInput.stockId input) as [s|] eqn:Hst.
        -- rewrite create_eq by eauto. cbv zeta.
           destruct (toDecimal (int _ * _)) as [tbv|] eqn:Htbv; [|constructor].
           destruct (toDecimal (_ + _)) as [cap|] eqn:Hcap; [|constructor].
           cbn [snd]. by apply ae_create.
        -- destruct (create_rejected_eq db input Hs) as [err ->]; [auto|].
           constructor.
      * destruct (create_rejected_eq db input Hs) as [err ->]; [auto|].
        constructor.
    + rewrite (create_invalid_eq db input Hs). constructor.
  - destruct (ClosePositionSchema input) eqn:Hs.
    + destruct (positions db !! ClosePositionInput.positionId input) as [p|] eqn:Hl.
      * destruct (decide (Position.status p = OPEN)) as [Ho|Hn].
        -- rewrite (close_open_eq db input p Hs Hl Ho). cbv zeta.
           destruct (toDecimal (int _ * _)) as [tsv|] eqn:Htsv; [|constructor].
           destruct (toDecimal (_ - _)) as [pnl|] eqn:Hpnl; [|constructor].
           destruct (toDecimal (_ * 100)) as [rp|] eqn:Hrp; [|constructor].
           cbn [snd]. by apply ae_close.
        -- rewrite (close_not_open_eq db input p Hs Hl Hn). constructor.
      * rewrite (close_missing_eq db input Hs Hl). constructor.
    + rewrite (close_invalid_eq db input Hs). constructor.
  - destruct (UpdatePositionSchema input) eqn:Hs.
    + destruct (positions db !! UpdatePositionInput.id input) as [p|] eqn:Hl.
      * rewrite (update_found_eq db input p Hs Hl). cbn [snd]. by apply ae_update.
      * destruct (update_missing_eq db input Hl) as [err ->]. constructor.
    + unfold positionRouter.update, procedure. rewrite Hs. constructor.
  - unfold positionRouter.delete, bind, prisma.count.
    destruct (0 <? length _)%nat eqn:Hc; [constructor|].
    unfold prisma.delete. cbn [rd positionT].
    destruct (positions db !! id) as [p|] eqn:Hl; [|constructor].
    cbn. apply ae_delete. intros k t Hk Heq.
    assert (Ho : owns transactionT Transaction.positionId db id) by (by exists k, t).
    apply count_owns in Ho. congruence.
  - destruct (CreateTransactionSchema input) eqn:Hs.
    + destruct (positions db !! CreateTransactionInput.positionId input) eqn:Hp.
      * rewrite tx_create_eq by eauto.
        destruct (toDecimal _) as [tv|] eqn:Htv; [|constructor].
        cbn [snd]. apply ae_tx_insert; [by eexists | done].
      * destruct (tx_create_dangling_eq db input Hs Hp) as [err ->]. constructor.
    + unfold appRouter.transaction.create, procedure. rewrite Hs. constructor.
  - destruct (UpdateTransactionSchema input) eqn:Hs.
    2: { unfold transactionRouter.update, procedure. rewrite Hs. constructor. }
    destruct (isSome (UpdateTransactionInput.quantity input)
              || isSome (UpdateTransactionInput.price input)) eqn:Hb.
    + destruct (transactions db !! UpdateTransactionInput.id input) as [t|] eqn:Hl.
      * rewrite (tx_update_recompute_eq db input t Hs Hb Hl). cbv zeta.
        destruct (toDecimal _) as [tv|] eqn:Htv; [|constructor].
        cbn [snd]. pose proof (ae_tx_update db input t tv Hl) as He.
        unfold updatedTransaction in He. rewrite Hb in He. apply He.
        intros _. unfold newTotalValue.
        destruct (UpdateTransactionInput.quantity input),
                 (UpdateTransactionInput.price input); exact Htv.
      * rewrite (tx_update_missing_eq db input Hs Hb Hl). constructor.
    + apply orb_false_iff in Hb as [Hq Hp].
      assert (Hq' : UpdateTransactionInput.quantity input = None)
        by (by destruct (UpdateTransactionInput.quantity input)).
      assert (Hp' : UpdateTransactionInput.price input = None)
        by (by destruct (UpdateTransactionInput.price input)).
      rewrite (tx_update_plain_eq db input Hs Hq' Hp').
      destruct (transactions db !! UpdateTransactionInput.id input) as [t|] eqn:Hl;
        [|constructor].
      cbn [snd]. pose proof (ae_tx_update db input t 0%Q Hl) as He.
      unfold updatedTransaction in He. rewrite Hq', Hp' in He. cbn in He.
      apply He. discriminate.
  - unfold appRouter.transaction.delete, bind, prisma.delete. cbn [rd transactionT].
    destruct (transactions db !! id); [|constructor]. cbn. apply ae_tx_delete.
  - unfold appRouter.transaction.createBulk, procedure.
    destruct (forallb CreateTransactionSchema inputs); [|constructor].
    unfold bind at 1.
    destruct (bulk_decimals inputs db) as [(rows & Hrows & Hall & ->) | [err ->]];
      [|constructor].
    unfold bind, createMany.
    destruct (forallb _ (bulkData rows)) eqn:Hfk; [|constructor].
    pose proof (insertMany_effect rows db) as He.
    destruct (insertMany _ _ _ _) as [n db'] eqn:E. cbn in *. apply He; [|done].
    apply Forall_forall. intros row Hrow.
    rewrite forallb_forall in Hfk.
    specialize (Hfk (transactionOfInput (fst row) (snd row))
                  (in_map (fun row => transactionOfInput (fst row) (snd row)) _ _
                     (proj1 (list_elem_of_In _ _) Hrow))).
    unfold transaction_fk, hasRow in Hfk. cbn in Hfk.
    destruct (positions db !! CreateTransactionInput.positionId (fst row));
      [by eexists | done].
Qed.

Lemma apiEffect_wf (db db' : Db) : apiEffect db db' -> wf db -> wf db'.
Proof.
  induction 1 as [db|db input tbv cap Hs Htbv Hcap
                  |db input p tsv pnl rp Hl Ho Htsv Hpnl Hrp
                  |db input p Hl|db i Hno
                  |db input tv Hp Htv|db input t tv Hl Htv|db i
                  |db db1 db2 _ IH1 _ IH2];
    intros Hwf; [done | .. | by auto]; destruct Hwf as [Hp' Ht']; split; cbn.
  - apply map_Forall_insert_2; [split; [done | lia]|].
    intros k q Hk. apply Hp' in Hk as [? ?]. split; [done | lia].
  - apply map_Forall_insert_2.
    + split; [done|]. split; [lia|]. cbn. rewrite lookup_insert_eq. by eexists.
    + intros k q Hk. apply Ht' in Hk as (? & ? & [r Hr]). split; [done|].
      split; [lia|]. rewrite lookup_insert. case_decide; by eexists.
  - apply map_Forall_insert_2.
    + apply Hp' in Hl as [? ?]. split; [done | lia].
    + intros k q Hk. apply Hp' in Hk as [? ?]. split; [done | lia].
  - apply map_Forall_insert_2.
    + split; [done|]. split; [lia|]. cbn. rewrite lookup_insert_eq. by eexists.
    + intros k q Hk. apply Ht' in Hk as (? & ? & [r Hr]). split; [done|].
      split; [lia|]. rewrite lookup_insert. case_decide; by eexists.
  - apply map_Forall_insert_2; [|done].
    apply Hp' in Hl as [? ?]. split; [done | lia].
  - intros k q Hk. apply Ht' in Hk as (? & ? & [r Hr]). split; [done|].
    split; [lia|]. rewrite lookup_insert. case_decide; by eexists.
  - intros k q Hk. apply lookup_delete_Some in Hk as [_ Hk]. by apply Hp' in Hk.
  - intros k q Hk. pose proof (Hno k q Hk) as Hne.
    apply Ht' in Hk as (? & ? & [r Hr]). split; [done|]. split; [done|].
    rewrite lookup_delete_ne by done. by eexists.
  - intros k q Hk. apply Hp' in Hk as [? ?]. split; [done | lia].
  - apply map_Forall_insert_2.
    + split; [done|]. split; [lia | done].
    + intros k q Hk. apply Ht' in Hk as (? & ? & ?). split; [done|].
      split; [lia | done].
  - done.
  - apply map_Forall_insert_2.
    + apply Ht' in Hl as (? & ? & ?). unfold updatedTransaction.
      destruct (isSome _ || isSome _); cbn; done.
    + done.
  - done.
  - intros k q Hk. apply lookup_delete_Some in Hk as [_ Hk]. by apply Ht' in Hk.
Qed.

Lemma apiEffect_coherent (db db' : Db) :
  apiEffect db db' ->
  map_Forall (fun _ p => coherent p) (positions db) ->
  map_Forall (fun _ p => coherent p) (positions db').
Proof.
  induction 1 as [db|db input tbv cap Hs Htbv Hcap
                  |db input p tsv pnl rp Hl Ho Htsv Hpnl Hrp
                  |db input p Hl|db i Hno
                  |db input tv Hp Htv|db input t tv Hl Htv|db i
                  |db db1 db2 _ IH1 _ IH2];
    intros Hc; cbn; try done; [ | | | | by auto].
  - apply map_Forall_insert_2; [|done]. unfold coherent. cbn.
    by rewrite Htbv, Hcap.
  - apply map_Forall_insert_2; [|done].
    destruct (Hc _ _ Hl) as (Htb & Hca & _).
    split; [done|]. split; [done|]. cbn.
    exists (ClosePositionInput.closeDate input),
           (ClosePositionInput.exitPrice input),
           (ClosePositionInput.sellFees input).
    rewrite Htsv, Hpnl, Hrp. by repeat split.
  - apply map_Forall_insert_2; [|done]. exact (Hc _ _ Hl).
  - intros k q Hk. apply lookup_delete_Some in Hk as [_ Hk]. by apply Hc in Hk.
Qed.

Lemma apiEffect_totalled (db db' : Db) :
  apiEffect db db' ->
  map_Forall (fun _ t => totalled t) (transactions db) ->
  map_Forall (fun _ t => totalled t) (transactions db').
Proof.
  induction 1 as [db|db input tbv cap Hs Htbv Hcap
                  |db input p tsv pnl rp Hl Ho Htsv Hpnl Hrp
                  |db input p Hl|db i Hno
                  |db input tv Hp Htv|db input t tv Hl Htv|db i
                  |db db1 db2 _ IH1 _ IH2];
    intros Hc; cbn; try done; [ | | | | | by auto].
  - apply map_Forall_insert_2; [|done]. unfold totalled. cbn. by rewrite Htbv.
  - apply map_Forall_insert_2; [|done]. unfold totalled. cbn. by rewrite Htsv.
  - apply map_Forall_insert_2; [|done]. unfold totalled. cbn. by rewrite Htv.
  - apply map_Forall_insert_2; [|done].
    pose proof (Hc _ _ Hl) as Ht.
    unfold totalled, updatedTransaction, newTotalValue in *.
    destruct (UpdateTransactionInput.quantity input),
             (UpdateTransactionInput.price input); cbn in *;
      try (by rewrite Htv); done.
  - intros k q Hk. apply lookup_delete_Some in Hk as [_ Hk]. by apply Hc in Hk.
Qed.

Lemma apiRun_effect (ops : list ApiOp) (db : Db) : apiEffect db (apiRun ops db).
Proof.
  revert db. induction ops as [|op ops IH]; intros db; [constructor|].
  cbn. eapply ae_trans; [apply apiStep_effect | apply IH].
Qed.

(** X1. Referential integrity.  Whatever sequence of position and
    transaction writes (create, close, update, delete, transaction
    create, update, delete, bulk create) is applied to a well-formed
    store, the store stays well formed: every stored transaction refers
    to a stored position, every row is stored under its own id, and every
    id in use was issued by the counter. *)
Theorem writes_keep_store_well_formed (db : Db) (ops : list ApiOp) :
  wf db ->
  wf (apiRun ops db)
  /\ (forall k t, transactions (apiRun ops db) !! k = Some t ->
                  is_Some (positions (apiRun ops db) !! Transaction.positionId t)).
Proof.
  intros Hwf. pose proof (apiEffect_wf _ _ (apiRun_effect ops db) Hwf) as Hwf'.
  split; [done|]. intros k t Hk. destruct Hwf' as [_ Ht]. by apply Ht in Hk as (_ & _ & ?).
Qed.

Lemma writes_keep_store_well_formed_witness :
  wf (apiRun exampleRun Example.db1)
  /\ size (transactions (apiRun exampleRun Example.db1)) = 4%nat.
Proof.
  split.
  - apply (writes_keep_store_well_formed Example.db1 exampleRun). exact wf_db1.
  - vm_compute. reflexivity.
Defined.

(** X2. Derived values of positions.  If every stored position holds,
    as totalBuyValue and capitalAllocated, the decimals of
    quantity * entryPrice and of quantity * entryPrice + buyFees
    computed on JavaScript numbers, has no exit field while OPEN, and
    has all exit fields, with totalSellValue, realizedPnL and
    returnPercentage the decimals of the numbers that the formulas of
    close give, while CLOSED, then the same holds after any sequence of
    position and transaction writes. *)
Theorem writes_keep_positions_coherent (db : Db) (ops : list ApiOp) :
  map_Forall (fun _ p => coherent p) (positions db) ->
  map_Forall (fun _ p => coherent p) (positions (apiRun ops db)).
Proof. apply apiEffect_coherent, apiRun_effect. Qed.

Lemma writes_keep_positions_coherent_witness :
  map_Forall (fun _ p => coherent p) (positions (apiRun exampleRun Example.db1))
  /\ Position.returnPercentage <$> positions (apiRun exampleRun Example.db1) !! 10%N
     = Some (Some 19.1044776119403%Q).
Proof.
  split.
  - apply (writes_keep_positions_coherent Example.db1 exampleRun).
    intros k p Hk. destruct (decide (k = 10%N)) as [->|Hne].
    + vm_compute in Hk. injection Hk as <-.
      split; [vm_compute; reflexivity|]. split; [vm_compute; reflexivity|].
      by repeat split.
    + cbn in Hk. rewrite lookup_singleton_ne in Hk by done. discriminate.
  - vm_compute. reflexivity.
Defined.

(** X3. Totals of transactions.  If every stored transaction holds, as
    totalValue, the decimal of quantity * price computed on JavaScript
    numbers, the same holds after any sequence of position and
    transaction writes: the BUY and SELL rows written by create and
    close, manual and bulk creations and every update keep the total in
    step with quantity and price. *)
Theorem writes_keep_transactions_totalled (db : Db) (ops : list ApiOp) :
  map_Forall (fun _ t => totalled t) (transactions db) ->
  map_Forall (fun _ t => totalled t) (transactions (apiRun ops db)).
Proof. apply apiEffect_totalled, apiRun_effect. Qed.

Lemma writes_keep_transactions_totalled_witness :
  map_Forall (fun _ t => totalled t) (transactions (apiRun exampleRun Example.db1))
  /\ Transaction.totalValue <$> transactions
       (apiRun [TxUpdate (UpdateTransactionInput.mk 11 None (Some 12) None None
                            None None None None)] Example.db1) !! 11%N
     = Some 1200%Q.
Proof.
  split.
  - apply (writes_keep_transactions_totalled Example.db1 exampleRun).
    intros k t Hk. destruct (decide (k = 11%N)) as [->|Hne].
    + vm_compute in Hk. injection Hk as <-. vm_compute. reflexivity.
    + cbn in Hk. rewrite lookup_singleton_ne in Hk by done. discriminate.
  - vm_compute. reflexivity.
Defined.

(** ** Transaction writes and the other tables *)

Lemma insertMany_frame (rows : list (Id -> Transaction.t)) (db : Db) :
  let db' := snd (insertMany transactionT noUnique rows db) in
  positions db' = positions db /\ users db' = users db
  /\ exchanges db' = exchanges db /\ stocks db' = stocks db
  /\ priceHistory db' = priceHistory db /\ watchlist db' = watchlist db.
Proof.
  revert db. induction rows as [|r rows IH]; intros db; [done|].
  cbn [insertMany]. rewrite existsb_noUnique. cbn [prisma.create].
  specialize (IH (withNextId (N.succ (nextId db))
                    (wr transactionT (<[nextId db := r (nextId db)]> (rd transactionT db)) db))).
  destruct (insertMany _ _ _ _) as [n db2]. cbn in *. exact IH.
Qed.

(** X4. The transaction procedures write the transactions table only:
    after a manual create, an update, a delete or a bulk create, every
    position is what it was (its quantity, totals, status and realized
    P&L are not recomputed from its transactions), and so is every other
    table. *)
Theorem transaction_writes_leave_positions (db : Db) (op : ApiOp) :
  (forall o, op <> OnPosition o) ->
  let db' := apiStep op db in
  positions db' = positions db /\ users db' = users db
  /\ exchanges db' = exchanges db /\ stocks db' = stocks db
  /\ priceHistory db' = priceHistory db /\ watchlist db' = watchlist db.
Proof.
  intros Hop. cbv zeta. remember (apiStep op db) as db' eqn:E.
  destruct op as [o|input|input|id|inputs]; [by destruct (Hop o)|..];
    cbn [apiStep] in E.
  - destruct (CreateTransactionSchema input) eqn:Hs.
    + destruct (positions db !! CreateTransactionInput.positionId input) eqn:Hp.
      * rewrite tx_create_eq in E by eauto.
        destruct (toDecimal _); by subst db'.
      * destruct (tx_create_dangling_eq db input Hs Hp) as [err Herr].
        rewrite Herr in E. by subst db'.
    + unfold appRouter.transaction.create, procedure in E. rewrite Hs in E.
      by subst db'.
  - destruct (UpdateTransactionSchema input) eqn:Hs.
    2: { unfold transactionRouter.update, procedure in E. rewrite Hs in E.
         by subst db'. }
    destruct (isSome (UpdateTransactionInput.quantity input)
              || isSome (UpdateTransactionInput.price input)) eqn:Hb.
    + destruct (transactions db !! UpdateTransactionInput.id input) as [t|] eqn:Hl.
      * rewrite (tx_update_recompute_eq db input t Hs Hb Hl) in E. cbv zeta in E.
        destruct (toDecimal _); by subst db'.
      * rewrite (tx_update_missing_eq db input Hs Hb Hl) in E. by subst db'.
    + apply orb_false_iff in Hb as [Hq Hp].
      assert (Hq' : UpdateTransactionInput.quantity input = None)
        by (by destruct (UpdateTransactionInput.quantity input)).
      assert (Hp' : UpdateTransactionInput.price input = None)
        by (by destruct (UpdateTransactionInput.price input)).
      rewrite (tx_update_plain_eq db input Hs Hq' Hp') in E.
      destruct (transactions db !! UpdateTransactionInput.id input); by subst db'.
  - unfold appRouter.transaction.delete, bind, prisma.delete in E.
    cbn [rd transactionT] in E.
    destruct (transactions db !! id); by subst db'.
  - unfold appRouter.transaction.createBulk, procedure in E.
    destruct (forallb CreateTransactionSchema inputs); [|by subst db'].
    unfold bind at 1 in E.
    destruct (bulk_decimals inputs db) as [(rows & Hrows & Hall & Hm) | [err Hm]];
      rewrite Hm in E; [|by subst db'].
    unfold bind, createMany in E. destruct (forallb _ _); [|by subst db'].
    pose proof (insertMany_frame (bulkData rows) db) as Hf.
    destruct (insertMany _ _ _ _) as [n db2]. cbn in E. subst db'. exact Hf.
Qed.

Lemma transaction_writes_leave_positions_witness :
  positions
    (apiStep (TxUpdate (UpdateTransactionInput.mk 11 None (Some 12) None None
                          None None None None)) Example.db1) !! 10%N
  = Some Example.pos.
Proof.
  destruct (transaction_writes_leave_positions Example.db1
              (TxUpdate (UpdateTransactionInput.mk 11 None (Some 12) None None
                           None None None None))) as [Hp _].
  - discriminate.
  - rewrite Hp. reflexivity.
Defined.

(** ** Sums and rows *)

Lemma sumBy_acc {A} (f : A -> Q) (l : list A) (a : Q) :
  (fold_left (fun sum p => sum + f p) l a == a + sumBy f l)%Q.
Proof.
  unfold sumBy. revert a. induction l as [|x l IH]; intros a; cbn.
  - ring.
  - rewrite (IH (a + f x)%Q), (IH (0 + f x)%Q). ring.
Qed.

Lemma sumBy_cons {A} (f : A -> Q) (x : A) (l : list A) :
  (sumBy f (x :: l) == f x + sumBy f l)%Q.
Proof. unfold sumBy at 1. cbn. rewrite sumBy_acc. ring. Qed.

Lemma sumBy_Permutation {A} (f : A -> Q) (l l' : list A) :
  Permutation l l' -> (sumBy f l == sumBy f l')%Q.
Proof.
  induction 1 as [|x l l' _ IH|x y l|l1 l2 l3 _ IH1 _ IH2].
  - reflexivity.
  - by rewrite !sumBy_cons, IH.
  - rewrite !sumBy_cons. ring.
  - by rewrite IH1.
Qed.

Lemma sortBy_anyOrder {A} (l : list A) : sortBy anyOrder l = l.
Proof.
  induction l as [|x l IH]; [done|]. cbn. fold (sortBy (@anyOrder A) l).
  rewrite IH. by destruct l.
Qed.

Lemma values_replace {A} (m : gmap N A) (k : N) (x y : A) :
  m !! k = Some x ->
  Permutation ((map_to_list m).*2) (x :: (map_to_list (base.delete k m)).*2)
  /\ Permutation ((map_to_list (<[k := y]> m)).*2)
                 (y :: (map_to_list (base.delete k m)).*2).
Proof.
  intros Hk. split.
  - by rewrite <- (map_to_list_delete m k x Hk).
  - rewrite <- insert_delete_eq.
    by rewrite map_to_list_insert by apply lookup_delete_eq.
Qed.

(** ** The life of a position *)

Lemma old_transactions_of_new_position (db : Db) :
  wf db ->
  List.filter (fun t => N.eqb (Transaction.positionId t) (nextId db))
              (prisma.all transactionT db) = [].
Proof.
  intros [Hp Ht]. apply List_filter_nil.
  intros t [k Hk]%elem_of_values. apply N.eqb_neq. intros Heq.
  apply Ht in Hk as (_ & _ & [p Hp']). rewrite Heq in Hp'.
  apply Hp in Hp' as (_ & Hlt). lia.
Qed.

(** X5. Opening and closing.  On a well-formed store, a create that the
    schema accepts, for an existing user and stock, storing the decimals
    [tbv] and [cap] of its two numbers, followed by a valid close of the
    created position succeeds where the numbers of the close are finite.  The close reads the
    stored decimals back: the position is left CLOSED with the decimals
    of realizedPnL = quantity * exitPrice - Number(tbv) - buyFees -
    sellFees and of returnPercentage = realizedPnL / Number(cap) * 100,
    computed on JavaScript numbers; [getById] returns that position,
    [getByPosition] returns its BUY and its SELL transaction and nothing
    else, and a second close throws 'Position is not open'. *)
Theorem create_then_close (db : Db) (input : CreatePositionInput.t)
    (closeDate : Date) (e s : Q) (tradeGrade lessonsLearned : option string)
    (tbv cap : Q) :
  let quantity := CreatePositionInput.quantity input in
  let entryPrice := CreatePositionInput.entryPrice input in
  let buyFees := CreatePositionInput.buyFees input in
  let totalSellValue := (int quantity * Number e)%float in
  let realizedPnL :=
    (totalSellValue - Number tbv - Number buyFees - Number s)%float in
  let returnPercentage := (realizedPnL / Number cap * 100)%float in
  wf db ->
  CreatePositionSchema input = true ->
  is_Some (users db !! CreatePositionInput.userId input) ->
  is_Some (stocks db !! CreatePositionInput.stockId input) ->
  toDecimal (int quantity * Number entryPrice) = Some tbv ->
  toDecimal (int quantity * Number entryPrice + Number buyFees) = Some cap ->
  (0 < e)%Q -> (0 <= s)%Q ->
  is_finite totalSellValue = true ->
  is_finite realizedPnL = true ->
  is_finite returnPercentage = true ->
  exists (p p' : Position.t) (db1 db2 : Db)
         (buy sell : Transaction.t) (txs : list Transaction.t),
    let closeInput :=
      ClosePositionInput.mk (Position.id p) closeDate e s tradeGrade lessonsLearned in
    positionRouter.create input db = (Ok p, db1)
    /\ Position.totalBuyValue p = tbv /\ Position.capitalAllocated p = cap
    /\ positionRouter.close closeInput db1 = (Ok p', db2)
    /\ Position.status p' = CLOSED
    /\ is_Some (Position.realizedPnL p')
    /\ Position.realizedPnL p' = toDecimal realizedPnL
    /\ is_Some (Position.returnPercentage p')
    /\ Position.returnPercentage p' = toDecimal returnPercentage
    /\ appRouter.position.getById (Position.id p) db2 = (Ok p', db2)
    /\ appRouter.transaction.getByPosition (Position.id p) db2 = (Ok txs, db2)
    /\ Permutation txs [buy; sell]
    /\ Transaction.type buy = BUY /\ Transaction.type sell = SELL
    /\ Transaction.quantity buy = Transaction.quantity sell
    /\ positionRouter.close closeInput db2
       = (Throw (JsError "Position is not open"), db2).
Proof.
  intros quantity entryPrice buyFees totalSellValue realizedPnL returnPercentage
         Hwf Hschema Hu Hst Htbv Hcap Hex Hs Hft Hfr Hfp.
  set (i := nextId db).
  set (closeInput := ClosePositionInput.mk i closeDate e s tradeGrade lessonsLearned).
  pose proof (create_eq db input Hschema Hu Hst) as Hcreate. cbv zeta in Hcreate.
  fold quantity entryPrice buyFees in Hcreate. rewrite Htbv, Hcap in Hcreate.
  fold i in Hcreate.
  set (p := openedPosition i input tbv cap) in Hcreate.
  set (db1 := mkDb _ _ _ _ _ _ _ _) in Hcreate.
  assert (Hcs : ClosePositionSchema closeInput = true)
    by (by apply ClosePositionSchema_ok).
  assert (Hl1 : positions db1 !! ClosePositionInput.positionId closeInput = Some p)
    by apply lookup_insert_eq.
  pose proof (close_open_eq db1 closeInput p Hcs Hl1 eq_refl) as Hclose.
  cbv zeta in Hclose.
  change (Position.quantity p) with quantity in Hclose.
  change (Position.totalBuyValue p) with tbv in Hclose.
  change (Position.buyFees p) with buyFees in Hclose.
  change (Position.capitalAllocated p) with cap in Hclose.
  change (ClosePositionInput.exitPrice closeInput) with e in Hclose.
  change (ClosePositionInput.sellFees closeInput) with s in Hclose.
  fold totalSellValue realizedPnL returnPercentage in Hclose.
  destruct (toDecimal_finite _ Hft) as [tsv Htsv].
  destruct (toDecimal_finite _ Hfr) as [pnl Hpnl].
  destruct (toDecimal_finite _ Hfp) as [rp Hrp].
  rewrite Htsv in Hclose. rewrite Hpnl, Hrp in Hclose |- *.
  set (p' := positionRouter.closeData _ _ _ _ _) in Hclose.
  set (db2 := mkDb _ _ _ _ _ _ _ _) in Hclose.
  set (buy := buyTransaction (N.succ i) i input tbv).
  set (sell := sellTransaction (N.succ (N.succ i)) p closeInput tsv).
  assert (Hfresh1 : transactions db !! N.succ i = None).
  { destruct Hwf as [_ Ht].
    destruct (transactions db !! N.succ i) as [t|] eqn:E; [|done].
    apply Ht in E as (_ & Hlt & _). subst i. lia. }
  assert (Hfresh2 : <[N.succ i := buy]> (transactions db) !! N.succ (N.succ i) = None).
  { rewrite lookup_insert_ne by lia. destruct Hwf as [_ Ht].
    destruct (transactions db !! N.succ (N.succ i)) as [t|] eqn:E; [|done].
    apply Ht in E as (_ & Hlt & _). subst i. lia. }
  assert (Hl2 : positions db2 !! i = Some p') by apply lookup_insert_eq.
  exists p, p', db1, db2, buy, sell,
    (sortBy (fun a b => Transaction.date a <=? Transaction.date b)
       (List.filter (fun t => N.eqb (Transaction.positionId t) i)
                    (prisma.all transactionT db2))).
  cbv zeta. change (Position.id p) with i. fold closeInput.
  split; [exact Hcreate|]. split; [reflexivity|]. split; [reflexivity|].
  split; [exact Hclose|].
  split; [reflexivity|]. split; [by eexists|]. split; [reflexivity|].
  split; [by eexists|]. split; [reflexivity|].
  split.
  { unfold appRouter.position.getById, bind, prisma.findUnique.
    cbn [rd positionT]. by rewrite Hl2. }
  split; [reflexivity|].
  split.
  { rewrite sortBy_Permutation. unfold prisma.all. cbn [rd transactionT].
    change (transactions db2)
      with (<[N.succ (N.succ i) := sell]> (<[N.succ i := buy]> (transactions db))).
    rewrite (List_filter_Permutation _ _ _ (values_insert _ _ _ Hfresh2)).
    cbn [List.filter]. change (Transaction.positionId sell) with i.
    rewrite N.eqb_refl.
    rewrite (List_filter_Permutation _ _ _ (values_insert _ _ _ Hfresh1)).
    cbn [List.filter]. change (Transaction.positionId buy) with i.
    rewrite N.eqb_refl.
    pose proof (old_transactions_of_new_position db Hwf) as Hold.
    unfold prisma.all in Hold. cbn [rd transactionT] in Hold. fold i in Hold.
    rewrite Hold. apply perm_swap. }
  split; [reflexivity|]. split; [reflexivity|]. split; [reflexivity|].
  apply (close_not_open_eq db2 closeInput p' Hcs Hl2). discriminate.
Qed.

Lemma create_then_close_witness :
  exists (p' : Position.t) (db2 : Db),
    positionRouter.close (ClosePositionInput.mk 10 2000 120 3 None None)
      (snd (positionRouter.create Example.createInput Example.db0)) = (Ok p', db2)
    /\ Position.realizedPnL p' = Some 192%Q
    /\ Position.returnPercentage p' = Some 19.1044776119403%Q
    /\ map Transaction.type
         (List.filter (fun t => N.eqb (Transaction.positionId t) 10)
            (prisma.all transactionT db2)) = [SELL; BUY].
Proof.
  destruct (create_then_close Example.db0 Example.createInput 2000 120 3 None None
              1000 1005)
    as (p & p' & db1 & db2 & buy & sell & txs & Hc & _ & _ & Hcl & _).
  - exact wf_db0.
  - reflexivity.
  - eexists. reflexivity.
  - eexists. reflexivity.
  - vm_compute. reflexivity.
  - vm_compute. reflexivity.
  - reflexivity.
  - discriminate.
  - reflexivity.
  - reflexivity.
  - reflexivity.
  - vm_compute in Hc. injection Hc as <- <-.
    exists p', db2. split; [exact Hcl|].
    vm_compute in Hcl. injection Hcl as <- <-. repeat split; reflexivity.
Defined.

(** X6. Undoing a create.  On a well-formed store, after a create that
    the schema accepts, for an existing user and stock, and whose two
    numbers are finite the position cannot be deleted ('Cannot delete position with existing
    transactions'); once its BUY transaction has been deleted through
    the transaction router the delete succeeds, the positions and
    transactions tables are what they were before the create, and
    [getById] throws 'Position not found'. *)
Theorem create_undone_by_deletes (db : Db) (input : CreatePositionInput.t) :
  let totalBuyValue :=
    (int (CreatePositionInput.quantity input)
     * Number (CreatePositionInput.entryPrice input))%float in
  let capitalAllocated :=
    (totalBuyValue + Number (CreatePositionInput.buyFees input))%float in
  wf db ->
  CreatePositionSchema input = true ->
  is_Some (users db !! CreatePositionInput.userId input) ->
  is_Some (stocks db !! CreatePositionInput.stockId input) ->
  is_finite totalBuyValue = true ->
  is_finite capitalAllocated = true ->
  exists (p : Position.t) (db1 db2 db3 : Db),
    positionRouter.create input db = (Ok p, db1)
    /\ positionRouter.delete (Position.id p) db1
       = (Throw (JsError "Cannot delete position with existing transactions"), db1)
    /\ appRouter.transaction.delete (N.succ (Position.id p)) db1 = (Ok true, db2)
    /\ positionRouter.delete (Position.id p) db2 = (Ok true, db3)
    /\ positions db3 = positions db
    /\ transactions db3 = transactions db
    /\ appRouter.position.getById (Position.id p) db3
       = (Throw (JsError "Position not found"), db3).
Proof.
  intros totalBuyValue capitalAllocated Hwf Hs Hu Hst Hft Hfc.
  pose proof (create_eq db input Hs Hu Hst) as Hcreate. cbv zeta in Hcreate.
  fold totalBuyValue capitalAllocated in Hcreate.
  destruct (toDecimal_finite _ Hft) as [tbv Htbv].
  destruct (toDecimal_finite _ Hfc) as [cap Hcap].
  rewrite Htbv, Hcap in Hcreate.
  set (i := nextId db) in *. set (p := openedPosition i input tbv cap) in *.
  set (buy := buyTransaction (N.succ i) i input tbv) in *.
  set (db1 := mkDb _ _ _ _ _ _ _ _) in Hcreate.
  assert (Hfp : positions db !! i = None) by (by apply fresh_position).
  assert (Hftx : transactions db !! N.succ i = None).
  { destruct Hwf as [_ Ht].
    destruct (transactions db !! N.succ i) as [t|] eqn:E; [|done].
    apply Ht in E as (_ & Hlt & _). subst i. lia. }
  set (db2 := withTables db1 (positions db1) (transactions db) (nextId db1)).
  set (db3 := withTables db1 (positions db) (transactions db) (nextId db1)).
  exists p, db1, db2, db3. change (Position.id p) with i.
  split; [exact Hcreate|]. split.
  { assert (Ho : owns transactionT Transaction.positionId db1 i).
    { exists (N.succ i), buy. split; [apply lookup_insert_eq | done]. }
    apply count_owns in Ho.
    unfold positionRouter.delete, bind, prisma.count. by rewrite Ho. }
  split.
  { unfold appRouter.transaction.delete, bind, prisma.delete. cbn [rd transactionT].
    change (transactions db1) with (<[N.succ i := buy]> (transactions db)).
    rewrite lookup_insert_eq. cbn. unfold db2, withTables. cbn.
    by rewrite delete_insert_id. }
  split.
  { unfold positionRouter.delete, bind, prisma.count, prisma.delete.
    rewrite (count_not_owns transactionT Transaction.positionId db2 i).
    - cbn [rd positionT]. change (positions db2) with (<[i := p]> (positions db)).
      rewrite lookup_insert_eq. cbn. unfold db3, withTables. cbn.
      by rewrite delete_insert_id.
    - intros (k & t & Hk & Heq). cbn in Hk.
      destruct Hwf as [Hp Ht]. apply Ht in Hk as (_ & _ & [q Hq]).
      rewrite Heq in Hq. congruence. }
  split; [reflexivity|]. split; [reflexivity|].
  unfold appRouter.position.getById, bind, prisma.findUnique. cbn [rd positionT].
  change (positions db3) with (positions db). by rewrite Hfp.
Qed.

Lemma create_undone_by_deletes_witness :
  exists db3 : Db,
    positionRouter.delete 10
      (snd (appRouter.transaction.delete 11
              (snd (positionRouter.create Example.createInput Example.db0))))
    = (Ok true, db3)
    /\ positions db3 = positions Example.db0
    /\ transactions db3 = transactions Example.db0.
Proof.
  destruct (create_undone_by_deletes Example.db0 Example.createInput)
    as (p & db1 & db2 & db3 & Hc & _ & Hd1 & Hd2 & Hp & Ht & _).
  - exact wf_db0.
  - reflexivity.
  - eexists. reflexivity.
  - eexists. reflexivity.
  - reflexivity.
  - reflexivity.
  - exists db3. rewrite Hc. cbn [snd].
    vm_compute in Hc. injection Hc as <- <-.
    change (N.succ (Position.id _)) with 11%N in Hd1. rewrite Hd1. cbn [snd].
    split; [exact Hd2|]. by split.
Defined.

(** ** Summaries along the life of a position *)

Lemma openSummary_eq (db : Db) (userId : Id) :
  let rows := List.filter (byUserStatus userId OPEN) (prisma.all positionT db) in
  exists totalInvested totalValue : float,
    appRouter.position.openSummary userId db
    = (Ok (OpenSummary.mk (length rows) totalInvested totalValue
             (map (fun p =>
                     OpenPosition.mk (Position.id p) (stocks db !! Position.stockId p)
                       (Position.quantity p) (Position.entryPrice p)
                       (Position.capitalAllocated p) (Position.openDate p)) rows)),
       db).
Proof.
  cbv zeta. unfold appRouter.position.openSummary, bind, prisma.findMany, get, ret.
  cbn [skipn]. rewrite sortBy_anyOrder. by do 2 eexists.
Qed.

Lemma getPortfolioSummary_eq (db : Db) (userId : Id) :
  userRouter.getPortfolioSummary userId db
  = (Ok (mkPortfolio (users db !! userId)
           (summaryMetrics
              (List.filter (byUserStatus userId OPEN) (prisma.all positionT db))
              (List.filter (byUserStatus userId CLOSED) (prisma.all positionT db)))
           (firstn 5 (List.filter (byUserStatus userId OPEN)
                        (prisma.all positionT db)))), db).
Proof.
  unfold userRouter.getPortfolioSummary, bind, prisma.findMany, prisma.findUnique, ret.
  cbn [skipn]. by rewrite !sortBy_anyOrder.
Qed.

(** X7. On a well-formed store, a create that the schema accepts, for
    an existing user and stock, and whose two numbers are finite adds
    the new position to the open summary of its user:
    totalPositions grows by one and the position is listed with its id
    and its capitalAllocated. *)
Theorem create_grows_open_summary (db : Db) (input : CreatePositionInput.t) :
  let totalBuyValue :=
    (int (CreatePositionInput.quantity input)
     * Number (CreatePositionInput.entryPrice input))%float in
  let capitalAllocated :=
    (totalBuyValue + Number (CreatePositionInput.buyFees input))%float in
  wf db ->
  CreatePositionSchema input = true ->
  is_Some (users db !! CreatePositionInput.userId input) ->
  is_Some (stocks db !! CreatePositionInput.stockId input) ->
  is_finite totalBuyValue = true ->
  is_finite capitalAllocated = true ->
  exists (p : Position.t) (db1 : Db) (before after : OpenSummary.t),
    positionRouter.create input db = (Ok p, db1)
    /\ appRouter.position.openSummary (CreatePositionInput.userId input) db
       = (Ok before, db)
    /\ appRouter.position.openSummary (CreatePositionInput.userId input) db1
       = (Ok after, db1)
    /\ OpenSummary.totalPositions after = S (OpenSummary.totalPositions before)
    /\ exists o, In o (OpenSummary.positions after)
                 /\ OpenPosition.id o = Position.id p
                 /\ OpenPosition.capitalAllocated o = Position.capitalAllocated p.
Proof.
  intros totalBuyValue capitalAllocated Hwf Hs Hu Hst Hft Hfc.
  pose proof (create_eq db input Hs Hu Hst) as Hcreate. cbv zeta in Hcreate.
  fold totalBuyValue capitalAllocated in Hcreate.
  destruct (toDecimal_finite _ Hft) as [tbv Htbv].
  destruct (toDecimal_finite _ Hfc) as [cap Hcap].
  rewrite Htbv, Hcap in Hcreate.
  set (i := nextId db) in *. set (p := openedPosition i input tbv cap) in *.
  set (db1 := mkDb _ _ _ _ _ _ _ _) in Hcreate.
  set (u := CreatePositionInput.userId input).
  destruct (openSummary_eq db u) as (ti0 & tv0 & Hbefore).
  destruct (openSummary_eq db1 u) as (ti1 & tv1 & Hafter).
  do 4 eexists. split; [exact Hcreate|].
  split; [exact Hbefore|]. split; [exact Hafter|].
  cbn [OpenSummary.totalPositions OpenSummary.positions].
  assert (Hperm : Permutation
            (List.filter (byUserStatus u OPEN) (prisma.all positionT db1))
            (p :: List.filter (byUserStatus u OPEN) (prisma.all positionT db))).
  { unfold prisma.all. cbn [rd positionT].
    change (positions db1) with (<[i := p]> (positions db)).
    etrans; [apply List_filter_Permutation, (values_insert _ i p),
             (fresh_position db Hwf)|].
    cbn [List.filter]. unfold byUserStatus at 1. cbn. fold u.
    by rewrite N.eqb_refl. }
  split; [by rewrite (Permutation_length Hperm)|].
  eexists. split.
  - apply in_map. apply (Permutation_in _ (Permutation_sym Hperm)). by left.
  - by cbn.
Qed.

Lemma create_grows_open_summary_witness :
  exists after : OpenSummary.t,
    appRouter.position.openSummary 1
      (snd (positionRouter.create Example.createInput Example.db1))
    = (Ok after, snd (positionRouter.create Example.createInput Example.db1))
    /\ OpenSummary.totalPositions after = 2%nat.
Proof.
  destruct (create_grows_open_summary Example.db1 Example.createInput)
    as (p & db1 & before & after & Hc & Hb & Ha & Hn & _).
  - exact wf_db1.
  - reflexivity.
  - eexists. reflexivity.
  - eexists. reflexivity.
  - reflexivity.
  - reflexivity.
  - rewrite Hc. cbn [snd]. exists after. split; [exact Ha|].
    vm_compute in Hb. injection Hb as <-. exact Hn.
Defined.

(** X8. A close moves the position from the open to the closed side of
    its user's portfolio summary: where the numbers of the close are
    finite, totalOpenPositions falls by one and totalClosedPositions
    grows by one, and the open summary counts one position less. *)
Theorem close_moves_position_in_summaries
    (db : Db) (input : ClosePositionInput.t) (p : Position.t) :
  let totalSellValue :=
    (int (Position.quantity p) * Number (ClosePositionInput.exitPrice input))%float in
  let realizedPnL :=
    (totalSellValue - Number (Position.totalBuyValue p)
     - Number (Position.buyFees p)
     - Number (ClosePositionInput.sellFees input))%float in
  let returnPercentage :=
    (realizedPnL / Number (Position.capitalAllocated p) * 100)%float in
  ClosePositionSchema input = true ->
  positions db !! ClosePositionInput.positionId input = Some p ->
  Position.status p = OPEN ->
  is_finite totalSellValue = true ->
  is_finite realizedPnL = true ->
  is_finite returnPercentage = true ->
  exists (p' : Position.t) (db' : Db) (before after : Portfolio)
         (openAfter : OpenSummary.t),
    positionRouter.close input db = (Ok p', db')
    /\ userRouter.getPortfolioSummary (Position.userId p) db = (Ok before, db)
    /\ userRouter.getPortfolioSummary (Position.userId p) db' = (Ok after, db')
    /\ totalOpenPositions (summary before) = S (totalOpenPositions (summary after))
    /\ totalClosedPositions (summary after) = S (totalClosedPositions (summary before))
    /\ appRouter.position.openSummary (Position.userId p) db' = (Ok openAfter, db')
    /\ S (OpenSummary.totalPositions openAfter) = totalOpenPositions (summary before).
Proof.
  intros totalSellValue realizedPnL returnPercentage Hs Hl Ho Hft Hfr Hfp.
  pose proof (close_open_eq db input p Hs Hl Ho) as Hclose. cbv zeta in Hclose.
  fold totalSellValue realizedPnL returnPercentage in Hclose.
  destruct (toDecimal_finite _ Hft) as [tsv Htsv].
  destruct (toDecimal_finite _ Hfr) as [pnl Hpnl].
  destruct (toDecimal_finite _ Hfp) as [rp Hrp].
  rewrite Htsv, Hpnl, Hrp in Hclose.
  set (p' := positionRouter.closeData _ _ _ _ _) in Hclose.
  set (db' := mkDb _ _ _ _ _ _ _ _) in Hclose.
  set (u := Position.userId p). set (k := ClosePositionInput.positionId input) in *.
  destruct (values_replace (positions db) k p p' Hl) as [Hold Hnew].
  set (others := (map_to_list (base.delete k (positions db))).*2) in *.
  assert (Hopen0 : Permutation
            (List.filter (byUserStatus u OPEN) (prisma.all positionT db))
            (p :: List.filter (byUserStatus u OPEN) others)).
  { unfold prisma.all. cbn [rd positionT].
    rewrite (List_filter_Permutation _ _ _ Hold). cbn [List.filter].
    unfold byUserStatus at 1. fold u. by rewrite N.eqb_refl, Ho. }
  assert (Hopen1 : Permutation
            (List.filter (byUserStatus u OPEN) (prisma.all positionT db'))
            (List.filter (byUserStatus u OPEN) others)).
  { unfold prisma.all. cbn [rd positionT].
    change (positions db') with (<[k := p']> (positions db)).
    rewrite (List_filter_Permutation _ _ _ Hnew). cbn [List.filter].
    unfold byUserStatus at 1. cbn. by rewrite andb_false_r. }
  assert (Hclosed0 : Permutation
            (List.filter (byUserStatus u CLOSED) (prisma.all positionT db))
            (List.filter (byUserStatus u CLOSED) others)).
  { unfold prisma.all. cbn [rd positionT].
    rewrite (List_filter_Permutation _ _ _ Hold). cbn [List.filter].
    unfold byUserStatus at 1. rewrite Ho. cbn. by rewrite andb_false_r. }
  assert (Hclosed1 : Permutation
            (List.filter (byUserStatus u CLOSED) (prisma.all positionT db'))
            (p' :: List.filter (byUserStatus u CLOSED) others)).
  { unfold prisma.all. cbn [rd positionT].
    change (positions db') with (<[k := p']> (positions db)).
    rewrite (List_filter_Permutation _ _ _ Hnew). cbn [List.filter].
    unfold byUserStatus at 1. cbn. fold u. by rewrite N.eqb_refl. }
  destruct (openSummary_eq db' u) as (ti & tv & Hopen).
  do 5 eexists. split; [exact Hclose|].
  split; [apply getPortfolioSummary_eq|]. split; [apply getPortfolioSummary_eq|].
  cbn [summary summaryMetrics totalOpenPositions totalClosedPositions].
  split; [by rewrite (Permutation_length Hopen0), (Permutation_length Hopen1)|].
  split; [by rewrite (Permutation_length Hclosed0), (Permutation_length Hclosed1)|].
  split; [exact Hopen|].
  cbn [OpenSummary.totalPositions].
  by rewrite (Permutation_length Hopen0), (Permutation_length Hopen1).
Qed.

Lemma close_moves_position_in_summaries_witness :
  exists after : Portfolio,
    userRouter.getPortfolioSummary 1 closedDb = (Ok after, closedDb)
    /\ totalOpenPositions (summary after) = 0%nat
    /\ totalClosedPositions (summary after) = 1%nat.
Proof.
  destruct (close_moves_position_in_summaries Example.db1 Example.closeInput
              Example.pos)
    as (p' & db' & before & after & oa & Hc & Hb & Ha & Ho & Hcl & _).
  - reflexivity.
  - reflexivity.
  - reflexivity.
  - reflexivity.
  - reflexivity.
  - reflexivity.
  - exists after. unfold closedDb. rewrite Hc. cbn [snd].
    split; [exact Ha|].
    vm_compute in Hb. injection Hb as <-.
    split; [by injection Ho|]. exact Hcl.
Defined.

(** ** Ordered results *)

Section SortedBy.
Context {A : Type} (le : A -> A -> bool).
Hypothesis le_total : forall a b, le a b = false -> le b a = true.
Hypothesis le_trans : forall a b c, le a b = true -> le b c = true -> le a c = true.

Lemma insertBy_sorted (x : A) (l : list A) :
  sortedBy le l -> sortedBy le (insertBy le x l).
Proof.
  induction l as [|y l IH]; intros Hs; cbn; [by split|].
  destruct Hs as [Hy Hl]. destruct (le x y) eqn:E.
  - split; [|by split]. constructor; [done|].
    eapply Forall_impl; [exact Hy|]. intros z Hz. by eapply le_trans.
  - split; [|by apply IH].
    rewrite (insertBy_Permutation le x l). constructor; [by apply le_total | done].
Qed.

Lemma sortBy_sorted (l : list A) : sortedBy le (sortBy le l).
Proof.
  induction l as [|x l IH]; [done|]. cbn. by apply insertBy_sorted.
Qed.
End SortedBy.

Lemma sortedBy_firstn {A} (le : A -> A -> bool) (n : nat) (l : list A) :
  sortedBy le l -> sortedBy le (firstn n l).
Proof.
  revert n. induction l as [|x l IH]; intros [|n] Hs; cbn; try done.
  destruct Hs as [Hx Hl]. split; [|by apply IH]. by apply Forall_take.
Qed.

(** X9. [getByPosition] returns exactly the stored transactions of the
    position, ordered by date ascending, and does not change the store;
    a position delete is refused with 'Cannot delete position with
    existing transactions' exactly when that list is not empty. *)
Theorem getByPosition_lists_the_transactions (db : Db) (positionId : Id) :
  exists txs : list Transaction.t,
    appRouter.transaction.getByPosition positionId db = (Ok txs, db)
    /\ (forall t, In t txs <->
                  (exists k, transactions db !! k = Some t)
                  /\ Transaction.positionId t = positionId)
    /\ sortedBy (fun a b => Transaction.date a <=? Transaction.date b) txs
    /\ (txs <> [] <->
        positionRouter.delete positionId db
        = (Throw (JsError "Cannot delete position with existing transactions"), db)).
Proof.
  set (le := fun a b : Transaction.t => Transaction.date a <=? Transaction.date b).
  set (rows := List.filter (fun t => N.eqb (Transaction.positionId t) positionId)
                 (prisma.all transactionT db)).
  exists (sortBy le rows). split; [reflexivity|].
  assert (Hin : forall t, In t rows <->
                  (exists k, transactions db !! k = Some t)
                  /\ Transaction.positionId t = positionId).
  { intros t. unfold rows. rewrite filter_In, <- list_elem_of_In.
    unfold prisma.all. rewrite elem_of_values. cbn [rd transactionT].
    by rewrite N.eqb_eq. }
  split; [|split].
  - intros t. rewrite <- Hin, <- !list_elem_of_In.
    by rewrite (sortBy_Permutation _ rows).
  - apply sortBy_sorted; unfold le; intros; lia.
  - unfold positionRouter.delete, bind, prisma.count. fold rows.
    pose proof (sortBy_length le rows) as Hlen.
    destruct rows as [|t rows'].
    + cbn. split; [done|].
      unfold prisma.delete. cbn [rd positionT].
      destruct (positions db !! positionId); cbn; discriminate.
    + cbn [length Nat.ltb Nat.leb]. split; [done|]. intros _ Hnil.
      by rewrite Hnil in Hlen.
Qed.

(** ** transaction.getSummary *)

Lemma sumBy_app {A} (f : A -> Q) (l1 l2 : list A) :
  (sumBy f (l1 ++ l2) == sumBy f l1 + sumBy f l2)%Q.
Proof.
  induction l1 as [|x l1 IH]; cbn [app].
  - unfold sumBy at 2. cbn. ring.
  - rewrite !sumBy_cons, IH. ring.
Qed.

Lemma rows_split_by_type (rows : list Transaction.t) :
  length rows
  = (length (typeGroup rows BUY) + length (typeGroup rows SELL)
     + length (typeGroup rows DIVIDEND) + length (typeGroup rows SPLIT)
     + length (typeGroup rows BONUS))%nat.
Proof.
  unfold typeGroup. induction rows as [|t rows IH]; [done|].
  cbn [List.filter length]. destruct (Transaction.type t); cbn; lia.
Qed.

Lemma sum_split_by_type (f : Transaction.t -> Q) (rows : list Transaction.t) :
  (sumBy f rows
   == sumBy f (typeGroup rows BUY) + sumBy f (typeGroup rows SELL)
      + sumBy f (typeGroup rows DIVIDEND) + sumBy f (typeGroup rows SPLIT)
      + sumBy f (typeGroup rows BONUS))%Q.
Proof.
  unfold typeGroup. induction rows as [|t rows IH]; [reflexivity|].
  cbn [List.filter]. rewrite sumBy_cons, IH.
  destruct (Transaction.type t); cbn [TransactionType_eqb];
    rewrite sumBy_cons; ring.
Qed.

Lemma sumBy_nil {A} (f : A -> Q) : (sumBy f [] == 0)%Q.
Proof. reflexivity. Qed.

Lemma group_entry_count (ty : TransactionType) (g : list Transaction.t) :
  fold_right Nat.add 0%nat
    (map TypeSummary.count
       match g with
       | [] => []
       | _ :: _ => [TypeSummary.mk ty (length g) (sumBy Transaction.totalValue g)
                      (sumBy Transaction.fees g)]
       end) = length g.
Proof. destruct g; cbn; lia. Qed.

Lemma group_entry_value (ty : TransactionType) (g : list Transaction.t) :
  (sumBy TypeSummary.totalValue
     match g with
     | [] => []
     | _ :: _ => [TypeSummary.mk ty (length g) (sumBy Transaction.totalValue g)
                    (sumBy Transaction.fees g)]
     end == sumBy Transaction.totalValue g)%Q.
Proof.
  destruct g; [reflexivity|].
  rewrite (sumBy_cons TypeSummary.totalValue), sumBy_nil.
  cbn [TypeSummary.totalValue]. ring.
Qed.

Lemma group_entry_fees (ty : TransactionType) (g : list Transaction.t) :
  (sumBy TypeSummary.totalFees
     match g with
     | [] => []
     | _ :: _ => [TypeSummary.mk ty (length g) (sumBy Transaction.totalValue g)
                    (sumBy Transaction.fees g)]
     end == sumBy Transaction.fees g)%Q.
Proof.
  destruct g; [reflexivity|].
  rewrite (sumBy_cons TypeSummary.totalFees), sumBy_nil.
  cbn [TypeSummary.totalFees]. ring.
Qed.

Lemma fold_add_app (l1 l2 : list nat) :
  fold_right Nat.add 0%nat (l1 ++ l2)
  = (fold_right Nat.add 0%nat l1 + fold_right Nat.add 0%nat l2)%nat.
Proof. induction l1; cbn; lia. Qed.

Lemma group_entry_positive (ty : TransactionType) (g : list Transaction.t) :
  Forall (fun e => (0 < TypeSummary.count e)%nat)
    match g with
    | [] => []
    | _ :: _ => [TypeSummary.mk ty (length g) (sumBy Transaction.totalValue g)
                   (sumBy Transaction.fees g)]
    end.
Proof.
  destruct g; [constructor|]. constructor; [cbn; lia | constructor].
Qed.

(** X10. [getSummary] does not change the store; its per-type counts
    add up to totalTransactions, its per-type totals and fees add up to
    totalVolume and totalFees, every group it reports has at least one
    transaction, and it reports at most ten recent transactions, ordered
    by date descending. *)
Theorem getSummary_groups_add_up (db : Db) (input : TransactionSummaryInput.t) :
  exists s : TransactionSummary.t,
    appRouter.transaction.getSummary input db = (Ok s, db)
    /\ fold_right Nat.add 0%nat (map TypeSummary.count (TransactionSummary.byType s))
       = TransactionSummary.totalTransactions s
    /\ (sumBy TypeSummary.totalValue (TransactionSummary.byType s)
        == TransactionSummary.totalVolume s)%Q
    /\ (sumBy TypeSummary.totalFees (TransactionSummary.byType s)
        == TransactionSummary.totalFees s)%Q
    /\ Forall (fun g => (0 < TypeSummary.count g)%nat) (TransactionSummary.byType s)
    /\ (length (TransactionSummary.recentTransactions s) <= 10)%nat
    /\ sortedBy (fun a b => Transaction.date b <=? Transaction.date a)
                (TransactionSummary.recentTransactions s).
Proof.
  set (rows := List.filter (appRouter.transaction.summaryWhere db input)
                 (prisma.all transactionT db)).
  exists (TransactionSummary.mk (length rows)
            (sumBy Transaction.totalValue rows) (sumBy Transaction.fees rows)
            (fold_left (fun sum t => sum + Transaction.quantity t) rows 0)
            (groupByType rows)
            (firstn 10 (sortBy (fun a b => Transaction.date b <=? Transaction.date a)
                          rows))).
  split.
  { unfold appRouter.transaction.getSummary, bind, get, prisma.findMany, ret.
    cbn [skipn]. rewrite sortBy_anyOrder. reflexivity. }
  cbn [TransactionSummary.byType TransactionSummary.totalTransactions
       TransactionSummary.totalVolume TransactionSummary.totalFees
       TransactionSummary.recentTransactions].
  generalize rows. clear rows. intros rows.
  unfold groupByType, allTransactionTypes. cbn [flat_map].
  fold (typeGroup rows BUY) (typeGroup rows SELL) (typeGroup rows DIVIDEND)
       (typeGroup rows SPLIT) (typeGroup rows BONUS).
  rewrite (rows_split_by_type rows),
    (sum_split_by_type Transaction.totalValue rows),
    (sum_split_by_type Transaction.fees rows).
  rewrite app_nil_r.
  split; [|split; [|split; [|split; [|split]]]].
  - rewrite !map_app, !fold_add_app, !group_entry_count. lia.
  - rewrite !sumBy_app, !group_entry_value. ring.
  - rewrite !sumBy_app, !group_entry_fees. ring.
  - rewrite !Forall_app. repeat split; apply group_entry_positive.
  - apply firstn_le_length.
  - apply sortedBy_firstn, sortBy_sorted; intros; lia.
Qed.

(** ** The watchlist *)

Lemma existsb_sameWatch (db : Db) (w : Watchlist.t) :
  existsb (sameWatch w) (prisma.all watchlistT db) = true
  <-> watched db (Watchlist.userId w) (Watchlist.stockId w).
Proof.
  rewrite existsb_exists. unfold watched, sameWatch, watchKey. split.
  - intros (x & Hin & Hk). apply list_elem_of_In, elem_of_values in Hin as [k Hk'].
    apply andb_true_iff in Hk as [Hu Hs]. apply N.eqb_eq in Hu, Hs.
    by exists k, x.
  - intros (k & x & Hk & Hu & Hs). exists x. split.
    + apply list_elem_of_In, elem_of_values. by exists k.
    + by rewrite Hu, Hs, !N.eqb_refl.
Qed.

Lemma existsb_sameWatch_false (db : Db) (w : Watchlist.t) :
  existsb (sameWatch w) (prisma.all watchlistT db) = false
  <-> ~ watched db (Watchlist.userId w) (Watchlist.stockId w).
Proof.
  rewrite <- existsb_sameWatch. by destruct (existsb _ _).
Qed.

Lemma watch_insertMany_effect (u : Id) (notes : option string) (now : Date)
    (stockIds : list Id) (db : Db) :
  watchEffect db
    (snd (insertMany watchlistT sameWatch
            (map (fun stockId id => Watchlist.mk id u stockId None notes None now)
                 stockIds) db)).
Proof.
  revert db. induction stockIds as [|s stockIds IH]; intros db; [constructor|].
  cbn [map insertMany].
  destruct (existsb _ _) eqn:E; [apply IH|].
  apply existsb_sameWatch_false in E. cbn [prisma.create].
  eapply we_trans;
    [exact (we_insert db (Watchlist.mk (nextId db) u s None notes None now) eq_refl E)|].
  specialize (IH (withWatchlist db
                    (<[nextId db := Watchlist.mk (nextId db) u s None notes None now]>
                       (watchlist db)) (N.succ (nextId db)))).
  unfold withWatchlist in *. cbn in *.
  destruct (insertMany _ _ _ _) as [n db2]. cbn in *. exact IH.
Qed.

Lemma watchStep_effect (schema : CreateWatchlistInput.t -> bool) (now : Date)
    (op : WatchOp) (db : Db) :
  watchEffect db (watchStep schema now op db).
Proof.
  destruct op as [input|input|input|id|u s]; cbn [watchStep].
  - unfold appRouter.watchlist.add, procedure.
    destruct (schema input); [|constructor].
    unfold bind, createUnique.
    destruct (existsb _ _) eqn:E; [constructor|].
    apply existsb_sameWatch_false in E. cbn.
    exact (we_insert db
             (Watchlist.mk (nextId db)
                (CreateWatchlistInput.userId input) (CreateWatchlistInput.stockId input)
                (CreateWatchlistInput.name input) (CreateWatchlistInput.notes input)
                (CreateWatchlistInput.targetPrice input) now) eq_refl E).
  - unfold appRouter.watchlist.bulkAdd, bind, createMany.
    destruct (forallb _ _); [|constructor].
    pose proof (watch_insertMany_effect (BulkAddInput.userId input)
                  (BulkAddInput.notes input) now (BulkAddInput.stockIds input) db) as He.
    destruct (insertMany _ _ _ _) as [n db2]. exact He.
  - unfold appRouter.watchlist.update, procedure.
    destruct (UpdateWatchlistSchema input); [|constructor].
    unfold bind, prisma.update. cbn [rd watchlistT].
    destruct (watchlist db !! UpdateWatchlistInput.id input) as [w|] eqn:E;
      [|constructor].
    cbn. by eapply we_replace.
  - unfold appRouter.watchlist.remove, bind, prisma.delete. cbn [rd watchlistT].
    destruct (watchlist db !! id); [|constructor]. cbn. apply we_delete.
  - unfold appRouter.watchlist.removeByStock, bind, deleteBy.
    destruct (head _) as [[k w]|]; [|constructor]. cbn. apply we_delete.
Qed.

Lemma watchEffect_ok (db db' : Db) :
  watchEffect db db' -> watchlistOk db -> watchlistOk db'.
Proof.
  induction 1 as [db|db w Hid Hnew|db k w w' Hk Hid Hu Hs|db k
                  |db db1 db2 _ IH1 _ IH2]; intros Hok; [done | .. | by auto];
    destruct Hok as [Hkeys Huniq]; split; cbn.
  - apply map_Forall_insert_2; [split; [done | lia]|].
    intros k x Hk. apply Hkeys in Hk as [? ?]. split; [done | lia].
  - intros k1 w1 Hk1 k2 w2 Hk2 Hu Hs.
    apply lookup_insert_Some in Hk1 as [[<- <-] | [Hne1 Hk1]];
      apply lookup_insert_Some in Hk2 as [[<- <-] | [Hne2 Hk2]]; [done | | |].
    + destruct Hnew. exists k2, w2. by rewrite Hu, Hs.
    + destruct Hnew. by exists k1, w1.
    + by apply (Huniq k1 w1 Hk1 k2 w2 Hk2).
  - apply map_Forall_insert_2; [|done].
    apply Hkeys in Hk as [? ?]. split; [congruence | done].
  - intros k1 w1 Hk1 k2 w2 Hk2 Hu' Hs'.
    apply lookup_insert_Some in Hk1 as [[<- <-] | [Hne1 Hk1]];
      apply lookup_insert_Some in Hk2 as [[<- <-] | [Hne2 Hk2]]; [done | | |].
    + apply (Huniq k w Hk k2 w2 Hk2); congruence.
    + apply (Huniq k1 w1 Hk1 k w Hk); congruence.
    + by apply (Huniq k1 w1 Hk1 k2 w2 Hk2).
  - intros k1 w1 Hk1. apply lookup_delete_Some in Hk1 as [_ Hk1]. by apply Hkeys in Hk1.
  - intros k1 w1 Hk1 k2 w2 Hk2.
    apply lookup_delete_Some in Hk1 as [_ Hk1].
    apply lookup_delete_Some in Hk2 as [_ Hk2]. by apply (Huniq k1 w1 Hk1 k2 w2 Hk2).
Qed.

(** X11. Whatever sequence of add, bulkAdd, update, remove and
    removeByStock is applied to a well-formed watchlist, no user ends up
    watching a stock twice: the unique constraint on (userId, stockId)
    holds and every row is stored under its own id. *)
Theorem watchlist_writes_keep_pairs_unique
    (schema : CreateWatchlistInput.t -> bool) (now : Date)
    (ops : list WatchOp) (db : Db) :
  watchlistOk db -> watchlistOk (watchRun schema now ops db).
Proof.
  revert db. induction ops as [|op ops IH]; intros db Hok; [done|].
  cbn. apply IH. eapply watchEffect_ok; [apply watchStep_effect | done].
Qed.

Lemma watchlistOk_alertsDb : watchlistOk alertsDb.
Proof. split; refine (bool_decide_unpack _ _); vm_compute; exact I. Defined.

Lemma watchlist_writes_keep_pairs_unique_witness :
  watchlistOk (watchRun anyWatchlistInput 100 exampleWatchRun alertsDb)
  /\ size (watchlist (watchRun anyWatchlistInput 100 exampleWatchRun alertsDb))
     = 3%nat.
Proof.
  split.
  - apply (watchlist_writes_keep_pairs_unique anyWatchlistInput 100 exampleWatchRun
             alertsDb).
    exact watchlistOk_alertsDb.
  - vm_compute. reflexivity.
Defined.

Lemma fresh_watch (db : Db) : watchlistOk db -> watchlist db !! nextId db = None.
Proof.
  intros [Hk _]. destruct (watchlist db !! nextId db) as [w|] eqn:E; [|done].
  apply Hk in E as [_ ?]. lia.
Qed.

Lemma filter_watchKey_none (db : Db) (u s : Id) :
  ~ watched db u s ->
  List.filter (fun kv : N * Watchlist.t => watchKey u s kv.2)
              (map_to_list (watchlist db)) = [].
Proof.
  intros Hno. apply List_filter_nil. intros [k w] Hin.
  apply elem_of_map_to_list in Hin. unfold watchKey. cbn.
  destruct (N.eqb_spec (Watchlist.userId w) u) as [Hu|]; [|done].
  destruct (N.eqb_spec (Watchlist.stockId w) s) as [Hs|]; [|done].
  destruct Hno. by exists k, w.
Qed.

Lemma isWatched_unwatched (db : Db) (u s : Id) :
  ~ watched db u s ->
  appRouter.watchlist.isWatched u s db = (Ok (false, None), db).
Proof.
  intros Hno. unfold appRouter.watchlist.isWatched, bind, findUniqueBy, ret.
  rewrite List_filter_nil; [done|].
  intros w [k Hk]%elem_of_values. unfold watchKey.
  destruct (N.eqb_spec (Watchlist.userId w) u) as [Hu|]; [|done].
  destruct (N.eqb_spec (Watchlist.stockId w) s) as [Hs|]; [|done].
  destruct Hno. by exists k, w.
Qed.

(** X12. Watching and unwatching.  For an input that the schema
    accepts, on a well-formed watchlist: if the user already watches the
    stock, [add] throws the unique-constraint error P2002 and changes
    nothing; otherwise it stores the item, [isWatched] then answers true
    with that item, [removeByStock] removes it, after which [isWatched]
    answers false and the watchlist is what it was before the add. *)
Theorem watch_then_unwatch
    (schema : CreateWatchlistInput.t -> bool) (now : Date)
    (db : Db) (input : CreateWatchlistInput.t) :
  let u := CreateWatchlistInput.userId input in
  let s := CreateWatchlistInput.stockId input in
  watchlistOk db ->
  schema input = true ->
  (watched db u s ->
   appRouter.watchlist.add schema now input db = (Throw (PrismaError "P2002"), db))
  /\ (~ watched db u s ->
      exists (w : Watchlist.t) (db1 db2 : Db),
        appRouter.watchlist.add schema now input db = (Ok w, db1)
        /\ Watchlist.targetPrice w = CreateWatchlistInput.targetPrice input
        /\ appRouter.watchlist.isWatched u s db1 = (Ok (true, Some w), db1)
        /\ appRouter.watchlist.removeByStock u s db1 = (Ok true, db2)
        /\ appRouter.watchlist.isWatched u s db2 = (Ok (false, None), db2)
        /\ watchlist db2 = watchlist db).
Proof.
  intros u s Hok Hs. split.
  - intros Hw. unfold appRouter.watchlist.add, procedure. rewrite Hs.
    unfold bind, createUnique.
    replace (existsb _ _) with true; [done|].
    symmetry. by apply existsb_sameWatch.
  - intros Hno.
    set (w := Watchlist.mk (nextId db) u s (CreateWatchlistInput.name input)
                (CreateWatchlistInput.notes input)
                (CreateWatchlistInput.targetPrice input) now).
    set (db1 := withWatchlist db (<[nextId db := w]> (watchlist db))
                  (N.succ (nextId db))).
    set (db2 := withWatchlist db (watchlist db) (N.succ (nextId db))).
    pose proof (fresh_watch db Hok) as Hfresh.
    exists w, db1, db2.
    assert (Hadd : appRouter.watchlist.add schema now input db = (Ok w, db1)).
    { unfold appRouter.watchlist.add, procedure. rewrite Hs.
      unfold bind, createUnique.
      replace (existsb _ _) with false; [reflexivity|].
      symmetry. by apply existsb_sameWatch_false. }
    assert (Hperm : Permutation (map_to_list (<[nextId db := w]> (watchlist db)))
                      ((nextId db, w) :: map_to_list (watchlist db)))
      by (by apply map_to_list_insert).
    split; [exact Hadd|]. split; [reflexivity|]. split; [|split; [|split]].
    + unfold appRouter.watchlist.isWatched, bind, findUniqueBy, ret.
      assert (Hf : List.filter (watchKey u s) (prisma.all watchlistT db1) = [w]).
      { apply Permutation_singleton_r. unfold prisma.all. cbn [rd watchlistT].
        change (watchlist db1) with (<[nextId db := w]> (watchlist db)).
        rewrite (List_filter_Permutation _ _ _ (values_insert _ _ _ Hfresh)).
        cbn [List.filter]. unfold watchKey at 1. cbn. rewrite !N.eqb_refl. cbn.
        constructor. rewrite List_filter_nil; [done|].
        intros x [k Hk]%elem_of_values. unfold watchKey.
        destruct (N.eqb_spec (Watchlist.userId x) u) as [Hu|]; [|done].
        destruct (N.eqb_spec (Watchlist.stockId x) s) as [Hs'|]; [|done].
        destruct Hno. by exists k, x. }
      by rewrite Hf.
    + unfold appRouter.watchlist.removeByStock, bind, deleteBy, ret.
      cbn [rd watchlistT].
      change (watchlist db1) with (<[nextId db := w]> (watchlist db)).
      assert (Hf : List.filter (fun kv : N * Watchlist.t => watchKey u s kv.2)
                     (map_to_list (<[nextId db := w]> (watchlist db)))
                   = [(nextId db, w)]).
      { apply Permutation_singleton_r.
        rewrite (List_filter_Permutation _ _ _ Hperm).
        cbn [List.filter]. unfold watchKey at 1. cbn. rewrite !N.eqb_refl. cbn.
        constructor. by rewrite filter_watchKey_none. }
      rewrite Hf. cbn. unfold db2, withWatchlist. cbn.
      by rewrite delete_insert_id.
    + by apply isWatched_unwatched.
    + reflexivity.
Qed.

Lemma watch_then_unwatch_witness :
  exists (w : Watchlist.t) (db1 : Db),
    appRouter.watchlist.add anyWatchlistInput 100
      (CreateWatchlistInput.mk 1 7 None None (Some 12%Q)) alertsDb = (Ok w, db1)
    /\ appRouter.watchlist.isWatched 1 7 db1 = (Ok (true, Some w), db1)
    /\ appRouter.watchlist.add anyWatchlistInput 100
         (CreateWatchlistInput.mk 1 2 None None None) alertsDb
       = (Throw (PrismaError "P2002"), alertsDb).
Proof.
  destruct (watch_then_unwatch anyWatchlistInput 100 alertsDb
              (CreateWatchlistInput.mk 1 7 None None (Some 12%Q)))
    as [_ Hnew]; [exact watchlistOk_alertsDb | reflexivity |].
  destruct Hnew as (w & db1 & db2 & Hadd & _ & Hw & _).
  - intros (k & x & Hk & Hu & Hs).
    assert (Hin : (k, x) ∈ map_to_list (watchlist alertsDb))
      by (by apply elem_of_map_to_list).
    vm_compute in Hin.
    repeat (apply elem_of_cons in Hin as [Hin | Hin];
            [injection Hin as -> ->; discriminate|]).
    by apply elem_of_nil in Hin.
  - exists w, db1. split; [exact Hadd|]. split; [exact Hw|].
    apply (watch_then_unwatch anyWatchlistInput 100 alertsDb
             (CreateWatchlistInput.mk 1 2 None None None));
      [exact watchlistOk_alertsDb | reflexivity |].
    exists 20%N, (Watchlist.mk 20 1 2 None None (Some 110%Q) 5).
    split; [reflexivity | by split].
Defined.

Lemma forallb_noFk {A} (rows : list (Id -> A)) (db : Db) :
  forallb (fun mkRow => noFk (mkRow (nextId db)) db) rows = true.
Proof. by induction rows. Qed.

Lemma watch_insertMany_spec (u : Id) (notes : option string) (now : Date)
    (stockIds : list Id) (db : Db) :
  watchlistOk db ->
  let r := insertMany watchlistT sameWatch
             (map (fun stockId id => Watchlist.mk id u stockId None notes None now)
                  stockIds) db in
  watchlistOk r.2
  /\ (forall k w, watchlist db !! k = Some w -> watchlist r.2 !! k = Some w)
  /\ size (watchlist r.2) = (size (watchlist db) + r.1)%nat
  /\ (forall s, In s stockIds -> watched r.2 u s)
  /\ (r.1 <= length stockIds)%nat.
Proof.
  revert db. induction stockIds as [|s stockIds IH]; intros db Hok.
  { cbn. split; [done|]. split; [done|]. split; [lia|]. split; [by intros s []|]. lia. }
  cbn [map insertMany].
  destruct (existsb _ _) eqn:E.
  - apply existsb_sameWatch in E. cbn in E.
    destruct (IH db Hok) as (Hok' & Hsub & Hsize & Hall & Hle). cbv zeta.
    split; [done|]. split; [done|]. split; [done|]. split; [|cbn; lia].
    intros s' [<- | Hin]; [|by apply Hall].
    destruct E as (k & w & Hk & Hu & Hs). exists k, w. by split; [apply Hsub|].
  - apply existsb_sameWatch_false in E. cbn [prisma.create].
    set (w := Watchlist.mk (nextId db) u s None notes None now) in *.
    pose proof (fresh_watch db Hok) as Hfresh.
    assert (Hok1 : watchlistOk (withWatchlist db (<[nextId db := w]> (watchlist db))
                                  (N.succ (nextId db))))
      by (eapply watchEffect_ok; [exact (we_insert db w eq_refl E) | done]).
    specialize (IH _ Hok1). unfold withWatchlist in *. cbn in *.
    destruct (insertMany _ _ _ _) as [n db2]. cbn in *.
    destruct IH as (Hok' & Hsub & Hsize & Hall & Hle).
    split; [done|]. split; [|split; [|split; [|lia]]].
    + intros k x Hk. apply Hsub. rewrite lookup_insert_ne; [done|]. congruence.
    + rewrite Hsize, map_size_insert_None by done. lia.
    + intros s' [<- | Hin]; [|by apply Hall].
      exists (nextId db), w. split; [|done]. apply Hsub, lookup_insert_eq.
Qed.

Lemma watch_insertMany_all_watched (u : Id) (notes : option string) (now : Date)
    (stockIds : list Id) (db : Db) :
  (forall s, In s stockIds -> watched db u s) ->
  insertMany watchlistT sameWatch
    (map (fun stockId id => Watchlist.mk id u stockId None notes None now)
         stockIds) db = (0%nat, db).
Proof.
  induction stockIds as [|s stockIds IH]; intros Hall; [done|].
  cbn [map insertMany].
  replace (existsb _ _) with true.
  - apply IH. intros s' Hs'. apply Hall. by right.
  - symmetry. apply existsb_sameWatch. cbn. apply Hall. by left.
Qed.

(** X13. [bulkAdd] on a well-formed watchlist returns the number of rows
    it added, which is the growth of the watchlist and at most the number
    of stock ids given; afterwards the user watches every stock of the
    list; rows that existed before are untouched (a stock already watched
    is skipped, not overwritten) and no pair is stored twice; running the
    same [bulkAdd] again adds 0 rows and changes nothing. *)
Theorem bulkAdd_skips_watched_stocks (now : Date) (db : Db) (input : BulkAddInput.t) :
  watchlistOk db ->
  exists (added : nat) (db' : Db),
    appRouter.watchlist.bulkAdd now input db = (Ok added, db')
    /\ size (watchlist db') = (size (watchlist db) + added)%nat
    /\ (added <= length (BulkAddInput.stockIds input))%nat
    /\ (forall s, In s (BulkAddInput.stockIds input) ->
                  watched db' (BulkAddInput.userId input) s)
    /\ (forall k w, watchlist db !! k = Some w -> watchlist db' !! k = Some w)
    /\ watchlistOk db'
    /\ appRouter.watchlist.bulkAdd now input db' = (Ok 0%nat, db').
Proof.
  intros Hok.
  pose proof (watch_insertMany_spec (BulkAddInput.userId input)
                (BulkAddInput.notes input) now (BulkAddInput.stockIds input) db Hok)
    as Hspec.
  cbv zeta in Hspec.
  destruct (insertMany _ _ _ _) as [n db'] eqn:E. cbn [fst snd] in Hspec.
  destruct Hspec as (Hok' & Hsub & Hsize & Hall & Hle).
  exists n, db'. split.
  { unfold appRouter.watchlist.bulkAdd, bind, createMany, ret.
    by rewrite forallb_noFk, E. }
  repeat (split; [done|]).
  unfold appRouter.watchlist.bulkAdd, bind, createMany, ret.
  by rewrite forallb_noFk, (watch_insertMany_all_watched _ _ _ _ _ Hall).
Qed.

Lemma bulkAdd_skips_watched_stocks_witness :
  exists db' : Db,
    appRouter.watchlist.bulkAdd 100 (BulkAddInput.mk 1 [2%N; 4%N; 7%N; 7%N] None)
      alertsDb = (Ok 1%nat, db')
    /\ size (watchlist db') = 3%nat.
Proof.
  destruct (bulkAdd_skips_watched_stocks 100 alertsDb
              (BulkAddInput.mk 1 [2%N; 4%N; 7%N; 7%N] None))
    as (added & db' & Hrun & Hsize & _).
  - exact watchlistOk_alertsDb.
  - exists db'. vm_compute in Hrun. injection Hrun as <- <-.
    split; reflexivity.
Defined.

(** X14. The watchlist summary agrees with the price alerts: its
    itemsWithAlerts is the number of items that [getPriceAlerts] returns
    for the user; it is at most totalItems, and recentItems has at most
    five entries, ordered by createdAt descending. *)
Theorem watchlist_summary_counts_alerts (db : Db) (userId : Id) :
  exists (s : WatchlistSummary.t) (alerts : PriceAlerts),
    appRouter.watchlist.getSummary userId db = (Ok s, db)
    /\ watchlistRouter.getPriceAlerts userId db = (Ok alerts, db)
    /\ WatchlistSummary.itemsWithAlerts s = length (watchlistWithAlerts alerts)
    /\ (WatchlistSummary.itemsWithAlerts s <= WatchlistSummary.totalItems s)%nat
    /\ (length (WatchlistSummary.recentItems s) <= 5)%nat
    /\ (length (WatchlistSummary.recentItems s) <= WatchlistSummary.totalItems s)%nat
    /\ sortedBy (fun a b => Watchlist.createdAt b <=? Watchlist.createdAt a)
                (WatchlistSummary.recentItems s).
Proof.
  set (mine := fun w : Watchlist.t => N.eqb (Watchlist.userId w) userId).
  set (le := fun a b : Watchlist.t => Watchlist.createdAt b <=? Watchlist.createdAt a).
  exists (WatchlistSummary.mk
            (length (List.filter mine (prisma.all watchlistT db)))
            (length (List.filter
                       (fun w => N.eqb (Watchlist.userId w) userId
                                 && isSome (Watchlist.targetPrice w))
                       (prisma.all watchlistT db)))
            (firstn 5 (sortBy le (List.filter mine (prisma.all watchlistT db))))).
  eexists. split; [reflexivity|]. split; [apply getPriceAlerts_eq|].
  cbn [WatchlistSummary.itemsWithAlerts WatchlistSummary.totalItems
       WatchlistSummary.recentItems watchlistWithAlerts].
  unfold mine.
  split; [by rewrite length_map, sortBy_length|].
  split.
  { generalize (prisma.all watchlistT db). intros l.
    induction l as [|w l IH]; cbn; [lia|].
    destruct (N.eqb (Watchlist.userId w) userId); cbn; [|lia].
    destruct (isSome (Watchlist.targetPrice w)); cbn; lia. }
  split; [apply firstn_le_length|].
  split.
  { rewrite length_take, sortBy_length. lia. }
  apply sortedBy_firstn, sortBy_sorted; unfold le; intros; lia.
Qed.

(** ** Price history *)

Lemma priceKey_eq (s : Id) (d : Date) (h : PriceHistory.t) :
  priceKey s d h = true <-> PriceHistory.stockId h = s /\ PriceHistory.date h = d.
Proof. unfold priceKey. rewrite andb_true_iff, N.eqb_eq, Z.eqb_eq. tauto. Qed.

Lemma existsb_samePrice (db : Db) (h : PriceHistory.t) :
  existsb (samePrice h) (prisma.all priceHistoryT db) = true
  <-> priced db (PriceHistory.stockId h) (PriceHistory.date h).
Proof.
  rewrite existsb_exists. unfold priced, samePrice. split.
  - intros (x & Hin & Hk). apply list_elem_of_In, elem_of_values in Hin as [k Hk'].
    apply priceKey_eq in Hk as [? ?]. by exists k, x.
  - intros (k & x & Hk & Hs & Hd). exists x. split.
    + apply list_elem_of_In, elem_of_values. by exists k.
    + by apply priceKey_eq.
Qed.

Lemma existsb_samePrice_false (db : Db) (h : PriceHistory.t) :
  existsb (samePrice h) (prisma.all priceHistoryT db) = false
  <-> ~ priced db (PriceHistory.stockId h) (PriceHistory.date h).
Proof. rewrite <- existsb_samePrice. by destruct (existsb _ _). Qed.

Lemma head_filter_priceKey (db : Db) (s : Id) (d : Date) :
  match head (List.filter (priceKey s d) (prisma.all priceHistoryT db)) with
  | Some h => (exists k, priceHistory db !! k = Some h)
              /\ PriceHistory.stockId h = s /\ PriceHistory.date h = d
  | None => ~ priced db s d
  end.
Proof.
  destruct (List.filter _ _) as [|h l] eqn:E; cbn.
  - intros (k & x & Hk & Hs & Hd).
    assert (Hin : In x (List.filter (priceKey s d) (prisma.all priceHistoryT db))).
    { apply filter_In. split.
      - apply list_elem_of_In, elem_of_values. by exists k.
      - by apply priceKey_eq. }
    by rewrite E in Hin.
  - assert (Hin : In h (List.filter (priceKey s d) (prisma.all priceHistoryT db)))
      by (rewrite E; by left).
    apply filter_In in Hin as [Hin Hk].
    apply list_elem_of_In, elem_of_values in Hin. by apply priceKey_eq in Hk.
Qed.

Lemma fresh_price (db : Db) : priceOk db -> priceHistory db !! nextId db = None.
Proof.
  intros [Hk _]. destruct (priceHistory db !! nextId db) as [w|] eqn:E; [|done].
  apply Hk in E as [_ ?]. lia.
Qed.

Lemma priceOk_insert (db : Db) (h : PriceHistory.t) :
  priceOk db -> PriceHistory.id h = nextId db ->
  ~ priced db (PriceHistory.stockId h) (PriceHistory.date h) ->
  priceOk (withPrices db (<[nextId db := h]> (priceHistory db)) (N.succ (nextId db))).
Proof.
  intros [Hkeys Huniq] Hid Hnew. split; cbn.
  - apply map_Forall_insert_2; [split; [done | lia]|].
    intros k x Hk. apply Hkeys in Hk as [? ?]. split; [done | lia].
  - intros k1 w1 Hk1 k2 w2 Hk2 Hs Hd. cbn in Hk1, Hk2.
    apply lookup_insert_Some in Hk1 as [[<- <-] | [Hne1 Hk1]];
      apply lookup_insert_Some in Hk2 as [[<- <-] | [Hne2 Hk2]]; [done | | |].
    + destruct Hnew. exists k2, w2. by rewrite Hs, Hd.
    + destruct Hnew. by exists k1, w1.
    + by apply (Huniq k1 w1 Hk1 k2 w2 Hk2).
Qed.

Lemma priceOk_replace (db : Db) (k : Id) (h h' : PriceHistory.t) :
  priceOk db -> priceHistory db !! k = Some h ->
  PriceHistory.id h' = PriceHistory.id h ->
  PriceHistory.stockId h' = PriceHistory.stockId h ->
  PriceHistory.date h' = PriceHistory.date h ->
  priceOk (withPrices db (<[k := h']> (priceHistory db)) (nextId db)).
Proof.
  intros [Hkeys Huniq] Hk Hid Hs Hd. split; cbn.
  - apply map_Forall_insert_2; [|done].
    apply Hkeys in Hk as [? ?]. split; [congruence | done].
  - intros k1 w1 Hk1 k2 w2 Hk2 Hs' Hd'. cbn in Hk1, Hk2.
    apply lookup_insert_Some in Hk1 as [[<- <-] | [Hne1 Hk1]];
      apply lookup_insert_Some in Hk2 as [[<- <-] | [Hne2 Hk2]]; [done | | |].
    + apply (Huniq k h Hk k2 w2 Hk2); congruence.
    + apply (Huniq k1 w1 Hk1 k h Hk); congruence.
    + by apply (Huniq k1 w1 Hk1 k2 w2 Hk2).
Qed.

Lemma getLatestPrice_mostRecent (db : Db) (s : Id) (h : PriceHistory.t) :
  priceHistoryUnique db -> mostRecent db s h ->
  appRouter.stock.getLatestPrice s db = (Ok (Some h), db).
Proof.
  intros Hu Hm. pose proof (latestPriceOf_mostRecent db s) as Hl.
  change (watchlistRouter.latestPriceOf s db)
    with (appRouter.stock.getLatestPrice s db) in Hl.
  destruct (appRouter.stock.getLatestPrice s db) as [[[l|]|e] db'] eqn:E;
    cbn in Hl; [| |done].
  - rewrite (mostRecent_unique db s h l Hu Hm Hl).
    unfold appRouter.stock.getLatestPrice, prisma.findFirst in E. congruence.
  - destruct Hm as ([k Hk] & Hs & _). by destruct (Hl k h Hk).
Qed.

Lemma head_filter_priceKey_stored (db : Db) (k : Id) (h : PriceHistory.t) :
  priceHistoryUnique db -> priceHistory db !! k = Some h ->
  head (List.filter (priceKey (PriceHistory.stockId h) (PriceHistory.date h))
          (prisma.all priceHistoryT db)) = Some h.
Proof.
  intros Hu Hk.
  pose proof (head_filter_priceKey db (PriceHistory.stockId h) (PriceHistory.date h))
    as Hhead.
  destruct (head _) as [x|].
  - destruct Hhead as ([k' Hk'] & Hs & Hd).
    assert (k' = k) by (by apply (Hu k' x Hk' k h Hk)). subst k'. congruence.
  - destruct Hhead. by exists k, h.
Qed.

Lemma setOpt_idem {A} (v old : option A) : setOpt v (setOpt v old) = setOpt v old.
Proof. by destruct v. Qed.

(** X15. [addPriceHistory] is an upsert on (stockId, date).  For an
    accepted input on an existing stock and a well-formed price history:
    the returned row carries the input's stock, date and prices; it
    replaces the row of that stock and date if there is one (the number
    of rows is unchanged) and is added otherwise; every other row is
    untouched and (stockId, date) stays unique; if no row of the stock
    has a later date, [getLatestPrice] then returns the new row; and
    repeating the call returns the same row and changes nothing. *)
Theorem addPriceHistory_upserts
    (schema : PriceHistoryInput.t -> bool) (db : Db) (input : PriceHistoryInput.t) :
  let s := PriceHistoryInput.stockId input in
  let d := PriceHistoryInput.date input in
  priceOk db -> schema input = true -> is_Some (stocks db !! s) ->
  exists (row : PriceHistory.t) (db' : Db),
    appRouter.stock.addPriceHistory schema input db = (Ok row, db')
    /\ PriceHistory.stockId row = s /\ PriceHistory.date row = d
    /\ PriceHistory.open row = PriceHistoryInput.open input
    /\ PriceHistory.high row = PriceHistoryInput.high input
    /\ PriceHistory.low row = PriceHistoryInput.low input
    /\ PriceHistory.close row = PriceHistoryInput.close input
    /\ priceOk db'
    /\ (priced db s d -> size (priceHistory db') = size (priceHistory db))
    /\ (~ priced db s d -> size (priceHistory db') = S (size (priceHistory db)))
    /\ (forall k h, priceHistory db !! k = Some h ->
                    PriceHistory.stockId h <> s \/ PriceHistory.date h <> d ->
                    priceHistory db' !! k = Some h)
    /\ ((forall k h, priceHistory db !! k = Some h ->
                     PriceHistory.stockId h = s -> PriceHistory.date h <= d) ->
        appRouter.stock.getLatestPrice s db' = (Ok (Some row), db'))
    /\ appRouter.stock.addPriceHistory schema input db' = (Ok row, db').
Proof.
  intros s d Hok Hschema [st Hst].
  assert (Hstep : exists (row : PriceHistory.t) (k : Id),
            let db' := withPrices db (<[k := row]> (priceHistory db))
                         (if decide (k = nextId db) then N.succ (nextId db)
                          else nextId db) in
            appRouter.stock.addPriceHistory schema input db = (Ok row, db')
            /\ PriceHistory.id row = k
            /\ row = priceUpdateData input row
            /\ PriceHistory.stockId row = s /\ PriceHistory.date row = d
            /\ priceOk db'
            /\ (priced db s d -> is_Some (priceHistory db !! k))
            /\ (~ priced db s d -> priceHistory db !! k = None)
            /\ (forall h, priceHistory db !! k = Some h ->
                          PriceHistory.stockId h = s /\ PriceHistory.date h = d)).
  { unfold appRouter.stock.addPriceHistory, procedure. rewrite Hschema.
    unfold bind at 1, findUniqueBy. fold s d.
    pose proof (head_filter_priceKey db s d) as Hhead.
    destruct (head _) as [old|].
    - destruct Hhead as ([k Hk] & Hs & Hd).
      assert (Hid : PriceHistory.id old = k)
        by (destruct Hok as [Hkeys _]; by apply Hkeys in Hk as [? _]).
      exists (priceUpdateData input old), k. cbv zeta.
      assert (Hne : k <> nextId db).
      { destruct Hok as [Hkeys _]. apply Hkeys in Hk as [_ ?]. lia. }
      rewrite decide_False by done.
      split.
      { unfold prisma.update. cbn [rd priceHistoryT]. by rewrite Hid, Hk. }
      split; [done|]. split.
      { unfold priceUpdateData. cbn. by rewrite setOpt_idem. }
      split; [done|]. split; [done|]. split.
      { by apply (priceOk_replace db k old). }
      split; [by eexists|]. split.
      { intros Hno. destruct Hno. by exists k, old. }
      intros h Hh. by replace h with old by congruence.
    - exists (priceOfInput input (nextId db)), (nextId db). cbv zeta.
      rewrite decide_True by done.
      split.
      { unfold createChecked, price_fk, hasRow. cbn. fold s. by rewrite Hst. }
      split; [done|]. split.
      { unfold priceUpdateData, priceOfInput. cbn. by destruct (PriceHistoryInput.volume input). }
      split; [done|]. split; [done|]. split.
      { by apply (priceOk_insert db (priceOfInput input (nextId db))). }
      split; [done|]. split; [intros _; by apply fresh_price|].
      intros h Hh. by rewrite fresh_price in Hh. }
  destruct Hstep as (row & k & Hrun & Hid & Hfix & Hs & Hd & Hok' & Hold & Hnew & Hsame).
  cbv zeta in Hrun. set (db' := withPrices _ _ _) in *.
  exists row, db'. split; [exact Hrun|].
  split; [done|]. split; [done|].
  split; [by rewrite Hfix|]. split; [by rewrite Hfix|].
  split; [by rewrite Hfix|]. split; [by rewrite Hfix|].
  split; [done|]. split.
  { intros [h Hh]%Hold. cbn. by rewrite map_size_insert_Some. }
  split.
  { intros Hk%Hnew. cbn. by rewrite map_size_insert_None. }
  split.
  { intros k' h Hk' Hne. cbn. rewrite lookup_insert_ne; [done|].
    intros ->. destruct (Hsame h Hk') as [? ?]. by destruct Hne. }
  split.
  { intros Hmax. apply getLatestPrice_mostRecent; [by destruct Hok'|].
    split; [exists k; apply lookup_insert_eq|]. split; [done|].
    intros k' h' Hk' Hs'. cbn in Hk'.
    apply lookup_insert_Some in Hk' as [[_ <-] | [Hne Hk']]; [lia|].
    rewrite Hd. by eapply Hmax. }
  assert (Hstored : priceHistory db' !! k = Some row) by apply lookup_insert_eq.
  unfold appRouter.stock.addPriceHistory, procedure. rewrite Hschema.
  unfold bind at 1, findUniqueBy. fold s d. rewrite <- Hs, <- Hd.
  rewrite (head_filter_priceKey_stored db' k row); [|by destruct Hok' | done].
  unfold prisma.update. cbn [rd priceHistoryT]. rewrite Hid, Hstored, <- Hfix.
  unfold db', withPrices. cbn. by rewrite insert_insert_eq.
Qed.

Lemma priceOk_alertsDb : priceOk alertsDb.
Proof. split; refine (bool_decide_unpack _ _); vm_compute; exact I. Defined.

Lemma addPriceHistory_upserts_witness :
  exists (row : PriceHistory.t) (db' : Db),
    appRouter.stock.addPriceHistory anyPriceInput
      (PriceHistoryInput.mk 2 2 106 131 105 130 None) alertsDb = (Ok row, db')
    /\ PriceHistory.id row = 31%N
    /\ size (priceHistory db') = 2%nat
    /\ appRouter.stock.getLatestPrice 2 db' = (Ok (Some row), db').
Proof.
  destruct (addPriceHistory_upserts anyPriceInput alertsDb
              (PriceHistoryInput.mk 2 2 106 131 105 130 None))
    as (row & db' & Hrun & _ & _ & _ & _ & _ & _ & _ & Hsize & _ & _ & Hlatest & _).
  - exact priceOk_alertsDb.
  - reflexivity.
  - eexists. reflexivity.
  - exists row, db'. split; [exact Hrun|].
    split; [vm_compute in Hrun; by injection Hrun as <- _|].
    split.
    + rewrite Hsize; [reflexivity|].
      exists 31%N, (PriceHistory.mk 31 2 2 106 121 105 120 None).
      split; [reflexivity | by split].
    + apply Hlatest. intros k h Hk Hs.
      assert (Hin : (k, h) ∈ map_to_list (priceHistory alertsDb))
        by (by apply elem_of_map_to_list).
      vm_compute in Hin.
      repeat (apply elem_of_cons in Hin as [Hin | Hin];
              [injection Hin as -> ->; cbn; lia|]).
      by apply elem_of_nil in Hin.
Defined.

(** X16. A successful stock delete takes the stock's price history with
    it: afterwards no price row of the deleted stock is stored, and the
    price rows of every other stock are exactly those stored before. *)
Theorem stock_delete_removes_its_prices (db : Db) (id : Id) :
  ~ owns positionT Position.stockId db id ->
  is_Some (stocks db !! id) ->
  exists db' : Db,
    stockRouter.delete id db = (Ok true, db')
    /\ stocks db' !! id = None
    /\ (forall k h, priceHistory db' !! k = Some h <->
                    priceHistory db !! k = Some h /\ PriceHistory.stockId h <> id)
    /\ positions db' = positions db /\ watchlist db' = watchlist db.
Proof.
  intros Hn%count_not_owns [st Hst].
  unfold stockRouter.delete, bind, prisma.count, prisma.deleteMany, prisma.delete.
  rewrite Hn. cbn [rd wr stockT priceHistoryT stocks]. rewrite Hst.
  eexists. split; [reflexivity|]. cbn.
  split; [apply lookup_delete_eq|]. split; [|done].
  intros k h. rewrite map_lookup_filter_Some. cbn.
  rewrite <- N.eqb_neq. by destruct (N.eqb _ _).
Qed.

Lemma stock_delete_removes_its_prices_witness :
  exists db' : Db,
    stockRouter.delete 2 alertsDb = (Ok true, db')
    /\ size (priceHistory db') = 0%nat
    /\ size (watchlist db') = 2%nat.
Proof.
  destruct (stock_delete_removes_its_prices alertsDb 2) as (db' & Hrun & _).
  - intros (k & p & Hk & _). cbn in Hk. by rewrite lookup_empty in Hk.
  - eexists. reflexivity.
  - exists db'. split; [exact Hrun|].
    vm_compute in Hrun. injection Hrun as <-. split; reflexivity.
Defined.

(** X17. [getPriceHistory], for an input that its schema accepts,
    returns without changing the store at most [limit] rows, all of the
    requested stock and inside the requested date range, ordered by date
    descending; with no row of a later date left out: every stored row of
    the stock in the range that is not returned is at least as old as
    every returned row. *)
Theorem getPriceHistory_latest_first
    (schema : GetPriceHistoryInput.t -> bool) (db : Db)
    (input : GetPriceHistoryInput.t) :
  let inRange (h : PriceHistory.t) : Prop :=
    PriceHistory.stockId h = GetPriceHistoryInput.stockId input
    /\ filterHolds (GetPriceHistoryInput.startDate input)
         (fun d => d <= PriceHistory.date h)
    /\ filterHolds (GetPriceHistoryInput.endDate input)
         (fun d => PriceHistory.date h <= d) in
  schema input = true ->
  exists rows : list PriceHistory.t,
    appRouter.stock.getPriceHistory schema input db = (Ok rows, db)
    /\ (length rows <= GetPriceHistoryInput.limit input)%nat
    /\ (forall h, In h rows ->
                  (exists k, priceHistory db !! k = Some h) /\ inRange h)
    /\ sortedBy (fun a b => PriceHistory.date b <=? PriceHistory.date a) rows
    /\ (forall k h r, priceHistory db !! k = Some h -> inRange h ->
                      ~ In h rows -> In r rows ->
                      PriceHistory.date h <= PriceHistory.date r).
Proof.
  intros inRange Hs.
  set (le := fun a b : PriceHistory.t => PriceHistory.date b <=? PriceHistory.date a).
  set (where_ := fun h : PriceHistory.t =>
         N.eqb (PriceHistory.stockId h) (GetPriceHistoryInput.stockId input)
         && match GetPriceHistoryInput.startDate input with
            | Some d => d <=? PriceHistory.date h
            | None => true
            end
         && match GetPriceHistoryInput.endDate input with
            | Some d => PriceHistory.date h <=? d
            | None => true
            end).
  set (sorted := sortBy le (List.filter where_ (prisma.all priceHistoryT db))).
  exists (firstn (GetPriceHistoryInput.limit input) sorted).
  assert (Hwhere : forall h, where_ h = true <-> inRange h).
  { intros h. unfold where_, inRange. rewrite !andb_true_iff, N.eqb_eq.
    destruct (GetPriceHistoryInput.startDate input),
             (GetPriceHistoryInput.endDate input); cbn; rewrite ?Z.leb_le; tauto. }
  assert (Hsorted : forall h, In h sorted <->
            (exists k, priceHistory db !! k = Some h) /\ inRange h).
  { intros h. unfold sorted.
    rewrite <- list_elem_of_In, (sortBy_Permutation le), list_elem_of_In.
    rewrite filter_In, <- list_elem_of_In. unfold prisma.all.
    rewrite elem_of_values, Hwhere. by cbn. }
  assert (Hord : sortedBy le sorted)
    by (apply sortBy_sorted; unfold le; intros; lia).
  split.
  { unfold appRouter.stock.getPriceHistory, procedure. by rewrite Hs. }
  split; [apply firstn_le_length|].
  split.
  { intros h Hin. apply Hsorted. apply list_elem_of_In in Hin.
    apply list_elem_of_In. by eapply (subseteq_take _ sorted). }
  split; [by apply sortedBy_firstn|].
  intros k h r Hk Hr Hnot Hin.
  assert (Hh : In h sorted) by (apply Hsorted; eauto).
  clear Hsorted Hwhere Hk Hr.
  revert Hord Hnot Hin Hh. generalize (GetPriceHistoryInput.limit input).
  generalize sorted. clear. intros l.
  induction l as [|x l IH]; intros n Hord Hnot Hin Hh; [done|].
  destruct n as [|n]; [done|]. cbn in Hnot, Hin. destruct Hord as [Hx Hl].
  destruct Hh as [-> | Hh]; [by destruct Hnot; left|].
  destruct Hin as [<- | Hin].
  - rewrite Forall_forall in Hx. apply Z.leb_le, Hx. by apply list_elem_of_In.
  - apply (IH n); auto.
Qed.

Lemma getPriceHistory_latest_first_witness :
  exists rows : list PriceHistory.t,
    appRouter.stock.getPriceHistory (fun _ => true)
      (GetPriceHistoryInput.mk 2 None None 1) alertsDb = (Ok rows, alertsDb)
    /\ map PriceHistory.close rows = [120%Q].
Proof.
  destruct (getPriceHistory_latest_first (fun _ => true) alertsDb
              (GetPriceHistoryInput.mk 2 None None 1)) as (rows & Hrun & _).
  - reflexivity.
  - exists rows. split; [exact Hrun|].
    vm_compute in Hrun. by injection Hrun as <-.
Defined.

Lemma price_insertMany_spec (s : Id) (data : list PriceBar.t) (db : Db) :
  priceOk db ->
  let r := insertMany priceHistoryT samePrice (map (priceOfBar s) data) db in
  priceOk r.2
  /\ (forall k h, priceHistory db !! k = Some h -> priceHistory r.2 !! k = Some h)
  /\ size (priceHistory r.2) = (size (priceHistory db) + r.1)%nat
  /\ (forall b, In b data -> priced r.2 s (PriceBar.date b))
  /\ (r.1 <= length data)%nat.
Proof.
  revert db. induction data as [|b data IH]; intros db Hok.
  { cbn. split; [done|]. split; [done|]. split; [lia|]. split; [by intros ? []|]. lia. }
  cbn [map insertMany].
  destruct (existsb _ _) eqn:E.
  - apply existsb_samePrice in E. cbn in E.
    destruct (IH db Hok) as (Hok' & Hsub & Hsize & Hall & Hle). cbv zeta.
    split; [done|]. split; [done|]. split; [done|]. split; [|cbn; lia].
    intros b' [<- | Hin]; [|by apply Hall].
    destruct E as (k & w & Hk & Hu & Hs). exists k, w. by split; [apply Hsub|].
  - apply existsb_samePrice_false in E. cbn [prisma.create].
    set (h := priceOfBar s b (nextId db)) in *.
    pose proof (fresh_price db Hok) as Hfresh.
    pose proof (priceOk_insert db h Hok eq_refl E) as Hok1.
    specialize (IH _ Hok1). unfold withPrices in *. cbn in *.
    destruct (insertMany _ _ _ _) as [n db2]. cbn in *.
    destruct IH as (Hok' & Hsub & Hsize & Hall & Hle).
    split; [done|]. split; [|split; [|split; [|lia]]].
    + intros k x Hk. apply Hsub. rewrite lookup_insert_ne; [done|]. congruence.
    + rewrite Hsize, map_size_insert_None by done. lia.
    + intros b' [<- | Hin]; [|by apply Hall].
      exists (nextId db), h. split; [|done]. apply Hsub, lookup_insert_eq.
Qed.

Lemma price_insertMany_all_priced (s : Id) (data : list PriceBar.t) (db : Db) :
  (forall b, In b data -> priced db s (PriceBar.date b)) ->
  insertMany priceHistoryT samePrice (map (priceOfBar s) data) db = (0%nat, db).
Proof.
  induction data as [|b data IH]; intros Hall; [done|].
  cbn [map insertMany].
  replace (existsb _ _) with true.
  - apply IH. intros b' Hb'. apply Hall. by right.
  - symmetry. apply existsb_samePrice. cbn. apply Hall. by left.
Qed.

Lemma forallb_price_fk (s : Id) (data : list PriceBar.t) (db : Db) :
  is_Some (stocks db !! s) ->
  forallb (fun mkRow => price_fk (mkRow (nextId db)) db) (map (priceOfBar s) data)
  = true.
Proof.
  intros [st Hst]. induction data as [|b data IH]; [done|].
  cbn. unfold price_fk at 1, hasRow. cbn. by rewrite Hst.
Qed.

(** X18. [addBulkPriceHistory], given valid bars for an existing stock
    and a well-formed price history, returns the number of rows it
    created, which is the growth of the table and at most the number of
    bars; afterwards the stock has a row for every date of the batch;
    no stored row is changed (a bar whose date the stock already has is
    skipped, unlike with [addPriceHistory]); (stockId, date) stays
    unique; and importing the same bars again creates 0 rows and changes
    nothing. *)
Theorem addBulkPriceHistory_never_overwrites
    (db : Db) (stockId : Id) (data : list PriceBar.t) :
  priceOk db ->
  forallb PriceBarSchema data = true ->
  is_Some (stocks db !! stockId) ->
  exists (created : nat) (db' : Db),
    appRouter.stock.addBulkPriceHistory stockId data db = (Ok created, db')
    /\ size (priceHistory db') = (size (priceHistory db) + created)%nat
    /\ (created <= length data)%nat
    /\ (forall b, In b data -> priced db' stockId (PriceBar.date b))
    /\ (forall k h, priceHistory db !! k = Some h -> priceHistory db' !! k = Some h)
    /\ priceOk db'
    /\ appRouter.stock.addBulkPriceHistory stockId data db' = (Ok 0%nat, db').
Proof.
  intros Hok Hs Hst.
  pose proof (price_insertMany_spec stockId data db Hok) as Hspec.
  cbv zeta in Hspec.
  destruct (insertMany _ _ _ _) as [n db'] eqn:E. cbn [fst snd] in Hspec.
  destruct Hspec as (Hok' & Hsub & Hsize & Hall & Hle).
  assert (Hst' : is_Some (stocks db' !! stockId)).
  { replace (stocks db') with (stocks db); [done|].
    clear -E. revert db n db' E.
    induction data as [|b data IH]; intros db n db' E; cbn in E.
    - by injection E as <- <-.
    - destruct (existsb _ _); [by eapply IH|].
      destruct (insertMany _ _ _ _) as [m db2] eqn:E2.
      injection E as <- <-. by apply IH in E2. }
  exists n, db'. split.
  { unfold appRouter.stock.addBulkPriceHistory, procedure. rewrite Hs.
    unfold bind, createMany, ret.
    change (map _ data) with (map (priceOfBar stockId) data).
    by rewrite forallb_price_fk, E. }
  repeat (split; [done|]).
  unfold appRouter.stock.addBulkPriceHistory, procedure. rewrite Hs.
  unfold bind, createMany, ret.
  change (map _ data) with (map (priceOfBar stockId) data).
  by rewrite forallb_price_fk, (price_insertMany_all_priced _ _ _ Hall).
Qed.

Lemma addBulkPriceHistory_never_overwrites_witness :
  exists db' : Db,
    appRouter.stock.addBulkPriceHistory 2
      [PriceBar.mk 2 1 1 1 1 None; PriceBar.mk 3 120 125 119 124 None] alertsDb
    = (Ok 1%nat, db')
    /\ PriceHistory.close <$> priceHistory db' !! 31%N = Some 120%Q.
Proof.
  destruct (addBulkPriceHistory_never_overwrites alertsDb 2
              [PriceBar.mk 2 1 1 1 1 None; PriceBar.mk 3 120 125 119 124 None])
    as (created & db' & Hrun & _).
  - exact priceOk_alertsDb.
  - reflexivity.
  - eexists. reflexivity.
  - exists db'. vm_compute in Hrun. injection Hrun as <- <-. split; reflexivity.
Defined.

(** ** Exchanges *)

Lemma fold_add_positions (l : list StockCount.t) (acc : nat) :
  fold_left (fun sum stock => (sum + StockCount.positions stock)%nat) l acc
  = (acc + list_sum (map StockCount.positions l))%nat.
Proof.
  revert acc. induction l as [|x l IH]; intros acc; simpl; [lia|].
  rewrite IH. lia.
Qed.

Lemma list_sum_Permutation (l l' : list nat) :
  Permutation l l' -> list_sum l = list_sum l'.
Proof. induction 1; simpl; lia. Qed.

Lemma distinct_spec (xs seen : list string) :
  NoDup (distinct seen xs)
  /\ forall s, In s (distinct seen xs) <-> In s xs /\ ~ In s seen.
Proof.
  revert seen. induction xs as [|x xs IH]; intros seen; cbn.
  { split; [constructor | tauto]. }
  destruct (existsb (String.eqb x) seen) eqn:E.
  - destruct (IH seen) as [Hnd Hin]. split; [done|]. intros s. rewrite Hin.
    apply existsb_exists in E as (y & Hy & Hxy). apply String.eqb_eq in Hxy. subst y.
    split; [tauto|]. intros [[<- | Hs] Hno]; [done | tauto].
  - destruct (IH (x :: seen)) as [Hnd Hin]. split.
    + constructor; [|done]. rewrite list_elem_of_In, Hin. cbn. tauto.
    + intros s. cbn. rewrite Hin. cbn.
      assert (Hx : ~ In x seen).
      { intros Hx. apply not_true_iff_false in E. apply E, existsb_exists.
        exists x. split; [done | apply String.eqb_refl]. }
      destruct (String.eqb_spec x s) as [-> | Hne]; tauto.
Qed.

Lemma truthySectors_spec (xs : list StockCount.t) (s : string) :
  In s (truthySectors xs)
  <-> s <> "" /\ exists x, In x xs /\ Stock.sector (StockCount.stock x) = Some s.
Proof.
  induction xs as [|x xs IH]; cbn.
  { split; [done | by intros (_ & ? & [] & _)]. }
  destruct (Stock.sector (StockCount.stock x)) as [t|] eqn:E.
  - destruct t as [|c t]; cbn.
    + rewrite IH. split.
      * intros (Hs & y & Hy & Hsec). eauto.
      * intros (Hs & y & [<- | Hy] & Hsec); [congruence | eauto].
    + rewrite IH. split.
      * intros [<- | (Hs & y & Hy & Hsec)]; [split; [done | eauto] | eauto].
      * intros (Hs & y & [<- | Hy] & Hsec); [left; congruence | right; eauto].
  - rewrite IH. split.
    + intros (Hs & y & Hy & Hsec). eauto.
    + intros (Hs & y & [<- | Hy] & Hsec); [congruence | eauto].
Qed.

Lemma byPositionsDesc_total (a b : StockCount.t) :
  byPositionsDesc a b = false -> byPositionsDesc b a = true.
Proof. unfold byPositionsDesc. intros H. apply Nat.leb_gt in H. apply Nat.leb_le. lia. Qed.

Lemma byPositionsDesc_trans (a b c : StockCount.t) :
  byPositionsDesc a b = true -> byPositionsDesc b c = true ->
  byPositionsDesc a c = true.
Proof. unfold byPositionsDesc. rewrite !Nat.leb_le. lia. Qed.

(** X19. [exchange.getStats] throws 'Exchange not found' for an unknown
    id.  Otherwise it reads only: the stocks it returns with the
    exchange are the stocks of the exchange, each with the number of
    positions on it, ordered by that number, highest first, because the
    sort for [topStocks] reorders the included array; [topStocks] are
    the first ten of them; the counts are those of that list, with
    activeStocks at most totalStocks; and [sectors] holds every
    non-empty sector of these stocks exactly once. *)
Theorem getStats_statistics (db : Db) (id : Id) :
  match exchanges db !! id with
  | None =>
      appRouter.exchange.getStats id db
      = (Throw (JsError "Exchange not found"), db)
  | Some e =>
      exists stocks stats,
        appRouter.exchange.getStats id db
        = (Ok (ExchangeWithStats.mk e stocks stats), db)
        /\ Permutation (map StockCount.stock stocks)
             (List.filter (fun s => N.eqb (Stock.exchangeId s) id)
                (prisma.all stockT db))
        /\ Forall (fun s => StockCount.positions s
                            = positionsOn db (Stock.id (StockCount.stock s))) stocks
        /\ sortedBy byPositionsDesc stocks
        /\ ExchangeStats.topStocks stats = map topStockOf (firstn 10 stocks)
        /\ ExchangeStats.totalStocks stats = length stocks
        /\ ExchangeStats.activeStocks stats
           = length (List.filter (fun s => Stock.isActive (StockCount.stock s)) stocks)
        /\ (ExchangeStats.activeStocks stats <= ExchangeStats.totalStocks stats)%nat
        /\ ExchangeStats.totalPositions stats
           = list_sum (map StockCount.positions stocks)
        /\ NoDup (ExchangeStats.sectors stats)
        /\ forall s, In s (ExchangeStats.sectors stats)
             <-> s <> ""
                 /\ exists x, In x stocks
                      /\ Stock.sector (StockCount.stock x) = Some s
  end.
Proof.
  unfold appRouter.exchange.getStats, bind, prisma.findUnique, get. cbn [rd exchangeT].
  destruct (exchanges db !! id) as [e|]; [|reflexivity].
  set (listed := List.filter _ (prisma.all stockT db)).
  set (count := fun s : Stock.t => StockCount.mk s _).
  set (stocks0 := map count listed).
  pose proof (sortBy_Permutation byPositionsDesc stocks0) as Hperm.
  eexists (sortBy byPositionsDesc stocks0), _. split; [reflexivity|]. cbn.
  split.
  { rewrite Hperm. subst stocks0. rewrite map_map. cbn. by rewrite map_id. }
  split.
  { rewrite Hperm. subst stocks0. apply Forall_forall. intros x Hx.
    apply list_elem_of_In, in_map_iff in Hx as (s & <- & _). reflexivity. }
  split.
  { apply sortBy_sorted; [apply byPositionsDesc_total | apply byPositionsDesc_trans]. }
  split; [reflexivity|].
  split; [by rewrite sortBy_length|].
  assert (Hact : length (List.filter (fun s => Stock.isActive (StockCount.stock s)) stocks0)
                 = length (List.filter (fun s => Stock.isActive (StockCount.stock s))
                             (sortBy byPositionsDesc stocks0))).
  { apply Permutation_length, List_filter_Permutation. by symmetry. }
  split; [done|].
  split.
  { apply List.filter_length_le. }
  split.
  { rewrite fold_add_positions. cbn. apply list_sum_Permutation.
    apply Permutation_map. by symmetry. }
  destruct (distinct_spec (truthySectors stocks0) []) as [Hnd Hin].
  split; [done|].
  intros s. rewrite Hin, truthySectors_spec. cbn. split.
  - intros [(Hs & x & Hx & Hsec) _]. split; [done|]. exists x. split; [|done].
    apply list_elem_of_In. rewrite Hperm. by apply list_elem_of_In.
  - intros (Hs & x & Hx & Hsec). split; [|tauto]. split; [done|]. exists x.
    split; [|done]. apply list_elem_of_In. rewrite <- Hperm. by apply list_elem_of_In.
Qed.

Lemma toUpper_idem (c : ascii) : toUpper (toUpper c) = toUpper c.
Proof. by destruct c as [[] [] [] [] [] [] [] []]. Qed.

Lemma upper_idem (s : string) : upper (upper s) = upper s.
Proof. induction s as [|c s IH]; cbn; [done|]. by rewrite toUpper_idem, IH. Qed.

Lemma head_filter_Some {A} (f : A -> bool) (l : list A) (x : A) :
  head (List.filter f l) = Some x -> In x l /\ f x = true.
Proof.
  intros H. apply filter_In. destruct (List.filter f l) as [|y l']; [done|].
  injection H as ->. by left.
Qed.

Lemma head_filter_None {A} (f : A -> bool) (l : list A) :
  (forall x, In x l -> f x = false) -> head (List.filter f l) = None.
Proof.
  intros H. rewrite List_filter_nil; [done|]. intros x Hx. by apply H, list_elem_of_In.
Qed.

(** X20. [exchange.getByCode] looks the code up in upper case: a code
    and its upper-case form give the same answer, an exchange that is
    returned is stored with the upper-case form of the code that was
    asked for, and when no stored exchange has that code the procedure
    throws 'Exchange not found' where [GET /api/exchanges/code/:code]
    answers 404; [GET] answers 200 with the same exchange otherwise.
    Neither changes the store. *)
Theorem getByCode_ignores_case (db : Db) (code : string) :
  asciiOnly code ->
  appRouter.exchange.getByCode (upper code) db = appRouter.exchange.getByCode code db
  /\ controllers.exchanges.getByCode (upper code) db
     = controllers.exchanges.getByCode code db
  /\ ((exists e,
         appRouter.exchange.getByCode code db = (Ok e, db)
         /\ controllers.exchanges.getByCode code db = (okJson e, db)
         /\ Exchange.code e = upper code
         /\ exists k, exchanges db !! k = Some e)
      \/ (appRouter.exchange.getByCode code db
            = (Throw (JsError "Exchange not found"), db)
          /\ controllers.exchanges.getByCode code db
             = (mkResponse 404 (Some false) None (Some "Exchange not found") None, db)
          /\ forall k e, exchanges db !! k = Some e -> Exchange.code e <> upper code)).
Proof.
  intros _.
  unfold appRouter.exchange.getByCode, controllers.exchanges.getByCode,
    asyncHandler, bind, findUniqueBy.
  rewrite upper_idem. split; [done|]. split; [done|].
  destruct (head _) as [e|] eqn:E.
  - left. exists e. apply head_filter_Some in E as [Hin Hc].
    apply String.eqb_eq in Hc. repeat split; try done.
    apply list_elem_of_In, elem_of_values in Hin. exact Hin.
  - right. repeat split; try done. intros k e Hk Hc.
    assert (Hin : e ∈ prisma.all exchangeT db) by (apply elem_of_values; eauto).
    destruct (List.filter _ _) as [|y l] eqn:F; [|done].
    assert (Hf : In e (List.filter (fun e => String.eqb (Exchange.code e) (upper code))
                         (prisma.all exchangeT db))).
    { apply filter_In. split; [by apply list_elem_of_In | by apply String.eqb_eq]. }
    by rewrite F in Hf.
Qed.

Lemma getByCode_ignores_case_witness :
  asciiOnly "nyse"
  /\ appRouter.exchange.getByCode "NYSE" Example.db1
     = appRouter.exchange.getByCode "nyse" Example.db1
  /\ appRouter.exchange.getByCode "nyse" Example.db1 = (Ok Example.nyse, Example.db1).
Proof.
  assert (Ha : asciiOnly "nyse") by (repeat constructor).
  split; [exact Ha|]. split; [|reflexivity].
  exact (proj1 (getByCode_ignores_case Example.db1 "nyse" Ha)).
Defined.

(** X21. [stock.getBySymbol] compares the symbol in upper case and the
    exchange code as it is given: a symbol and its upper-case form give
    the same answer, and an empty exchange code is no filter at all.  It
    returns a stored stock whose symbol is the upper-case form of the
    symbol asked for and whose exchange has exactly the exchange code
    asked for, when one is given that is not empty, together with that
    exchange; it throws 'Stock not found' exactly when no stored stock
    is such.  The store is not changed. *)
Theorem getBySymbol_matches (db : Db) (symbol : string)
    (exchangeCode : option string) :
  asciiOnly symbol ->
  appRouter.stock.getBySymbol (upper symbol) exchangeCode db
  = appRouter.stock.getBySymbol symbol exchangeCode db
  /\ appRouter.stock.getBySymbol symbol (Some "") db
     = appRouter.stock.getBySymbol symbol None db
  /\ ((exists s,
         appRouter.stock.getBySymbol symbol exchangeCode db
         = (Ok (StockWithExchange.mk s (exchanges db !! Stock.exchangeId s)), db)
         /\ (exists k, stocks db !! k = Some s)
         /\ symbolMatches db symbol exchangeCode s)
      \/ (appRouter.stock.getBySymbol symbol exchangeCode db
          = (Throw (JsError "Stock not found"), db)
          /\ forall k s, stocks db !! k = Some s ->
                         ~ symbolMatches db symbol exchangeCode s)).
Proof.
  intros _.
  unfold appRouter.stock.getBySymbol, bind, get, prisma.findFirst.
  rewrite upper_idem. split; [done|]. split; [done|].
  rewrite sortBy_anyOrder.
  destruct (head _) as [s|] eqn:E.
  - left. exists s. split; [done|].
    apply head_filter_Some in E as [Hin Hw].
    apply andb_true_iff in Hw as [Hsym Hex]. apply String.eqb_eq in Hsym.
    split; [by apply list_elem_of_In, elem_of_values in Hin|].
    split; [done|].
    intros c -> Hc. cbn in Hex. destruct c as [|a c]; [done|]. cbn in Hex.
    destruct (exchanges db !! Stock.exchangeId s) as [e|]; [|done].
    exists e. split; [done|]. by apply String.eqb_eq.
  - right. split; [done|]. intros k s Hk [Hsym Hex].
    destruct (List.filter _ _) as [|y l] eqn:F; [|done].
    assert (Hf : In s []); [|done]. rewrite <- F.
    apply filter_In. split.
    { apply list_elem_of_In, elem_of_values. by exists k. }
    apply andb_true_iff. split; [by apply String.eqb_eq|].
    destruct exchangeCode as [[|a c]|]; cbn; [done | | done].
    destruct (Hex (String a c) eq_refl) as (e & -> & He); [done|].
    by apply String.eqb_eq.
Qed.

Lemma getBySymbol_matches_witness :
  asciiOnly "acme"
  /\ appRouter.stock.getBySymbol "ACME" (Some "NYSE") Example.db1
     = appRouter.stock.getBySymbol "acme" (Some "NYSE") Example.db1
  /\ appRouter.stock.getBySymbol "acme" (Some "NYSE") Example.db1
     = (Ok (StockWithExchange.mk Example.acme (Some Example.nyse)), Example.db1)
  /\ appRouter.stock.getBySymbol "acme" (Some "nyse") Example.db1
     = (Throw (JsError "Stock not found"), Example.db1)
  /\ ~ symbolMatches Example.db1 "acme" (Some "nyse") Example.acme.
Proof.
  assert (Ha : asciiOnly "acme") by (repeat constructor).
  split; [exact Ha|].
  split; [exact (proj1 (getBySymbol_matches Example.db1 "acme" (Some "NYSE") Ha))|].
  split; [reflexivity|]. split; [reflexivity|].
  destruct (getBySymbol_matches Example.db1 "acme" (Some "nyse") Ha)
    as (_ & _ & [(s & Hrun & _) | [_ Hnone]]).
  - discriminate Hrun.
  - by apply (Hnone 2%N).
Defined.

(** ** Users over REST *)

Lemma existsb_sameEmail (db : Db) (u : User.t) :
  existsb (sameEmail u) (prisma.all userT db) = true
  <-> registered db (User.email u).
Proof.
  rewrite existsb_exists. unfold registered, sameEmail. split.
  - intros (x & Hin & He). apply list_elem_of_In, elem_of_values in Hin as [k Hk].
    apply String.eqb_eq in He. by exists k, x.
  - intros (k & x & Hk & He). exists x. split.
    + apply list_elem_of_In, elem_of_values. by exists k.
    + by apply String.eqb_eq.
Qed.

Lemma existsb_sameEmail_other (db : Db) (id : Id) (u : User.t) :
  existsb (sameEmail u) (map_to_list (base.delete id (users db))).*2 = true
  <-> takenByOther db id (User.email u).
Proof.
  rewrite existsb_exists. unfold takenByOther, sameEmail. split.
  - intros (x & Hin & He). apply list_elem_of_In, elem_of_values in Hin as [k Hk].
    apply lookup_delete_Some in Hk as [Hne Hk].
    apply String.eqb_eq in He. exists k, x. by repeat split.
  - intros (k & x & Hne & Hk & He). exists x. split.
    + apply list_elem_of_In, elem_of_values. exists k.
      by apply lookup_delete_Some.
    + by apply String.eqb_eq.
Qed.

Lemma fresh_user (db : Db) : usersOk db -> users db !! nextId db = None.
Proof.
  intros [Hk _]. destruct (users db !! nextId db) as [u|] eqn:E; [|done].
  apply Hk in E as [_ ?]. lia.
Qed.

Lemma usersOk_insert (db : Db) (u : User.t) :
  usersOk db -> User.id u = nextId db -> ~ registered db (User.email u) ->
  usersOk (withUsers db (<[nextId db := u]> (users db)) (N.succ (nextId db))).
Proof.
  intros [Hkeys Huniq] Hid Hnew. split; cbn.
  - apply map_Forall_insert_2; [split; [done | lia]|].
    intros k x Hk. apply Hkeys in Hk as [? ?]. split; [done | lia].
  - intros k1 u1 Hk1 k2 u2 Hk2 He.
    apply lookup_insert_Some in Hk1 as [[<- <-] | [Hne1 Hk1]];
      apply lookup_insert_Some in Hk2 as [[<- <-] | [Hne2 Hk2]]; [done | | |].
    + destruct Hnew. by exists k2, u2.
    + destruct Hnew. by exists k1, u1.
    + by apply (Huniq k1 u1 Hk1 k2 u2 Hk2).
Qed.

Lemma usersOk_replace (db : Db) (id : Id) (u u' : User.t) :
  usersOk db -> users db !! id = Some u -> User.id u' = User.id u ->
  ~ takenByOther db id (User.email u') ->
  usersOk (withUsers db (<[id := u']> (users db)) (nextId db)).
Proof.
  intros [Hkeys Huniq] Hu Hid Hfree. split; cbn.
  - apply map_Forall_insert_2; [|done].
    apply Hkeys in Hu as [? ?]. split; [congruence | done].
  - intros k1 u1 Hk1 k2 u2 Hk2 He.
    apply lookup_insert_Some in Hk1 as [[<- <-] | [Hne1 Hk1]];
      apply lookup_insert_Some in Hk2 as [[<- <-] | [Hne2 Hk2]]; [done | | |].
    + destruct Hfree. exists k2, u2. by repeat split.
    + destruct Hfree. exists k1, u1. by repeat split.
    + by apply (Huniq k1 u1 Hk1 k2 u2 Hk2).
Qed.

Lemma usersOk_delete (db : Db) (id : Id) :
  usersOk db -> usersOk (withUsers db (base.delete id (users db)) (nextId db)).
Proof.
  intros [Hkeys Huniq]. split; cbn.
  - intros k1 u1 Hk1. apply lookup_delete_Some in Hk1 as [_ Hk1]. by apply Hkeys in Hk1.
  - intros k1 u1 Hk1 k2 u2 Hk2.
    apply lookup_delete_Some in Hk1 as [_ Hk1].
    apply lookup_delete_Some in Hk2 as [_ Hk2]. by apply (Huniq k1 u1 Hk1 k2 u2 Hk2).
Qed.

Section UsersController.
Variable isEmail : string -> bool.
Variable trim : string -> string.
Variable now : Date.

Lemma users_create_eq (db : Db) (body : CreateUserBody.t) :
  controllers.users.create isEmail trim now body db
  = if controllers.users.createUserValidation isEmail trim body
    then
      let u := User.mk (nextId db) (CreateUserBody.email body)
                 (option_map trim (CreateUserBody.name body)) now now in
      if existsb (sameEmail u) (prisma.all userT db)
      then (mkResponse 409 None None (Some "Conflict")
              (Some "A record with this data already exists"), db)
      else (mkResponse 201 (Some true) (Some u) None None,
            withUsers db (<[nextId db := u]> (users db)) (N.succ (nextId db)))
    else (mkResponse 400 None None (Some "Validation Error") None, db).
Proof.
  unfold controllers.users.create, asyncHandler, validated.
  destruct (controllers.users.createUserValidation _ _ _); [|reflexivity].
  unfold bind, createUnique. cbn zeta.
  destruct (existsb _ _); reflexivity.
Qed.

Lemma users_update_eq (db : Db) (id : Id) (body : UpdateUserBody.t) :
  controllers.users.update isEmail trim now id body db
  = if controllers.users.updateUserValidation isEmail trim body
    then
      match users db !! id with
      | None =>
          (mkResponse 404 None None (Some "Not Found")
             (Some "The requested record was not found"), db)
      | Some u =>
          let u' := controllers.users.updateData trim now body u in
          if existsb (sameEmail u') (map_to_list (base.delete id (users db))).*2
          then (mkResponse 409 None None (Some "Conflict")
                  (Some "A record with this data already exists"), db)
          else (okJson u', withUsers db (<[id := u']> (users db)) (nextId db))
      end
    else (mkResponse 400 None None (Some "Validation Error") None, db).
Proof.
  unfold controllers.users.update, asyncHandler, validated.
  destruct (controllers.users.updateUserValidation _ _ _); [|reflexivity].
  unfold bind, updateUnique. cbn [rd wr userT].
  destruct (users db !! id) as [u|]; [|reflexivity].
  destruct (existsb _ _); reflexivity.
Qed.

Lemma users_delete_eq (db : Db) (id : Id) :
  usersController.delete id db
  = if (0 <? length (List.filter (fun p => N.eqb (Position.userId p) id)
                       (prisma.all positionT db)))%nat
    then (mkResponse 400 (Some false) None
            (Some "Cannot delete user with existing positions") None, db)
    else match users db !! id with
         | None =>
             (mkResponse 404 None None (Some "Not Found")
                (Some "The requested record was not found"), db)
         | Some _ =>
             (mkResponse 200 (Some true) None None
                (Some "User deleted successfully"),
              withUsers db (base.delete id (users db)) (nextId db))
         end.
Proof.
  unfold usersController.delete, asyncHandler, bind, prisma.count.
  destruct (0 <? _)%nat; [reflexivity|].
  unfold prisma.delete. cbn [rd wr userT].
  destruct (users db !! id); reflexivity.
Qed.

Lemma userStep_ok (op : UserOp) (db : Db) :
  usersOk db -> usersOk (userStep isEmail trim now op db).
Proof.
  intros Hok. destruct op as [body | id body | id]; cbn [userStep].
  - rewrite users_create_eq.
    destruct (controllers.users.createUserValidation _ _ _); [|done]. cbn zeta.
    destruct (existsb _ _) eqn:E; [done|]. cbn [snd].
    apply usersOk_insert; [done | done |].
    intros Hreg. apply existsb_sameEmail in Hreg. congruence.
  - rewrite users_update_eq.
    destruct (controllers.users.updateUserValidation _ _ _); [|done].
    destruct (users db !! id) as [u|] eqn:Hu; [|done]. cbn zeta.
    destruct (existsb _ _) eqn:E; [done|]. cbn [snd].
    apply (usersOk_replace db id u); [done | done | done |].
    intros Htaken. apply existsb_sameEmail_other in Htaken. congruence.
  - rewrite users_delete_eq.
    destruct (0 <? _)%nat; [done|].
    destruct (users db !! id); [|done]. cbn [snd]. by apply usersOk_delete.
Qed.

End UsersController.

(** X22. Whatever sequence of [POST /api/users], [PUT /api/users/:id]
    and [DELETE /api/users/:id] is applied to well-formed users, no two
    users end up with the same email, and every user is stored under
    their own id. *)
Theorem users_writes_keep_emails_unique
    (isEmail : string -> bool) (trim : string -> string) (now : Date)
    (ops : list UserOp) (db : Db) :
  usersOk db -> usersOk (userRun isEmail trim now ops db).
Proof.
  revert db. induction ops as [|op ops IH]; intros db Hok; [done|].
  cbn. apply IH. by apply userStep_ok.
Qed.

Lemma usersOk_db1 : usersOk Example.db1.
Proof. split; refine (bool_decide_unpack _ _); vm_compute; exact I. Defined.

Lemma users_writes_keep_emails_unique_witness :
  usersOk (userRun hasAt noTrim 100 exampleUserRun Example.db1)
  /\ (map_to_list (users (userRun hasAt noTrim 100 exampleUserRun Example.db1))).*2
     = [User.mk 13 "bob@example.com" None 100 100; Example.alice].
Proof.
  split.
  - apply (users_writes_keep_emails_unique hasAt noTrim 100 exampleUserRun Example.db1).
    exact usersOk_db1.
  - vm_compute. reflexivity.
Defined.

Lemma head_filter_email_stored (db : Db) (k : Id) (u : User.t) :
  usersOk db -> users db !! k = Some u ->
  head (List.filter (fun x => String.eqb (User.email x) (User.email u))
          (prisma.all userT db)) = Some u.
Proof.
  intros [_ Hu] Hk.
  destruct (head _) as [x|] eqn:E.
  - apply head_filter_Some in E as [Hin He]. apply String.eqb_eq in He.
    apply list_elem_of_In, elem_of_values in Hin as [k' Hk']. cbn in Hk'.
    assert (k' = k) by (by apply (Hu k' x Hk' k u Hk)). subst k'. congruence.
  - assert (Hin : In u (List.filter (fun x => String.eqb (User.email x) (User.email u))
                          (prisma.all userT db))).
    { apply filter_In. split; [|apply String.eqb_refl].
      apply list_elem_of_In, elem_of_values. by exists k. }
    destruct (List.filter _ _); [done | done].
Qed.

(** X23. [POST /api/users] with a valid body whose email no user has
    answers 201 with the new user, who has a fresh id, the email and the
    trimmed name of the body; the user is then found by
    [GET /api/users/:id] and by [GET /api/users/email/:email]; and a
    second [POST] with the same email answers 409 'Conflict' when its
    body is valid, 400 when it is not, and adds nothing. *)
Theorem users_create_then_conflict
    (isEmail : string -> bool) (trim : string -> string) (now : Date)
    (db : Db) (body : CreateUserBody.t) :
  usersOk db ->
  controllers.users.createUserValidation isEmail trim body = true ->
  ~ registered db (CreateUserBody.email body) ->
  let u := User.mk (nextId db) (CreateUserBody.email body)
             (option_map trim (CreateUserBody.name body)) now now in
  let db' := withUsers db (<[nextId db := u]> (users db)) (N.succ (nextId db)) in
  controllers.users.create isEmail trim now body db
  = (mkResponse 201 (Some true) (Some u) None None, db')
  /\ controllers.users.getById (nextId db) db'
     = (okJson (withPositionCount db' u), db')
  /\ controllers.users.getByEmail (CreateUserBody.email body) db'
     = (okJson (withPositionCount db' u), db')
  /\ forall body' : CreateUserBody.t,
       CreateUserBody.email body' = CreateUserBody.email body ->
       controllers.users.create isEmail trim now body' db'
       = (if controllers.users.createUserValidation isEmail trim body'
          then mkResponse 409 None None (Some "Conflict")
                 (Some "A record with this data already exists")
          else mkResponse 400 None None (Some "Validation Error") None, db').
Proof.
  intros Hok Hvalid Hnew u db'.
  assert (Hok' : usersOk db') by (by apply usersOk_insert).
  assert (Hu : users db' !! nextId db = Some u) by apply lookup_insert_eq.
  split.
  { rewrite users_create_eq, Hvalid. cbn zeta. fold u.
    destruct (existsb _ _) eqn:E; [|done].
    by apply existsb_sameEmail in E. }
  split.
  { unfold controllers.users.getById, asyncHandler, bind, prisma.findUnique, get.
    cbn [rd userT]. by rewrite Hu. }
  split.
  { unfold controllers.users.getByEmail, asyncHandler, bind, findUniqueBy, get.
    pose proof (head_filter_email_stored db' (nextId db) u Hok' Hu) as Hhead.
    change (User.email u) with (CreateUserBody.email body) in Hhead.
    by rewrite Hhead. }
  intros body' He. rewrite users_create_eq.
  destruct (controllers.users.createUserValidation isEmail trim body'); [|done].
  cbn zeta.
  destruct (existsb _ _) eqn:E; [done|].
  apply not_true_iff_false in E. destruct E. apply existsb_sameEmail.
  exists (nextId db), u. split; [done|]. cbn. by rewrite He.
Qed.

Lemma users_create_then_conflict_witness :
  usersOk Example.db1
  /\ fst (controllers.users.create hasAt noTrim 100
            (CreateUserBody.mk "bob@example.com" (Some "Bob")) Example.db1)
     = mkResponse 201 (Some true)
         (Some (User.mk 12 "bob@example.com" (Some "Bob") 100 100)) None None.
Proof.
  split; [exact usersOk_db1|].
  assert (Hnew : ~ registered Example.db1 "bob@example.com").
  { intros (k & x & Hk & He).
    change (({[1%N := Example.alice]} : gmap N User.t) !! k = Some x) in Hk.
    apply lookup_singleton_Some in Hk as [_ <-]. discriminate He. }
  destruct (users_create_then_conflict hasAt noTrim 100 Example.db1
              (CreateUserBody.mk "bob@example.com" (Some "Bob"))
              usersOk_db1 eq_refl Hnew) as [Hc _].
  rewrite Hc. reflexivity.
Defined.

(** X24. For an id of the right form that no user has,
    [GET /api/users/:id] answers 404
    with success false and 'User not found'; [PUT /api/users/:id]
    answers 404 'Not Found' through the error handler when the body is
    valid and 400 when it is not; [DELETE /api/users/:id] answers 400
    'Cannot delete user with existing positions' when some position
    carries the id and 404 'Not Found' otherwise.  None of them changes
    the store. *)
Theorem users_unknown_id_is_404
    (isEmail : string -> bool) (trim : string -> string) (now : Date)
    (db : Db) (id : Id) (body : UpdateUserBody.t) :
  users db !! id = None ->
  controllers.users.getById id db
  = (mkResponse 404 (Some false) None (Some "User not found") None, db)
  /\ controllers.users.update isEmail trim now id body db
     = (if controllers.users.updateUserValidation isEmail trim body
        then mkResponse 404 None None (Some "Not Found")
               (Some "The requested record was not found")
        else mkResponse 400 None None (Some "Validation Error") None, db)
  /\ (owns positionT Position.userId db id ->
      usersController.delete id db
      = (mkResponse 400 (Some false) None
           (Some "Cannot delete user with existing positions") None, db))
  /\ (~ owns positionT Position.userId db id ->
      usersController.delete id db
      = (mkResponse 404 None None (Some "Not Found")
           (Some "The requested record was not found"), db)).
Proof.
  intros Hno. split.
  { unfold controllers.users.getById, asyncHandler, bind, prisma.findUnique, get.
    cbn [rd userT]. by rewrite Hno. }
  split.
  { rewrite users_update_eq, Hno. by destruct (controllers.users.updateUserValidation _ _ _). }
  split.
  - intros Hown. rewrite users_delete_eq.
    apply (count_owns positionT Position.userId) in Hown. by rewrite Hown.
  - intros Hown. rewrite users_delete_eq.
    rewrite (count_not_owns positionT Position.userId db id Hown). by rewrite Hno.
Qed.

Lemma users_unknown_id_is_404_witness :
  users Example.db1 !! 7%N = None
  /\ statusCode (fst (controllers.users.getById 7 Example.db1)) = 404
  /\ statusCode (fst (usersController.delete 7 Example.db1)) = 404.
Proof.
  assert (Hno : users Example.db1 !! 7%N = None) by reflexivity.
  split; [exact Hno|].
  destruct (users_unknown_id_is_404 hasAt noTrim 100 Example.db1 7
              (UpdateUserBody.mk None None) Hno) as (Hget & _ & _ & Hdel).
  split.
  - rewrite Hget. reflexivity.
  - reflexivity.
Defined.

(** X25. [PUT /api/users/:id] on a stored user with a valid body
    answers 409 'Conflict' and changes nothing when another user has the
    email of the body; otherwise it answers 200 with the updated user
    and stores them under the same id, every other user untouched.  The
    email is replaced only by a non-empty email of the body, the name by
    the trimmed name of the body when there is one; id and createdAt are
    kept. *)
Theorem users_update_replaces_provided
    (isEmail : string -> bool) (trim : string -> string) (now : Date)
    (db : Db) (id : Id) (u : User.t) (body : UpdateUserBody.t) :
  users db !! id = Some u ->
  controllers.users.updateUserValidation isEmail trim body = true ->
  exists u' : User.t,
    User.id u' = User.id u
    /\ User.createdAt u' = User.createdAt u
    /\ User.email u'
       = (if truthy (UpdateUserBody.email body)
          then default (User.email u) (UpdateUserBody.email body)
          else User.email u)
    /\ User.name u'
       = match UpdateUserBody.name body with
         | Some n => Some (trim n)
         | None => User.name u
         end
    /\ (takenByOther db id (User.email u') ->
        controllers.users.update isEmail trim now id body db
        = (mkResponse 409 None None (Some "Conflict")
             (Some "A record with this data already exists"), db))
    /\ (~ takenByOther db id (User.email u') ->
        exists db',
          controllers.users.update isEmail trim now id body db = (okJson u', db')
          /\ users db' !! id = Some u'
          /\ (forall k, k <> id -> users db' !! k = users db !! k)
          /\ db' = withUsers db (users db') (nextId db)).
Proof.
  intros Hu Hvalid.
  exists (controllers.users.updateData trim now body u).
  split; [done|]. split; [done|].
  split.
  { cbn. destruct (UpdateUserBody.email body) as [[|c e]|]; reflexivity. }
  split.
  { cbn. by destruct (UpdateUserBody.name body). }
  split.
  - intros Htaken. rewrite users_update_eq, Hvalid, Hu. cbn zeta.
    apply existsb_sameEmail_other in Htaken. by rewrite Htaken.
  - intros Hfree. rewrite users_update_eq, Hvalid, Hu. cbn zeta.
    destruct (existsb _ _) eqn:E; [by apply existsb_sameEmail_other in E|].
    eexists. split; [reflexivity|]. cbn. split; [apply lookup_insert_eq|].
    split; [|done]. intros k Hne. by apply lookup_insert_ne.
Qed.

Lemma users_update_replaces_provided_witness :
  users Example.db1 !! 1%N = Some Example.alice
  /\ exists u' : User.t,
       User.email u' = "alice@example.org" /\ User.name u' = Some "Alice"
       /\ User.createdAt u' = 0.
Proof.
  assert (Hu : users Example.db1 !! 1%N = Some Example.alice) by reflexivity.
  split; [exact Hu|].
  destruct (users_update_replaces_provided hasAt noTrim 100 Example.db1 1 Example.alice
              (UpdateUserBody.mk (Some "alice@example.org") (Some "Alice"))
              Hu eq_refl) as (u' & _ & Hc & He & Hn & _).
  exists u'. by repeat split.
Defined.
